(** * DoFixList: the completion ledger and the progress evaluator

    A shallow embedding of the habit dashboard (the [Dashboard] page:
    [completeHabit], [getStreak], [getCompletionRate],
    [isHabitCompletedToday]) and of the [habit_completions] table with its
    unique index, followed by the properties the specification states about
    them.  Around this core: the tables, policies and triggers of the
    migration as statements on a database ([Pg]), the [Friends] page
    ([fetchFollowing], [fetchFollowers], [fetchFriendsActivity],
    [followUser], [unfollowUser], [isFollowing], [formatActivityDate]), the
    [CreateHabit] page ([fetchHabit], [onSubmit]) and the dashboard's query
    ([fetchHabits]).

    Conventions of the embedding.
    - A JavaScript [Date] is its time value: milliseconds since the epoch,
      an integer.  Only valid dates occur (the clock and database columns).
    - A [completion_date] (SQL [DATE], serialised [YYYY-MM-DD]) is the number
      of days from 1970-01-01 to that date; two such strings are equal exactly
      when their day numbers are, and [new Date(s)] is UTC midnight of the day.
    - The runtime's time zone is a fixed offset [tz] (milliseconds east of
      UTC, no daylight-saving change in the days looked at); it is a
      parameter of everything that reads local time.
    - One evaluation reads the clock once: [now] is a parameter.
    - JavaScript numbers are IEEE-754 binary64 values; module [F64] rounds
      exactly as binary64 does (round to nearest, ties to even).
    - A page function takes the signed-in user ([user?.id], absent when
      nobody is signed in) and the database and returns the toast it shows,
      the database afterwards and the page state it sets; a query sent with
      an undefined id fails, which the page reports or logs. *)

From Stdlib Require Import ZArith List Bool Lia String Ascii Permutation.
From Stdlib Require Import Floats.
Import ListNotations.
Local Open Scope Z_scope.

(* ------------------------------------------------------------------ *)
(** ** JavaScript dates in a fixed-offset zone *)

Module JsDate.

(** [1000 * 60 * 60 * 24], also the literal [86400000] of [getStreak]. *)
Definition MS_PER_DAY : Z := 86400000.

(** [new Date("YYYY-MM-DD")]: a date-only string is read as UTC midnight. *)
Definition parseDate (day : Z) : Z := day * MS_PER_DAY.

(** [d.toISOString().split('T')[0]]: the UTC calendar day of [d]. *)
Definition toISODate (t : Z) : Z := t / MS_PER_DAY.

Section Zone.
Variable tz : Z.

(** The local calendar day (as a day number) that contains instant [t]. *)
Definition localDay (t : Z) : Z := (t + tz) / MS_PER_DAY.

(** [d.setHours(0, 0, 0, 0)]: local midnight of the local day of [d]. *)
Definition setHours0 (t : Z) : Z := localDay t * MS_PER_DAY - tz.

(** [d.setHours(23, 59, 59, 999)]. *)
Definition setHoursEnd (t : Z) : Z := setHours0 t + (MS_PER_DAY - 1).

(** [d.setDate(d.getDate() + k)]: [k] calendar days later, same local
    time of day. *)
Definition addDays (t k : Z) : Z := t + k * MS_PER_DAY.

(** [d.getDay()]: 0 is Sunday; 1970-01-01 was a Thursday. *)
Definition getDay (t : Z) : Z := (localDay t + 4) mod 7.

(** date-fns [startOfWeek(d)] and [endOfWeek(d)] with the default
    [weekStartsOn = 0]. *)
Definition weekStartsOn : Z := 0.

Definition startOfWeek (t : Z) : Z :=
  let day := getDay t in
  let diff := (if day <? weekStartsOn then 7 else 0) + day - weekStartsOn in
  setHours0 (addDays t (- diff)).

Definition endOfWeek (t : Z) : Z :=
  let day := getDay t in
  let diff := (if day <? weekStartsOn then -7 else 0) + 6 - (day - weekStartsOn) in
  setHoursEnd (addDays t diff).
End Zone.

End JsDate.

(* ------------------------------------------------------------------ *)
(** ** JavaScript numbers: binary64 arithmetic

    A finite double is kept as the integer [X] with value [X * 2^-1074]:
    every finite binary64 value is such a multiple, and it has at most 53
    significant bits.  [round a b] is the double nearest to the rational
    [a / b] (in the same unit), ties to even.  Overflow to infinity and NaN
    are outside the model; the dashboard's operands (array lengths, time
    values of valid dates, the constants 7, 100 and 86400000, and divisors
    that are at least 1) never reach them. *)

Module F64.

Definition unit_exp : Z := 1074.
Definition one : Z := 2 ^ unit_exp.

(** The integer [z] as a double; exact while [|z| <= 2^53]. *)
Definition of_int (z : Z) : Z := z * one.

(** The integer nearest to [a / b] for [0 <= a], [0 < b], ties to even. *)
Definition rne (a b : Z) : Z :=
  let q := a / b in
  let r := a mod b in
  if 2 * r <? b then q
  else if b <? 2 * r then q + 1
  else if Z.even q then q else q + 1.

(** Number of low bits that do not fit in a 53-bit significand. *)
Definition drop (a b : Z) : Z := Z.max 0 (Z.log2 (a / b) + 1 - 53).

Definition round_pos (a b : Z) : Z :=
  let t := drop a b in rne a (b * 2 ^ t) * 2 ^ t.

(** Rounding of [a / b] for [0 < b] and any sign of [a]. *)
Definition round (a b : Z) : Z :=
  if a <? 0 then - round_pos (- a) b else round_pos a b.

(** [x - y], [x * y] and [x / y] (for [y <> 0]) on doubles. *)
Definition sub (x y : Z) : Z := round (x - y) 1.
Definition mul (x y : Z) : Z := round (x * y) one.
Definition div (x y : Z) : Z :=
  if y <? 0 then round (- x * one) (- y) else round (x * one) y.

(** [Math.ceil(x)] and [Math.round(x)] (nearest integer, ties upwards),
    as integers. *)
Definition ceil (x : Z) : Z := - ((- x) / one).
Definition round_half_up (x : Z) : Z := (2 * x + one) / (2 * one).

(** Reading a kernel float back into the model's unit. *)
Definition of_prim (f : float) : option Z :=
  match Prim2SF f with
  | S754_zero _ => Some 0
  | S754_finite s m e =>
      let v := Z.pos m * 2 ^ (e + unit_exp) in
      Some (if s then - v else v)
  | _ => None
  end.

End F64.

(* ------------------------------------------------------------------ *)
(** ** The dashboard's data *)

Inductive Frequency : Type := daily | weekly.

(** An element of [habit_completions] as the dashboard selects it. *)
Record Completion : Type := mkCompletion {
  completion_id : string;
  completion_date : Z;
  notes : string
}.

Record Habit : Type := mkHabit {
  id : string;
  name : string;
  description : string;
  frequency : Frequency;
  category_id : string;
  created_at : Z;
  habit_completions : list Completion
}.

(* ------------------------------------------------------------------ *)
(** ** The completion ledger: table [public.habit_completions]

    The rows keep the columns the table's constraints read: [habit_id]
    (foreign key to [habits(id)], [ON DELETE CASCADE]), [user_id] (the
    row-level-security policy of [INSERT] checks it against [auth.uid()])
    and [completion_date] (with [habit_id], the key of the unique index
    [idx_habit_completions_unique_daily]).  The generated [id] and
    [completed_at] and the free [notes] are left out: nothing below reads
    them. *)

Module Ledger.

Record HabitRow : Type := mkHabitRow {
  habit_row_id : string;
  habit_row_user_id : string
}.

Record CompletionRow : Type := mkCompletionRow {
  habit_id : string;
  user_id : string;
  completion_date : Z
}.

Record Database : Type := mkDatabase {
  habits : list HabitRow;
  habit_completions : list CompletionRow
}.

(** The ways the [INSERT] can be refused.  [unique_violation] (SQLSTATE
    23505) is the specification's [DuplicateCompletion]. *)
Inductive PgError : Type :=
| insufficient_privilege
| unique_violation
| foreign_key_violation.

Inductive Result : Type :=
| Ok (row : CompletionRow)
| Error (e : PgError).

(** The key of [idx_habit_completions_unique_daily]. *)
Definition key (r : CompletionRow) : string * Z :=
  (habit_id r, completion_date r).

Definition has_key (hid : string) (date : Z) (r : CompletionRow) : bool :=
  String.eqb (habit_id r) hid && (completion_date r =? date).

(** Policy "Users can create their own completions":
    [WITH CHECK (auth.uid() = user_id)]; a null on either side fails it. *)
Definition policy_check (auth_uid uid : option string) : bool :=
  match auth_uid, uid with
  | Some a, Some u => String.eqb a u
  | _, _ => false
  end.

(** [insert({habit_id, user_id, completion_date})] into
    [habit_completions] by the session [auth_uid]; [uid] is [user?.id],
    absent when nobody is signed in.  The policy is checked first, the
    unique index when the row is entered, the foreign key at the end of the
    statement; a refused statement leaves the table as it was. *)
Definition insert (auth_uid : option string) (hid : string)
    (uid : option string) (date : Z) (db : Database) : Result * Database :=
  match uid with
  | None => (Error insufficient_privilege, db)
  | Some u =>
      if negb (policy_check auth_uid uid) then (Error insufficient_privilege, db)
      else if existsb (has_key hid date) (habit_completions db) then
        (Error unique_violation, db)
      else if negb (existsb (fun h => String.eqb (habit_row_id h) hid) (habits db)) then
        (Error foreign_key_violation, db)
      else
        let row := mkCompletionRow hid u date in
        (Ok row, mkDatabase (habits db) (habit_completions db ++ [row]))
  end.

(** [DELETE FROM habits WHERE id = hid] by the habit's owner: the
    completions of the habit go with it ([ON DELETE CASCADE]). *)
Definition delete_habit (hid : string) (db : Database) : Database :=
  mkDatabase
    (filter (fun h => negb (String.eqb (habit_row_id h) hid)) (habits db))
    (filter (fun r => negb (String.eqb (habit_id r) hid)) (habit_completions db)).

(** A new habit row (its [id] is fresh: [gen_random_uuid()], primary key). *)
Definition insert_habit (h : HabitRow) (db : Database) : Database :=
  mkDatabase (habits db ++ [h]) (habit_completions db).


(** Number of completions recorded for [(hid, date)]. *)
Definition count (hid : string) (date : Z) (db : Database) : nat :=
  List.length (filter (has_key hid date) (habit_completions db)).

Definition empty : Database := mkDatabase [] [].

(** The states the ledger can be in: any sequence of statements, by any
    sessions, from the empty schema. *)
Inductive reachable : Database -> Prop :=
| reach_empty : reachable empty
| reach_insert_habit h db :
    reachable db -> reachable (insert_habit h db)
| reach_insert auth_uid hid uid date db :
    reachable db -> reachable (snd (insert auth_uid hid uid date db))
| reach_delete_habit hid db :
    reachable db -> reachable (delete_habit hid db).

End Ledger.

(* ------------------------------------------------------------------ *)
(** ** The progress evaluator *)

Module Dashboard.
Import JsDate.

(** [xs.sort((a, b) => b.getTime() - a.getTime())]: time values in
    descending order.  The comparator is a consistent total preorder and
    dates of equal time are indistinguishable, so the sorted array does not
    depend on the engine's sorting algorithm. *)
Fixpoint insert_desc (x : Z) (l : list Z) : list Z :=
  match l with
  | [] => [x]
  | y :: l' => if y <=? x then x :: l else y :: insert_desc x l'
  end.

Fixpoint sort_desc (l : list Z) : list Z :=
  match l with
  | [] => []
  | x :: l' => insert_desc x (sort_desc l')
  end.

Section Zone.
Variable tz : Z.

(** The [for (const completion of completions)] loop of [getStreak]:
    [all] is the sorted array (for [completions.length]), [completions]
    what is left of it, and [streak] and [currentDate] the loop's two
    variables.  Leaving the match is [break]. *)
Fixpoint streak_loop (freq : Frequency) (all completions : list Z)
    (streak currentDate : Z) : Z :=
  match completions with
  | [] => streak
  | completion :: rest =>
      let completion := setHours0 tz completion in
      match freq with
      | daily =>
          if completion =? currentDate then
            streak_loop freq all rest (streak + 1) (addDays currentDate (-1))
          else if completion =? currentDate + 86400000 then
            if streak =? 0 then
              let currentDate := addDays currentDate (-1) in
              if completion =? currentDate then
                streak_loop freq all rest (streak + 1) (addDays currentDate (-1))
              else streak_loop freq all rest streak currentDate
            else streak_loop freq all rest streak currentDate
          else streak
      | weekly => Z.of_nat (List.length all)
      end
  end.

Definition getStreak (habit : Habit) (now : Z) : Z :=
  if (List.length (habit_completions habit) =? 0)%nat then 0
  else
    let completions :=
      sort_desc (map (fun c => parseDate (completion_date c))
                     (habit_completions habit)) in
    let streak := 0 in
    let currentDate := setHours0 tz now in
    streak_loop (frequency habit) completions completions streak currentDate.

Definition getCompletionRate (habit : Habit) (now : Z) : Z :=
  let daysSinceCreated :=
    F64.ceil (F64.div (F64.sub (F64.of_int now) (F64.of_int (created_at habit)))
                      (F64.of_int (1000 * 60 * 60 * 24))) in
  let completions := Z.of_nat (List.length (habit_completions habit)) in
  let expectedCompletions :=
    match frequency habit with
    | daily => daysSinceCreated
    | weekly => F64.ceil (F64.div (F64.of_int daysSinceCreated) (F64.of_int 7))
    end in
  Z.min 100
    (F64.round_half_up
       (F64.mul (F64.div (F64.of_int completions)
                         (F64.of_int (Z.max expectedCompletions 1)))
                (F64.of_int 100))).

(** The callback of [some] in the weekly branch. *)
Definition inCurrentWeek (now : Z) (c : Completion) : bool :=
  let completionDate := parseDate (completion_date c) in
  let weekStart := startOfWeek tz now in
  let weekEnd := endOfWeek tz now in
  (weekStart <=? completionDate) && (completionDate <=? weekEnd).

Definition isHabitCompletedToday (habit : Habit) (now : Z) : bool :=
  let today := toISODate now in
  match frequency habit with
  | daily => existsb (fun c => completion_date c =? today) (habit_completions habit)
  | weekly => existsb (inCurrentWeek now) (habit_completions habit)
  end.

(** The toast [completeHabit] ends with, by its title. *)
Inductive Toast : Type :=
| toast_already_completed
| toast_great_job
| toast_error.

(** [completeHabit(habitId, frequency)] for the signed-in [user], with
    the page's cached [habits] (possibly stale), at instant [now], against
    the database: the toast shown and the database afterwards.
    [habit?.habit_completions.some(...)] is [undefined] when the habit is
    not in the cache, and then the insert is attempted. *)
Definition completeHabit (user : option string) (habits : list Habit)
    (habitId : string) (freq : Frequency) (now : Z)
    (db : Ledger.Database) : Toast * Ledger.Database :=
  let today := toISODate now in
  let habit := find (fun h => String.eqb (id h) habitId) habits in
  let isCompleted :=
    match freq with
    | daily =>
        option_map (fun h => existsb (fun c => completion_date c =? today)
                                     (habit_completions h)) habit
    | weekly =>
        option_map (fun h => existsb (inCurrentWeek now) (habit_completions h)) habit
    end in
  match isCompleted with
  | Some true => (toast_already_completed, db)
  | _ =>
      match Ledger.insert user habitId user today db with
      | (Ledger.Error _, db') => (toast_error, db')
      | (Ledger.Ok _, db') => (toast_great_job, db')
      end
  end.
End Zone.

End Dashboard.

(* ------------------------------------------------------------------ *)
(** ** The vocabulary of the statements *)

(** The first day of the current week, as a local day number. *)
Definition weekStartDay (tz now : Z) : Z := JsDate.localDay tz now - JsDate.getDay tz now.

(** [desc l]: every element is at least all the elements after it. *)
Fixpoint desc (l : list Z) : Prop :=
  match l with
  | [] => True
  | x :: l' => (forall y, In y l' -> y <= x) /\ desc l'
  end.

(** The calendar days a habit has completions on. *)
Definition dates (h : Habit) : list Z := map completion_date (habit_completions h).

(** [run_length_from ds t n]: counting backward from day [t], exactly the [n]
    days [t], [t-1], ..., [t-n+1] have a completion and day [t-n] has none. *)
Definition run_length_from (ds : list Z) (t : Z) (n : nat) : Prop :=
  (forall k : nat, (k < n)%nat -> In (t - Z.of_nat k) ds) /\
  ~ In (t - Z.of_nat n) ds.

(** The specification's formula for the rate (its section 4.2c), in exact
    arithmetic, to compare the code with.  [round_nearest n d] is [n / d]
    rounded to the nearest integer, a half rounding upwards as [Math.round]
    does. *)
Definition round_nearest (n d : Z) : Z := (2 * n + d) / (2 * d).

(** [ceil_div a d] is the ceiling of [a / d]. *)
Definition ceil_div (a d : Z) : Z := - ((- a) / d).

(** The specification's [expected_count] for a habit created [elapsed_ms]
    milliseconds ago. *)
Definition spec_expected (freq : Frequency) (elapsed_ms : Z) : Z :=
  match freq with
  | daily => ceil_div elapsed_ms JsDate.MS_PER_DAY
  | weekly => ceil_div elapsed_ms (7 * JsDate.MS_PER_DAY)
  end.

(** The specification's rate:
    [min(100, round(100 * completions_count / max(expected_count, 1)))]. *)
Definition spec_rate (freq : Frequency) (completions_count elapsed_ms : Z) : Z :=
  Z.min 100
    (round_nearest (100 * completions_count)
                   (Z.max (spec_expected freq elapsed_ms) 1)).

(** [100 * c / e] lies exactly halfway between two integers. *)
Definition is_tie (c e : Z) : Prop := (200 * c + e) mod (2 * e) = 0.

(** The last line of [getCompletionRate]. *)
Definition rate_core (c e : Z) : Z :=
  Z.min 100
    (F64.round_half_up (F64.mul (F64.div (F64.of_int c) (F64.of_int e)) (F64.of_int 100))).

(** A habit with one completion per day of [days], for examples. *)
Definition habit_on (freq : Frequency) (created : Z) (days : list Z) : Habit :=
  mkHabit "h1" "habit" "" freq "c1" created
          (map (fun d => mkCompletion "" d "") days).

(** The two intermediate values of [getCompletionRate]. *)
Definition daysSinceCreated (h : Habit) (now : Z) : Z :=
  F64.ceil (F64.div (F64.sub (F64.of_int now) (F64.of_int (created_at h)))
                    (F64.of_int (1000 * 60 * 60 * 24))).

Definition expectedCompletions (h : Habit) (now : Z) : Z :=
  match frequency h with
  | daily => daysSinceCreated h now
  | weekly => F64.ceil (F64.div (F64.of_int (daysSinceCreated h now)) (F64.of_int 7))
  end.

(** [(c / e) * 100] on the kernel's binary64 numbers. *)
Definition prim_percent (c e : Z) : float :=
  PrimFloat.mul
    (PrimFloat.div (PrimFloat.of_uint63 (Uint63.of_Z c))
                   (PrimFloat.of_uint63 (Uint63.of_Z e)))
    (PrimFloat.of_uint63 (Uint63.of_Z 100)).

Definition agrees (c e : Z) : bool :=
  match F64.of_prim (prim_percent c e) with
  | Some x => x =? F64.mul (F64.div (F64.of_int c) (F64.of_int e)) (F64.of_int 100)
  | None => false
  end.

Definition upto (n : nat) : list Z := map Z.of_nat (seq 0 n).

(* ------------------------------------------------------------------ *)
(** ** The tables of the migration

    One module per table, with the columns under their names.  Identifiers
    are well-formed UUIDs kept as strings, instants are milliseconds, and a
    nullable column is an [option].  [AuthUsers] is [auth.users] of the
    authentication service, with the columns the trigger [handle_new_user]
    reads ([raw_user_meta_data ->> 'username'] and [->> 'full_name'] as
    [username] and [full_name]). *)

Module AuthUsers.
Record row : Type := mk {
  id : string;
  email : option string;
  username : option string;
  full_name : option string
}.
End AuthUsers.

Module Profiles.
Record row : Type := mk {
  id : string;
  user_id : string;
  username : string;
  full_name : option string;
  avatar_url : option string;
  created_at : Z;
  updated_at : Z
}.
End Profiles.

Module Categories.
Record row : Type := mk {
  id : string;
  name : string;
  color : string;
  created_at : Z
}.
End Categories.

Module Habits.
Record row : Type := mk {
  id : string;
  user_id : string;
  name : string;
  description : option string;
  frequency : Frequency;
  category_id : option string;
  is_active : bool;
  created_at : Z;
  updated_at : Z
}.
End Habits.

Module Completions.
Record row : Type := mk {
  id : string;
  habit_id : string;
  user_id : string;
  completed_at : Z;
  completion_date : Z;
  notes : option string
}.
End Completions.

Module Follows.
Record row : Type := mk {
  id : string;
  follower_id : string;
  following_id : string;
  created_at : Z
}.
End Follows.

(* ------------------------------------------------------------------ *)
(** ** The database and the statements the pages issue

    Statements run as the signed-in session [auth_uid], under the row-level
    security policies of the migration.  A generated [id]
    ([gen_random_uuid()]) and the instant of [now()] are arguments.  A
    refused statement changes nothing: it returns [Failed]. *)

Module Pg.

Inductive Error : Type :=
| insufficient_privilege
| not_null_violation
| check_violation
| unique_violation
| foreign_key_violation
| invalid_text_representation
| not_one_row.

Inductive Result (A : Type) : Type :=
| Ok (a : A)
| Failed (e : Error).
Arguments Ok {A} a.
Arguments Failed {A} e.

Record Database : Type := mkDatabase {
  users : list AuthUsers.row;
  profiles : list Profiles.row;
  categories : list Categories.row;
  habits : list Habits.row;
  habit_completions : list Completions.row;
  follows : list Follows.row
}.

Definition empty : Database := mkDatabase [] [] [] [] [] [].

Definition with_users (db : Database) (l : list AuthUsers.row) : Database :=
  mkDatabase l (profiles db) (categories db) (habits db) (habit_completions db) (follows db).
Definition with_profiles (db : Database) (l : list Profiles.row) : Database :=
  mkDatabase (users db) l (categories db) (habits db) (habit_completions db) (follows db).
Definition with_habits (db : Database) (l : list Habits.row) : Database :=
  mkDatabase (users db) (profiles db) (categories db) l (habit_completions db) (follows db).
Definition with_habit_completions (db : Database) (l : list Completions.row) : Database :=
  mkDatabase (users db) (profiles db) (categories db) (habits db) l (follows db).
Definition with_follows (db : Database) (l : list Follows.row) : Database :=
  mkDatabase (users db) (profiles db) (categories db) (habits db) (habit_completions db) l.

(** [auth.uid() = u]; without a session [auth.uid()] is null and the
    comparison is not true. *)
Definition is_uid (auth_uid : option string) (u : string) : bool :=
  match auth_uid with
  | Some a => String.eqb a u
  | None => false
  end.

Definition user_exists (db : Database) (u : string) : bool :=
  existsb (fun r => String.eqb (AuthUsers.id r) u) (users db).

(** [.maybeSingle()] and [.single()] on the rows a query returns. *)
Definition maybeSingle {A : Type} (rows : list A) : Result (option A) :=
  match rows with
  | [] => Ok None
  | [r] => Ok (Some r)
  | _ => Failed not_one_row
  end.

Definition single {A : Type} (rows : list A) : Result A :=
  match rows with
  | [r] => Ok r
  | _ => Failed not_one_row
  end.

(** [ORDER BY key DESC]: rows of equal key stay in table order (the
    database leaves their order open). *)
Fixpoint insert_by {A : Type} (key : A -> Z) (x : A) (l : list A) : list A :=
  match l with
  | [] => [x]
  | y :: l' => if key y <? key x then x :: l else y :: insert_by key x l'
  end.

Definition order_desc {A : Type} (key : A -> Z) (l : list A) : list A :=
  fold_right (insert_by key) [] l.

(** *** Sign-up: the trigger [on_auth_user_created] *)

(** [split_part(s, '@', 1)]: the text before the first ['@']. *)
Fixpoint split_part_at (s : string) : string :=
  match s with
  | EmptyString => EmptyString
  | String c rest => if Ascii.eqb c "@"%char then EmptyString else String c (split_part_at rest)
  end.

Definition coalesce {A : Type} (a b : option A) : option A :=
  match a with
  | Some _ => a
  | None => b
  end.

(** [handle_new_user()] for the new row [NEW] of [auth.users]: the insert
    into [profiles], under [username NOT NULL] and the table's primary key
    and two [UNIQUE] columns. *)
Definition handle_new_user (NEW : AuthUsers.row) (profile_id : string) (now : Z)
    (db : Database) : Result Database :=
  let username :=
    coalesce (AuthUsers.username NEW) (option_map split_part_at (AuthUsers.email NEW)) in
  let full_name := coalesce (AuthUsers.full_name NEW) (AuthUsers.email NEW) in
  match username with
  | None => Failed not_null_violation
  | Some u =>
      if existsb (fun p => String.eqb (Profiles.id p) profile_id
                           || String.eqb (Profiles.user_id p) (AuthUsers.id NEW)
                           || String.eqb (Profiles.username p) u) (profiles db)
      then Failed unique_violation
      else Ok (with_profiles db
                 (profiles db
                    ++ [Profiles.mk profile_id (AuthUsers.id NEW) u full_name None now now]))
  end.

(** The insert into [auth.users] with its [AFTER INSERT] trigger; a failing
    trigger undoes the insert. *)
Definition sign_up (NEW : AuthUsers.row) (profile_id : string) (now : Z)
    (db : Database) : Result Database :=
  if user_exists db (AuthUsers.id NEW) then Failed unique_violation
  else handle_new_user NEW profile_id now (with_users db (users db ++ [NEW])).

(** [DELETE FROM auth.users WHERE id = uid] with every [ON DELETE CASCADE]
    of the schema: the profile, the habits and their completions, the
    user's completions and the follows on either side. *)
Definition delete_user (uid : string) (db : Database) : Database :=
  let gone (u : string) := String.eqb u uid in
  mkDatabase
    (filter (fun r => negb (gone (AuthUsers.id r))) (users db))
    (filter (fun p => negb (gone (Profiles.user_id p))) (profiles db))
    (categories db)
    (filter (fun h => negb (gone (Habits.user_id h))) (habits db))
    (filter (fun c => negb (gone (Completions.user_id c))
                      && negb (existsb (fun h => gone (Habits.user_id h)
                                                 && String.eqb (Habits.id h)
                                                               (Completions.habit_id c))
                                       (habits db)))
            (habit_completions db))
    (filter (fun f => negb (gone (Follows.follower_id f))
                      && negb (gone (Follows.following_id f))) (follows db)).

(** *** Table [follows] *)

Definition same_follow (follower following : string) (f : Follows.row) : bool :=
  String.eqb (Follows.follower_id f) follower
  && String.eqb (Follows.following_id f) following.

(** [insert({follower_id, following_id})]: policy
    [WITH CHECK (auth.uid() = follower_id)], [CHECK (follower_id !=
    following_id)], the primary key and [UNIQUE(follower_id, following_id)],
    then the two foreign keys. *)
Definition insert_follow (auth_uid : option string) (new_id : string) (now : Z)
    (follower : option string) (following : string) (db : Database) : Result Database :=
  match follower with
  | None => Failed insufficient_privilege
  | Some me =>
      if negb (is_uid auth_uid me) then Failed insufficient_privilege
      else if String.eqb me following then Failed check_violation
      else if existsb (fun f => String.eqb (Follows.id f) new_id
                                || same_follow me following f) (follows db)
      then Failed unique_violation
      else if negb (user_exists db me && user_exists db following)
      then Failed foreign_key_violation
      else Ok (with_follows db (follows db ++ [Follows.mk new_id me following now]))
  end.

(** [delete().eq('follower_id', follower).eq('following_id', following)]
    under policy [USING (auth.uid() = follower_id)]. *)
Definition delete_follow (auth_uid : option string) (follower following : string)
    (db : Database) : Database :=
  with_follows db
    (filter (fun f => negb (is_uid auth_uid (Follows.follower_id f)
                            && same_follow follower following f)) (follows db)).

(** *** Table [habits] *)

Definition same_habit_name (uid name : string) (h : Habits.row) : bool :=
  String.eqb (Habits.user_id h) uid && String.eqb (Habits.name h) name.

Definition category_exists (db : Database) (c : option string) : bool :=
  match c with
  | None => true
  | Some cid => existsb (fun r => String.eqb (Categories.id r) cid) (categories db)
  end.

(** [insert({name, description, frequency, category_id, user_id})]: policy
    [WITH CHECK (auth.uid() = user_id)], the primary key and
    [UNIQUE(user_id, name)], then the foreign keys; [is_active] defaults
    to true. *)
Definition insert_habit (auth_uid : option string) (new_id : string) (now : Z)
    (name : string) (description : option string) (frequency : Frequency)
    (category_id : option string) (user_id : option string)
    (db : Database) : Result Database :=
  match user_id with
  | None => Failed insufficient_privilege
  | Some me =>
      if negb (is_uid auth_uid me) then Failed insufficient_privilege
      else if existsb (fun h => String.eqb (Habits.id h) new_id
                                || same_habit_name me name h) (habits db)
      then Failed unique_violation
      else if negb (user_exists db me && category_exists db category_id)
      then Failed foreign_key_violation
      else Ok (with_habits db
                 (habits db
                    ++ [Habits.mk new_id me name description frequency category_id
                                  true now now]))
  end.

(** The rows of [update(...).eq('id', id).eq('user_id', uid)] under policy
    [USING (auth.uid() = user_id)]. *)
Definition update_target (auth_uid : option string) (id uid : string)
    (h : Habits.row) : bool :=
  is_uid auth_uid (Habits.user_id h)
  && String.eqb (Habits.id h) id && String.eqb (Habits.user_id h) uid.

(** [update({name, description, frequency, category_id})] of those rows;
    the trigger [update_habits_updated_at] sets [updated_at].  No row to
    update is no error. *)
Definition update_habit (auth_uid : option string) (now : Z) (id uid : string)
    (name : string) (description : option string) (frequency : Frequency)
    (category_id : option string) (db : Database) : Result Database :=
  let target := update_target auth_uid id uid in
  match filter target (habits db) with
  | [] => Ok db
  | _ :: more =>
      if existsb (fun h => negb (target h) && same_habit_name uid name h) (habits db)
         || negb (Nat.eqb (List.length more) 0)
      then Failed unique_violation
      else if negb (category_exists db category_id) then Failed foreign_key_violation
      else Ok (with_habits db
                 (map (fun h =>
                         if target h
                         then Habits.mk (Habits.id h) (Habits.user_id h) name description
                                        frequency category_id (Habits.is_active h)
                                        (Habits.created_at h) now
                         else h) (habits db)))
  end.

(** *** Table [habit_completions], with all its columns *)

Definition same_completion (hid : string) (date : Z) (c : Completions.row) : bool :=
  String.eqb (Completions.habit_id c) hid && (Completions.completion_date c =? date).

Definition habit_exists (db : Database) (hid : string) : bool :=
  existsb (fun h => String.eqb (Habits.id h) hid) (habits db).

(** [insert({habit_id, user_id, completion_date})]; [completed_at] is
    [now()] and [notes] is null. *)
Definition insert_completion (auth_uid : option string) (new_id : string) (now : Z)
    (hid : string) (uid : option string) (date : Z) (db : Database) : Result Database :=
  match uid with
  | None => Failed insufficient_privilege
  | Some u =>
      if negb (is_uid auth_uid u) then Failed insufficient_privilege
      else if existsb (fun c => String.eqb (Completions.id c) new_id
                                || same_completion hid date c) (habit_completions db)
      then Failed unique_violation
      else if negb (habit_exists db hid && user_exists db u)
      then Failed foreign_key_violation
      else Ok (with_habit_completions db
                 (habit_completions db ++ [Completions.mk new_id hid u now date None]))
  end.

(** [DELETE FROM habits WHERE id = hid] under policy "Users can delete
    their own habits"; the completions of a deleted habit go with it. *)
Definition delete_habit (auth_uid : option string) (hid : string)
    (db : Database) : Database :=
  let gone (h : Habits.row) :=
    is_uid auth_uid (Habits.user_id h) && String.eqb (Habits.id h) hid in
  mkDatabase (users db) (profiles db) (categories db)
    (filter (fun h => negb (gone h)) (habits db))
    (filter (fun c => negb (existsb (fun h => gone h
                                              && String.eqb (Habits.id h)
                                                            (Completions.habit_id c))
                                    (habits db)))
            (habit_completions db))
    (follows db).

(** The ledger of the claims inside the full database: the key columns. *)
Definition ledger_of (db : Database) : Ledger.Database :=
  Ledger.mkDatabase
    (map (fun h => Ledger.mkHabitRow (Habits.id h) (Habits.user_id h)) (habits db))
    (map (fun c => Ledger.mkCompletionRow (Completions.habit_id c) (Completions.user_id c)
                                          (Completions.completion_date c))
         (habit_completions db)).

(** The states the database can be in. *)
Inductive reachable : Database -> Prop :=
| reach_empty cats :
    reachable (mkDatabase [] [] cats [] [] [])
| reach_sign_up NEW profile_id now db db' :
    reachable db -> sign_up NEW profile_id now db = Ok db' -> reachable db'
| reach_delete_user uid db :
    reachable db -> reachable (delete_user uid db)
| reach_insert_follow auth_uid new_id now follower following db db' :
    reachable db ->
    insert_follow auth_uid new_id now follower following db = Ok db' -> reachable db'
| reach_delete_follow auth_uid follower following db :
    reachable db -> reachable (delete_follow auth_uid follower following db)
| reach_insert_habit auth_uid new_id now name description frequency category_id user_id db db' :
    reachable db ->
    insert_habit auth_uid new_id now name description frequency category_id user_id db = Ok db' ->
    reachable db'
| reach_update_habit auth_uid now id uid name description frequency category_id db db' :
    reachable db ->
    update_habit auth_uid now id uid name description frequency category_id db = Ok db' ->
    reachable db'
| reach_delete_habit auth_uid hid db :
    reachable db -> reachable (delete_habit auth_uid hid db)
| reach_insert_completion auth_uid new_id now hid uid date db db' :
    reachable db ->
    insert_completion auth_uid new_id now hid uid date db = Ok db' -> reachable db'.

End Pg.

(* ------------------------------------------------------------------ *)
(** ** The Friends page *)

Module Friends.
Import JsDate.

(** [a || d] on a possibly missing string: the empty string is falsy. *)
Definition or_else (a : option string) (d : string) : string :=
  match a with
  | Some s => if String.eqb s "" then d else s
  | None => d
  end.

Record ActivityHabit : Type := mkActivityHabit {
  name : string;
  frequency : Frequency;
  categories : option (string * string)
}.

Record ActivityProfile : Type := mkActivityProfile {
  username : string;
  full_name : string
}.

Record ActivityItem : Type := mkActivityItem {
  id : string;
  completion_date : Z;
  notes : string;
  habits : ActivityHabit;
  profiles : ActivityProfile
}.

(** The page's state that the functions below read and set. *)
Record State : Type := mkState {
  following : list Profiles.row;
  followers : list Profiles.row;
  friendsActivity : list ActivityItem
}.

Definition member (u : string) (ids : list string) : bool :=
  existsb (String.eqb u) ids.

(** [fetchFollowing]: a failing query (nobody signed in) is logged and the
    state stays. *)
Definition fetchFollowing (user : option string) (db : Pg.Database) (st : State) : State :=
  match user with
  | None => st
  | Some me =>
      let follows :=
        map Follows.following_id
            (filter (fun f => String.eqb (Follows.follower_id f) me) (Pg.follows db)) in
      match follows with
      | [] => mkState [] (followers st) (friendsActivity st)
      | _ :: _ =>
          mkState (filter (fun p => member (Profiles.user_id p) follows) (Pg.profiles db))
                  (followers st) (friendsActivity st)
      end
  end.

Definition fetchFollowers (user : option string) (db : Pg.Database) (st : State) : State :=
  match user with
  | None => st
  | Some me =>
      let follows :=
        map Follows.follower_id
            (filter (fun f => String.eqb (Follows.following_id f) me) (Pg.follows db)) in
      match follows with
      | [] => mkState (following st) [] (friendsActivity st)
      | _ :: _ =>
          mkState (following st)
                  (filter (fun p => member (Profiles.user_id p) follows) (Pg.profiles db))
                  (friendsActivity st)
      end
  end.

(** The element of [categories(name, color)] embedded in a habit. *)
Definition category_of (db : Pg.Database) (h : Habits.row) : option (string * string) :=
  match Habits.category_id h with
  | None => None
  | Some cid =>
      option_map (fun c => (Categories.name c, Categories.color c))
                 (find (fun c => String.eqb (Categories.id c) cid) (Pg.categories db))
  end.

(** [fetchFriendsActivity].  The completions and the habits are read under
    the policies "Users can view their own completions" and "Users can view
    their own habits" ([auth.uid() = user_id]); follows and profiles are
    readable by everyone. *)
Definition fetchFriendsActivity (user : option string) (db : Pg.Database)
    (st : State) : State :=
  match user with
  | None => st
  | Some me =>
      let followingIds :=
        map Follows.following_id
            (filter (fun f => String.eqb (Follows.follower_id f) me) (Pg.follows db)) in
      match followingIds with
      | [] => mkState (following st) (followers st) []
      | _ :: _ =>
          let completions :=
            firstn 50
              (Pg.order_desc Completions.completed_at
                 (filter (fun c => Pg.is_uid user (Completions.user_id c)
                                   && member (Completions.user_id c) followingIds)
                         (Pg.habit_completions db))) in
          match completions with
          | [] => mkState (following st) (followers st) []
          | _ :: _ =>
              let habitIds := map Completions.habit_id completions in
              let habits :=
                filter (fun h => Pg.is_uid user (Habits.user_id h)
                                 && member (Habits.id h) habitIds) (Pg.habits db) in
              let profiles :=
                filter (fun p => member (Profiles.user_id p) followingIds) (Pg.profiles db) in
              let activity :=
                map (fun completion =>
                       let habit :=
                         find (fun h => String.eqb (Habits.id h)
                                                   (Completions.habit_id completion)) habits in
                       let profile :=
                         find (fun p => String.eqb (Profiles.user_id p)
                                                   (Completions.user_id completion)) profiles in
                       mkActivityItem
                         (Completions.id completion)
                         (Completions.completion_date completion)
                         (or_else (Completions.notes completion) "")
                         (mkActivityHabit
                            (or_else (option_map Habits.name habit) "Unknown")
                            (match habit with
                             | Some h => Habits.frequency h
                             | None => daily
                             end)
                            (match habit with
                             | Some h => category_of db h
                             | None => None
                             end))
                         (mkActivityProfile
                            (or_else (option_map Profiles.username profile) "Unknown")
                            (or_else (match profile with
                                      | Some p => Profiles.full_name p
                                      | None => None
                                      end) "Unknown")))
                    completions in
              mkState (following st) (followers st) activity
          end
      end
  end.

(** The toasts of [followUser] and [unfollowUser], by their titles. *)
Inductive Toast : Type :=
| toast_already_following
| toast_success
| toast_error (e : Pg.Error).

(** [followUser(userId)]: the look-up, the insert and, after a success,
    the two refreshes of the page's state. *)
Definition followUser (user : option string) (userId : string) (new_id : string)
    (now : Z) (db : Pg.Database) (st : State) : Toast * Pg.Database * State :=
  match user with
  | None => (toast_error Pg.invalid_text_representation, db, st)
  | Some me =>
      match Pg.maybeSingle (filter (Pg.same_follow me userId) (Pg.follows db)) with
      | Pg.Failed e => (toast_error e, db, st)
      | Pg.Ok (Some _) => (toast_already_following, db, st)
      | Pg.Ok None =>
          match Pg.insert_follow user new_id now user userId db with
          | Pg.Failed e => (toast_error e, db, st)
          | Pg.Ok db' =>
              (toast_success, db',
               fetchFriendsActivity user db' (fetchFollowing user db' st))
          end
      end
  end.

Definition unfollowUser (user : option string) (userId : string)
    (db : Pg.Database) (st : State) : Toast * Pg.Database * State :=
  match user with
  | None => (toast_error Pg.invalid_text_representation, db, st)
  | Some me =>
      let db' := Pg.delete_follow user me userId db in
      (toast_success, db', fetchFriendsActivity user db' (fetchFollowing user db' st))
  end.

Definition isFollowing (st : State) (userId : string) : bool :=
  existsb (fun f => String.eqb (Profiles.user_id f) userId) (following st).

(** *** [formatActivityDate] *)

(** Month (1 to 12) and day of the month of a day number, in the
    proleptic Gregorian calendar. *)
Definition civil_month_day (day : Z) : Z * Z :=
  let z := day + 719468 in
  let era := z / 146097 in
  let doe := z - era * 146097 in
  let yoe := (doe - doe / 1460 + doe / 36524 - doe / 146096) / 365 in
  let doy := doe - (365 * yoe + yoe / 4 - yoe / 100) in
  let mp := (5 * doy + 2) / 153 in
  let d := doy - (153 * mp + 2) / 5 + 1 in
  let m := if mp <? 10 then mp + 3 else mp - 9 in
  (m, d).

Definition month_abbreviations : list string :=
  ["Jan"; "Feb"; "Mar"; "Apr"; "May"; "Jun";
   "Jul"; "Aug"; "Sep"; "Oct"; "Nov"; "Dec"]%string.

Definition digit (n : Z) : string :=
  String (ascii_of_nat (48 + Z.to_nat n)) "".

Definition day_of_month (d : Z) : string :=
  if d <? 10 then digit d else (digit (d / 10) ++ digit (d mod 10))%string.

Section Zone.
Variable tz : Z.

(** date-fns [format(date, 'MMM d')], in the default locale. *)
Definition format_MMM_d (date : Z) : string :=
  let (m, d) := civil_month_day (localDay tz date) in
  (nth (Z.to_nat (m - 1)) month_abbreviations "" ++ " " ++ day_of_month d)%string.

(** date-fns [isToday(date)] and [isYesterday(date)]: the same local day
    as the current instant, or as the instant one day earlier. *)
Definition isToday (now date : Z) : bool :=
  setHours0 tz date =? setHours0 tz now.

Definition isYesterday (now date : Z) : bool :=
  setHours0 tz date =? setHours0 tz (addDays now (-1)).

Definition formatActivityDate (now : Z) (dateString : Z) : string :=
  let date := parseDate dateString in
  if isToday now date then "Today"
  else if isYesterday now date then "Yesterday"
  else format_MMM_d date.
End Zone.

End Friends.

(* ------------------------------------------------------------------ *)
(** ** The CreateHabit page *)

Module CreateHabit.

(** The data of the form; [description] is optional in the schema. *)
Record HabitFormData : Type := mkHabitFormData {
  name : string;
  description : option string;
  frequency : Frequency;
  category_id : string
}.

Inductive Toast : Type :=
| toast_updated
| toast_created
| toast_duplicate_name
| toast_error (e : Pg.Error).

(** [s || null]. *)
Definition or_null (s : option string) : option string :=
  match s with
  | Some x => if String.eqb x "" then None else Some x
  | None => None
  end.

(** The route parameter makes the page an editor when it is a non-empty
    string. *)
Definition isEditing (id : option string) : bool :=
  match id with
  | Some s => negb (String.eqb s "")
  | None => false
  end.

(** [fetchHabit(habitId)]: the form's new values, or nothing when the query
    fails (the page then leaves for the dashboard). *)
Definition fetchHabit (user : option string) (habitId : string)
    (db : Pg.Database) : option HabitFormData :=
  match user with
  | None => None
  | Some me =>
      match Pg.single (filter (fun h => Pg.is_uid user (Habits.user_id h)
                                        && String.eqb (Habits.id h) habitId
                                        && String.eqb (Habits.user_id h) me)
                              (Pg.habits db)) with
      | Pg.Failed _ => None
      | Pg.Ok data =>
          Some (mkHabitFormData
                  (Habits.name data)
                  (Some (Friends.or_else (Habits.description data) ""))
                  (Habits.frequency data)
                  (Friends.or_else (Habits.category_id data) ""))
      end
  end.

(** [onSubmit(data)] on the page opened with route parameter [id]. *)
Definition onSubmit (user : option string) (id : option string) (new_id : string)
    (now : Z) (data : HabitFormData) (db : Pg.Database) : Toast * Pg.Database :=
  match user with
  | None => (toast_error Pg.invalid_text_representation, db)
  | Some me =>
      match (if isEditing id then id else None) with
      | Some i =>
          match Pg.update_habit user now i me (name data) (or_null (description data))
                                (frequency data) (Some (category_id data)) db with
          | Pg.Failed e => (toast_error e, db)
          | Pg.Ok db' => (toast_updated, db')
          end
      | None =>
          match Pg.maybeSingle
                  (filter (fun h => Pg.is_uid user (Habits.user_id h)
                                    && Pg.same_habit_name me (name data) h
                                    && Habits.is_active h) (Pg.habits db)) with
          | Pg.Failed e => (toast_error e, db)
          | Pg.Ok (Some _) => (toast_duplicate_name, db)
          | Pg.Ok None =>
              match Pg.insert_habit user new_id now (name data) (or_null (description data))
                                    (frequency data) (Some (category_id data)) user db with
              | Pg.Failed e => (toast_error e, db)
              | Pg.Ok db' => (toast_created, db')
              end
          end
      end
  end.

End CreateHabit.

(* ------------------------------------------------------------------ *)
(** ** The dashboard's query *)

Module DashboardData.

(** One element of the result of [fetchHabits]: the habit's columns and
    the embedded [habit_completions (id, completion_date, notes)], which
    are read under "Users can view their own completions".  A null
    [description], [category_id] or [notes] is kept as the empty string
    (the evaluator reads none of them); the embedded category is only
    shown. *)
Definition to_habit (user : option string) (db : Pg.Database) (h : Habits.row) : Habit :=
  mkHabit (Habits.id h) (Habits.name h)
          (match Habits.description h with Some d => d | None => EmptyString end)
          (Habits.frequency h)
          (match Habits.category_id h with Some c => c | None => EmptyString end)
          (Habits.created_at h)
          (map (fun c => mkCompletion (Completions.id c) (Completions.completion_date c)
                                      (match Completions.notes c with
                                       | Some n => n
                                       | None => EmptyString
                                       end))
               (filter (fun c => Pg.is_uid user (Completions.user_id c)
                                 && String.eqb (Completions.habit_id c) (Habits.id h))
                       (Pg.habit_completions db))).

(** [fetchHabits]: the new value of the page's [habits]; a failing query
    leaves the old one. *)
Definition fetchHabits (user : option string) (db : Pg.Database)
    (habits : list Habit) : list Habit :=
  match user with
  | None => habits
  | Some me =>
      map (to_habit user db)
          (Pg.order_desc Habits.created_at
             (filter (fun h => Pg.is_uid user (Habits.user_id h)
                               && String.eqb (Habits.user_id h) me
                               && Habits.is_active h) (Pg.habits db)))
  end.

End DashboardData.

(* ------------------------------------------------------------------ *)
(** ** What the constraints of the schema say of a database *)

Module PgInv.

Definition follow_pair (f : Follows.row) : string * string :=
  (Follows.follower_id f, Follows.following_id f).

(** [CHECK (follower_id != following_id)], [UNIQUE(follower_id,
    following_id)] and the two foreign keys of [follows]. *)
Definition follows_ok (db : Pg.Database) : Prop :=
  (forall f, In f (Pg.follows db) -> Follows.follower_id f <> Follows.following_id f) /\
  NoDup (map follow_pair (Pg.follows db)) /\
  (forall f, In f (Pg.follows db) ->
             Pg.user_exists db (Follows.follower_id f) = true /\
             Pg.user_exists db (Follows.following_id f) = true).

(** [username UNIQUE], [user_id UNIQUE], and a profile for every user. *)
Definition profiles_ok (db : Pg.Database) : Prop :=
  NoDup (map Profiles.username (Pg.profiles db)) /\
  NoDup (map Profiles.user_id (Pg.profiles db)) /\
  (forall u, Pg.user_exists db u = true ->
             exists p, In p (Pg.profiles db) /\ Profiles.user_id p = u).

Definition habit_key (h : Habits.row) : string * string :=
  (Habits.user_id h, Habits.name h).

(** [UNIQUE(user_id, name)] and the primary key of [habits]. *)
Definition habits_ok (db : Pg.Database) : Prop :=
  NoDup (map habit_key (Pg.habits db)) /\ NoDup (map Habits.id (Pg.habits db)).

Definition completion_key (c : Completions.row) : string * Z :=
  (Completions.habit_id c, Completions.completion_date c).

(** [idx_habit_completions_unique_daily]. *)
Definition completions_ok (db : Pg.Database) : Prop :=
  NoDup (map completion_key (Pg.habit_completions db)).


(** The row an update writes in place of a selected one. *)
Definition updated (now : Z) (name : string) (description : option string)
    (frequency : Frequency) (category_id : option string) (h : Habits.row) : Habits.row :=
  Habits.mk (Habits.id h) (Habits.user_id h) name description frequency category_id
            (Habits.is_active h) (Habits.created_at h) now.

(** A row after the trigger [update_habits_updated_at] alone. *)
Definition touched (now : Z) (h : Habits.row) : Habits.row :=
  Habits.mk (Habits.id h) (Habits.user_id h) (Habits.name h) (Habits.description h)
            (Habits.frequency h) (Habits.category_id h) (Habits.is_active h)
            (Habits.created_at h) now.

End PgInv.

(* ------------------------------------------------------------------ *)
(** ** Sample data *)

Module Sample.

Definition alice : AuthUsers.row :=
  AuthUsers.mk "u1" (Some "alice@example.com"%string) None None.

Definition bob : AuthUsers.row :=
  AuthUsers.mk "u2" (Some "bob@example.com"%string) (Some "bobby"%string)
               (Some "Bob B"%string).

Definition health : Categories.row := Categories.mk "c1" "Health" "#10B981" 0.

(** The seeded schema after the sign-ups of [alice] and [bob]. *)
Definition two_users : Pg.Database :=
  Pg.mkDatabase
    [alice; bob]
    [Profiles.mk "p1" "u1" "alice" (Some "alice@example.com"%string) None 10 10;
     Profiles.mk "p2" "u2" "bobby" (Some "Bob B"%string) None 20 20]
    [health] [] [] [].

Definition no_state : Friends.State := Friends.mkState [] [] [].

Definition run : Habits.row :=
  Habits.mk "h1" "u2" "Run" None daily (Some "c1"%string) true 40 40.

(** Then [alice] follows [bob], who creates the habit [run] and completes
    it on day 20000. *)
Definition busy : Pg.Database :=
  Pg.mkDatabase (Pg.users two_users) (Pg.profiles two_users) [health]
    [run]
    [Completions.mk "k1" "h1" "u2" 50 20000 None]
    [Follows.mk "f1" "u1" "u2" 30].

(** [bob]'s habit switched off (an update of [is_active] by its owner). *)
Definition retired : Pg.Database :=
  Pg.with_habits two_users
    [Habits.mk "h1" "u2" "Run" None daily (Some "c1"%string) false 40 45].

End Sample.

(* ------------------------------------------------------------------ *)
(** ** Facts about the date model *)

Module JsDateFacts.
Import JsDate.

Lemma MS_PER_DAY_pos : 0 < MS_PER_DAY.
Proof. reflexivity. Qed.

(** East of UTC (offset below 24 hours) a date-only string falls on its own
    local calendar day. *)
Lemma localDay_parseDate_east tz d :
  0 <= tz < MS_PER_DAY -> localDay tz (parseDate d) = d.
Proof.
  intros Htz. unfold localDay, parseDate.
  rewrite Z.div_add_l by (unfold MS_PER_DAY; lia).
  rewrite Z.div_small by exact Htz. lia.
Qed.

(** West of UTC it falls on the day before. *)
Lemma localDay_parseDate_west tz d :
  - MS_PER_DAY <= tz < 0 -> localDay tz (parseDate d) = d - 1.
Proof.
  intros Htz. unfold localDay, parseDate.
  replace (d * MS_PER_DAY + tz) with ((d - 1) * MS_PER_DAY + (tz + MS_PER_DAY)) by lia.
  rewrite Z.div_add_l by (unfold MS_PER_DAY; lia).
  rewrite Z.div_small by lia. lia.
Qed.

Lemma setHours0_parseDate_east tz d :
  0 <= tz < MS_PER_DAY -> setHours0 tz (parseDate d) = d * MS_PER_DAY - tz.
Proof.
  intros Htz. unfold setHours0. now rewrite localDay_parseDate_east.
Qed.

Lemma localDay_setHours0 tz t : localDay tz (setHours0 tz t) = localDay tz t.
Proof.
  unfold setHours0. unfold localDay at 1.
  replace (localDay tz t * MS_PER_DAY - tz + tz) with (localDay tz t * MS_PER_DAY) by lia.
  apply Z.div_mul. unfold MS_PER_DAY; lia.
Qed.

Lemma localDay_addDays tz t k : localDay tz (addDays t k) = localDay tz t + k.
Proof.
  unfold localDay, addDays.
  replace (t + k * MS_PER_DAY + tz) with (t + tz + k * MS_PER_DAY) by lia.
  apply Z.div_add. unfold MS_PER_DAY; lia.
Qed.

Lemma getDay_range tz t : 0 <= getDay tz t < 7.
Proof. unfold getDay. apply Z.mod_pos_bound. lia. Qed.

Lemma startOfWeek_eq tz now :
  startOfWeek tz now = weekStartDay tz now * MS_PER_DAY - tz.
Proof.
  unfold startOfWeek, weekStartDay, weekStartsOn.
  pose proof (getDay_range tz now) as Hd.
  destruct (Z.ltb_spec (getDay tz now) 0) as [H|_]; [lia|].
  unfold setHours0. rewrite localDay_addDays. f_equal. f_equal. lia.
Qed.

Lemma endOfWeek_eq tz now :
  endOfWeek tz now = (weekStartDay tz now + 7) * MS_PER_DAY - 1 - tz.
Proof.
  unfold endOfWeek, weekStartDay, weekStartsOn, setHoursEnd.
  pose proof (getDay_range tz now) as Hd.
  destruct (Z.ltb_spec (getDay tz now) 0) as [H|_]; [lia|].
  unfold setHours0. rewrite localDay_addDays. lia.
Qed.

(** The week starts on a Sunday. *)
Lemma weekStartDay_sunday tz now : (weekStartDay tz now + 4) mod 7 = 0.
Proof.
  unfold weekStartDay, getDay.
  replace (localDay tz now - (localDay tz now + 4) mod 7 + 4)
    with ((localDay tz now + 4) - (localDay tz now + 4) mod 7) by lia.
  rewrite Zminus_mod, Z.mod_mod, Z.sub_diag by lia. reflexivity.
Qed.

End JsDateFacts.

(* ------------------------------------------------------------------ *)
(** ** The descending sort *)

Module SortFacts.
Import Dashboard.

Lemma insert_desc_perm x l : Permutation (x :: l) (insert_desc x l).
Proof.
  induction l as [|y l IH]; cbn [insert_desc].
  - apply Permutation_refl.
  - destruct (y <=? x).
    + apply Permutation_refl.
    + eapply Permutation_trans; [apply perm_swap|].
      now apply perm_skip.
Qed.

Lemma sort_desc_perm l : Permutation l (sort_desc l).
Proof.
  induction l as [|x l IH]; cbn [sort_desc].
  - apply perm_nil.
  - eapply Permutation_trans; [apply perm_skip, IH|]. apply insert_desc_perm.
Qed.

Lemma sort_desc_length l : List.length (sort_desc l) = List.length l.
Proof. symmetry. apply Permutation_length, sort_desc_perm. Qed.

Lemma sort_desc_In x l : In x (sort_desc l) <-> In x l.
Proof.
  split; intros H.
  - eapply Permutation_in; [apply Permutation_sym, sort_desc_perm|exact H].
  - eapply Permutation_in; [apply sort_desc_perm|exact H].
Qed.

Lemma insert_desc_desc x l : desc l -> desc (insert_desc x l).
Proof.
  induction l as [|y l IH]; cbn [insert_desc].
  - intros _. cbn. split; [intros ? []|exact I].
  - intros [Hy Hl]. destruct (Z.leb_spec y x) as [Hle|Hlt].
    + cbn [desc]. split.
      * intros z [->|Hz]; [exact Hle|]. specialize (Hy z Hz). lia.
      * split; assumption.
    + cbn [desc]. split.
      * intros z Hz.
        apply (Permutation_in z (Permutation_sym (insert_desc_perm x l))) in Hz.
        destruct Hz as [<-|Hz]; [lia|now apply Hy].
      * now apply IH.
Qed.

Lemma sort_desc_desc l : desc (sort_desc l).
Proof.
  induction l as [|x l IH]; cbn [sort_desc]; [exact I|].
  now apply insert_desc_desc.
Qed.

(** A descending list is already sorted. *)
Lemma insert_desc_head x l :
  (forall y, In y l -> y <= x) -> insert_desc x l = x :: l.
Proof.
  destruct l as [|y l]; intros H; cbn [insert_desc]; [reflexivity|].
  destruct (Z.leb_spec y x) as [_|Hlt]; [reflexivity|].
  specialize (H y (or_introl eq_refl)). lia.
Qed.

Lemma sort_desc_id l : desc l -> sort_desc l = l.
Proof.
  induction l as [|x l IH]; [reflexivity|].
  intros [Hx Hl]. cbn [sort_desc]. rewrite (IH Hl).
  now apply insert_desc_head.
Qed.

Lemma insert_desc_comm x y l :
  insert_desc x (insert_desc y l) = insert_desc y (insert_desc x l).
Proof.
  induction l as [|z l IH]; cbn [insert_desc].
  - destruct (Z.leb_spec y x), (Z.leb_spec x y); try reflexivity; try lia.
    f_equal; f_equal; lia.
  - destruct (Z.leb_spec z y), (Z.leb_spec z x); cbn [insert_desc];
      repeat match goal with
             | |- context [?a <=? ?b] => destruct (Z.leb_spec a b)
             end; try reflexivity; try lia.
    + assert (x = y) by lia. subst. reflexivity.
    + now rewrite IH.
Qed.

(** The sorted array depends on the completions only up to their order. *)
Lemma sort_desc_Permutation l l' :
  Permutation l l' -> sort_desc l = sort_desc l'.
Proof.
  induction 1; cbn [sort_desc].
  - reflexivity.
  - now f_equal.
  - apply insert_desc_comm.
  - congruence.
Qed.

Lemma sort_desc_map_mono (f : Z -> Z) l :
  (forall a b, a <= b -> f a <= f b) ->
  (forall a b, f a <= f b -> a <= b) ->
  sort_desc (map f l) = map f (sort_desc l).
Proof.
  intros Hmono Hrefl.
  assert (Hins : forall x s, insert_desc (f x) (map f s) = map f (insert_desc x s)).
  { intros x s. induction s as [|y s IH]; cbn [insert_desc map]; [reflexivity|].
    destruct (Z.leb_spec (f y) (f x)) as [H|H], (Z.leb_spec y x) as [H'|H'];
      cbn [map]; try reflexivity.
    - apply Hrefl in H. lia.
    - apply Hmono in H'. lia.
    - now rewrite IH. }
  induction l as [|x l IH]; cbn [sort_desc map]; [reflexivity|].
  now rewrite IH, Hins.
Qed.

End SortFacts.

(* ------------------------------------------------------------------ *)
(** ** The streak loop, day by day *)

Module StreakFacts.
Import JsDate JsDateFacts Dashboard SortFacts.

Lemma run_length_from_unique ds t n m :
  run_length_from ds t n -> run_length_from ds t m -> n = m.
Proof.
  intros [Hn Hn'] [Hm Hm'].
  destruct (Nat.lt_trichotomy n m) as [H|[H|H]]; [|exact H|].
  - exfalso. apply Hn'. now apply Hm.
  - exfalso. apply Hm'. now apply Hn.
Qed.

(** The sorted array of [getStreak], in day numbers. *)
Lemma sorted_completions h :
  sort_desc (map (fun c => parseDate (completion_date c)) (habit_completions h))
  = map parseDate (sort_desc (dates h)).
Proof.
  unfold dates. rewrite <- sort_desc_map_mono.
  - now rewrite map_map.
  - intros a b H. unfold parseDate, MS_PER_DAY. lia.
  - intros a b H. unfold parseDate, MS_PER_DAY in H. lia.
Qed.

(** The loop never counts more than one day per completion: in any zone. *)
Lemma streak_loop_daily_bounds tz all l s cur :
  s <= streak_loop tz daily all l s cur <= s + Z.of_nat (List.length l).
Proof.
  revert s cur. induction l as [|c l IH]; intros s cur; cbn [streak_loop List.length].
  - lia.
  - rewrite Nat2Z.inj_succ.
    repeat match goal with
           | |- context [if ?b then _ else _] => destruct b
           end;
      try lia;
      match goal with
      | |- context [streak_loop tz daily all l ?s' ?c'] =>
          specialize (IH s' c'); lia
      end.
Qed.

Section East.
Variable tz : Z.
Hypothesis Htz : 0 <= tz < MS_PER_DAY.

(** One iteration on day numbers: [c] is the day of [currentDate]. *)
Lemma streak_loop_daily_step all d rest s c :
  streak_loop tz daily all (parseDate d :: rest) s (c * MS_PER_DAY - tz) =
  if d =? c then streak_loop tz daily all rest (s + 1) ((c - 1) * MS_PER_DAY - tz)
  else if d =? c + 1 then
    if s =? 0 then streak_loop tz daily all rest s ((c - 1) * MS_PER_DAY - tz)
    else streak_loop tz daily all rest s (c * MS_PER_DAY - tz)
  else s.
Proof.
  cbn [streak_loop]. rewrite (setHours0_parseDate_east tz d Htz).
  unfold addDays, MS_PER_DAY.
  destruct (Z.eqb_spec d c) as [->|Hdc].
  - rewrite Z.eqb_refl. f_equal. lia.
  - destruct (Z.eqb_spec (d * 86400000 - tz) (c * 86400000 - tz)) as [H|_]; [lia|].
    destruct (Z.eqb_spec d (c + 1)) as [->|Hdc1].
    + destruct (Z.eqb_spec ((c + 1) * 86400000 - tz) (c * 86400000 - tz + 86400000))
        as [_|H]; [|lia].
      destruct (s =? 0); [|reflexivity].
      destruct (Z.eqb_spec ((c + 1) * 86400000 - tz) (c * 86400000 - tz + -1 * 86400000))
        as [H|_]; [lia|].
      f_equal. lia.
    + destruct (Z.eqb_spec (d * 86400000 - tz) (c * 86400000 - tz + 86400000))
        as [H|_]; [lia|reflexivity].
Qed.

(** Nothing on day [c] or later: the first iteration breaks. *)
Lemma streak_loop_daily_none all ds s c :
  desc ds -> (forall d, In d ds -> d < c) ->
  streak_loop tz daily all (map parseDate ds) s (c * MS_PER_DAY - tz) = s.
Proof.
  destruct ds as [|d rest]; intros _ Hlt; [reflexivity|].
  cbn [map]. rewrite streak_loop_daily_step.
  specialize (Hlt d (or_introl eq_refl)).
  destruct (Z.eqb_spec d c); [lia|].
  destruct (Z.eqb_spec d (c + 1)); [lia|reflexivity].
Qed.

(** The loop's invariant: with the descending days [ds] still to read, none
    after day [c + 1], and none after [c] while nothing is counted yet, the
    loop adds to [streak] the length of the run that ends on day [c]. *)
Lemma streak_loop_daily_run all ds :
  desc ds ->
  forall s c,
    0 <= s ->
    (forall d, In d ds -> d <= c + 1) ->
    (s = 0 -> forall d, In d ds -> d <= c) ->
    exists n : nat,
      streak_loop tz daily all (map parseDate ds) s (c * MS_PER_DAY - tz)
        = s + Z.of_nat n /\
      run_length_from ds c n.
Proof.
  induction ds as [|d rest IH]; intros Hdesc s c Hs Hub Hub0.
  - exists 0%nat. cbn. split; [lia|]. split; [intros k Hk; lia|intros []].
  - destruct Hdesc as [Hd Hrest]. cbn [map]. rewrite streak_loop_daily_step.
    destruct (Z.eqb_spec d c) as [->|Hdc].
    + destruct (IH Hrest (s + 1) (c - 1)) as (n & Hn & Hrun & Hstop).
      * lia.
      * intros d Hin. specialize (Hd d Hin). lia.
      * intros Hs0. lia.
      * exists (S n). split; [rewrite Hn; lia|]. split.
        -- intros k Hk. destruct k as [|k].
           ++ left. cbn. lia.
           ++ right. replace (c - Z.of_nat (S k)) with (c - 1 - Z.of_nat k) by lia.
              apply Hrun. lia.
        -- intros [Heq|Hin]; [lia|]. apply Hstop.
           now replace (c - 1 - Z.of_nat n) with (c - Z.of_nat (S n)) by lia.
    + destruct (Z.eqb_spec d (c + 1)) as [->|Hdc1].
      * destruct (Z.eqb_spec s 0) as [Hs0|Hs0].
        { specialize (Hub0 Hs0 (c + 1) (or_introl eq_refl)). lia. }
        destruct (IH Hrest s c) as (n & Hn & Hrun & Hstop).
        -- exact Hs.
        -- intros d Hin. now apply Hd.
        -- intros Hs0'. contradiction.
        -- exists n. split; [exact Hn|]. split.
           ++ intros k Hk. right. now apply Hrun.
           ++ intros [Heq|Hin]; [lia|now apply Hstop].
      * exists 0%nat. split; [lia|]. split; [intros k Hk; lia|].
        cbn. rewrite Z.sub_0_r.
        specialize (Hub d (or_introl eq_refl)).
        intros [Heq|Hin]; [lia|]. specialize (Hd c Hin). lia.
Qed.

End East.

(** [getStreak] read on day numbers, for a habit that has completions. *)
Lemma getStreak_days tz h now :
  0 <= tz < MS_PER_DAY ->
  habit_completions h <> [] ->
  getStreak tz h now =
  streak_loop tz (frequency h)
    (map parseDate (sort_desc (dates h))) (map parseDate (sort_desc (dates h)))
    0 (localDay tz now * MS_PER_DAY - tz).
Proof.
  intros Htz Hne. unfold getStreak.
  destruct (habit_completions h) as [|c cs] eqn:E; [contradiction|].
  cbn [List.length Nat.eqb]. rewrite <- E, sorted_completions. reflexivity.
Qed.

Lemma In_dates h d :
  In d (dates h) <-> exists c, In c (habit_completions h) /\ completion_date c = d.
Proof.
  unfold dates. rewrite in_map_iff. split; intros (c & H1 & H2); exists c; tauto.
Qed.

(** No completion dated today or later: the streak is 0, whatever the days
    before today hold. *)
Lemma getStreak_none_today tz h now :
  0 <= tz < MS_PER_DAY ->
  frequency h = daily ->
  (forall d, In d (dates h) -> d < localDay tz now) ->
  getStreak tz h now = 0.
Proof.
  intros Htz Hf Hlt.
  destruct (habit_completions h) as [|c cs] eqn:E.
  - unfold getStreak. now rewrite E.
  - rewrite getStreak_days by (auto; congruence). rewrite Hf.
    apply streak_loop_daily_none; [exact Htz|apply sort_desc_desc|].
    intros d Hd. apply Hlt. exact (proj1 (sort_desc_In d _) Hd).
Qed.

(** Completions up to today only: the streak is the run that ends today. *)
Lemma getStreak_run tz h now :
  0 <= tz < MS_PER_DAY ->
  frequency h = daily ->
  (forall d, In d (dates h) -> d <= localDay tz now) ->
  exists n : nat,
    getStreak tz h now = Z.of_nat n /\
    run_length_from (dates h) (localDay tz now) n.
Proof.
  intros Htz Hf Hle.
  destruct (habit_completions h) as [|c cs] eqn:E.
  - exists 0%nat. unfold getStreak, dates. rewrite E. cbn.
    split; [reflexivity|]. split; [intros k Hk; lia|intros []].
  - rewrite getStreak_days by (auto; congruence). rewrite Hf.
    destruct (streak_loop_daily_run tz Htz
                (map parseDate (sort_desc (dates h))) (sort_desc (dates h))
                (sort_desc_desc _) 0 (localDay tz now))
      as (n & Hn & Hrun & Hstop).
    + lia.
    + intros d Hd. apply (proj1 (sort_desc_In d _)) in Hd.
      specialize (Hle d Hd). lia.
    + intros _ d Hd. apply Hle. exact (proj1 (sort_desc_In d _) Hd).
    + exists n. split; [rewrite Hn; lia|]. split.
      * intros k Hk. exact (proj1 (sort_desc_In _ _) (Hrun k Hk)).
      * intros Hin. apply Hstop. exact (proj2 (sort_desc_In _ _) Hin).
Qed.

(** ... so it is any run length read off the completions. *)
Lemma getStreak_of_run tz h now n :
  0 <= tz < MS_PER_DAY ->
  frequency h = daily ->
  (forall d, In d (dates h) -> d <= localDay tz now) ->
  run_length_from (dates h) (localDay tz now) n ->
  getStreak tz h now = Z.of_nat n.
Proof.
  intros Htz Hf Hle Hrun.
  destruct (getStreak_run tz h now Htz Hf Hle) as (m & -> & Hm).
  f_equal. eapply run_length_from_unique; eassumption.
Qed.

Lemma run_length_from_Permutation ds ds' t n :
  Permutation ds ds' -> run_length_from ds t n -> run_length_from ds' t n.
Proof.
  intros Hp [Hrun Hstop]. split.
  - intros k Hk. eapply Permutation_in; [exact Hp|now apply Hrun].
  - intros Hin. apply Hstop. eapply Permutation_in; [apply Permutation_sym, Hp|exact Hin].
Qed.

End StreakFacts.

(* ------------------------------------------------------------------ *)
(** ** Facts about binary64 rounding *)

Module F64Facts.
Import F64.

Lemma one_pos : 0 < one.
Proof. unfold one, unit_exp. apply Z.pow_pos_nonneg; lia. Qed.

(** *** Rounding to the nearest integer *)

Lemma rne_cases a b :
  0 < b -> (rne a b = a / b /\ 2 * (a mod b) <= b) \/
           (rne a b = a / b + 1 /\ b <= 2 * (a mod b)).
Proof.
  intros Hb. unfold rne.
  destruct (Z.ltb_spec (2 * (a mod b)) b); [left; lia|].
  destruct (Z.ltb_spec b (2 * (a mod b))); [right; lia|].
  destruct (Z.even (a / b)); [left|right]; lia.
Qed.

(** The result is within half a unit of [a / b]. *)
Lemma rne_error a b : 0 < b -> - b <= 2 * (rne a b * b - a) <= b.
Proof.
  intros Hb. pose proof (Z.div_mod a b ltac:(lia)) as E.
  pose proof (Z.mod_pos_bound a b Hb) as Hr.
  destruct (rne_cases a b Hb) as [[-> H]|[-> H]]; nia.
Qed.

Lemma rne_exact k b : 0 < b -> rne (k * b) b = k.
Proof.
  intros Hb. unfold rne.
  rewrite Z.div_mul, Z.mod_mul by lia.
  destruct (Z.ltb_spec (2 * 0) b); [reflexivity|lia].
Qed.

Lemma rne_mono a a' b : 0 < b -> a <= a' -> rne a b <= rne a' b.
Proof.
  intros Hb Hle.
  pose proof (Z.div_le_mono a a' b Hb Hle) as Hq.
  pose proof (Z.div_mod a b ltac:(lia)) as E.
  pose proof (Z.div_mod a' b ltac:(lia)) as E'.
  pose proof (Z.mod_pos_bound a b Hb) as Hr.
  pose proof (Z.mod_pos_bound a' b Hb) as Hr'.
  destruct (Z.eq_dec (a / b) (a' / b)) as [Heq|Hne].
  - assert (Hrr : a mod b <= a' mod b) by (rewrite Heq in E; nia).
    unfold rne. rewrite Heq.
    destruct (Z.ltb_spec (2 * (a mod b)) b), (Z.ltb_spec (2 * (a' mod b)) b);
      try lia;
      destruct (Z.ltb_spec b (2 * (a mod b))), (Z.ltb_spec b (2 * (a' mod b)));
      try lia;
      destruct (Z.even (a' / b)); lia.
  - destruct (rne_cases a b Hb) as [[-> _]|[-> _]],
             (rne_cases a' b Hb) as [[-> _]|[-> _]]; lia.
Qed.

Lemma rne_ge k a b : 0 < b -> k * b <= a -> k <= rne a b.
Proof.
  intros Hb H. rewrite <- (rne_exact k b Hb). now apply rne_mono.
Qed.

Lemma rne_le k a b : 0 < b -> a <= k * b -> rne a b <= k.
Proof.
  intros Hb H. rewrite <- (rne_exact k b Hb). now apply rne_mono.
Qed.

(** *** The number of dropped bits *)

Lemma drop_nonneg a b : 0 <= drop a b.
Proof. unfold drop. lia. Qed.

Lemma drop_mono a a' b : 0 < b -> a <= a' -> drop a b <= drop a' b.
Proof.
  intros Hb Hle. unfold drop.
  pose proof (Z.log2_le_mono _ _ (Z.div_le_mono a a' b Hb Hle)). lia.
Qed.

(** [a / b] is below [2^(drop + 53)] ... *)
Lemma drop_upper a b : 0 <= a -> 0 < b -> a < b * 2 ^ (drop a b + 53).
Proof.
  intros Ha Hb.
  assert (Hq : a / b < 2 ^ (drop a b + 53)).
  { destruct (Z.eq_dec (a / b) 0) as [E|E].
    - rewrite E. apply Z.pow_pos_nonneg; [lia|]. pose proof (drop_nonneg a b). lia.
    - assert (0 < a / b) by (pose proof (Z.div_pos a b Ha Hb); lia).
      pose proof (Z.log2_spec (a / b) H) as [_ Hu].
      eapply Z.lt_le_trans; [exact Hu|].
      apply Z.pow_le_mono_r; [lia|]. unfold drop. lia. }
  pose proof (Z.div_mod a b ltac:(lia)) as E.
  pose proof (Z.mod_pos_bound a b Hb) as Hr. nia.
Qed.

(** ... and, when bits are dropped, at least [2^(drop + 52)]. *)
Lemma drop_lower a b :
  0 <= a -> 0 < b -> 0 < drop a b -> b * 2 ^ (drop a b + 52) <= a.
Proof.
  intros Ha Hb Ht.
  assert (Hlog : Z.log2 (a / b) = drop a b + 52) by (unfold drop in *; lia).
  assert (Hpos : 0 < a / b).
  { destruct (Z.eq_dec (a / b) 0) as [E|E].
    - rewrite E in Hlog. cbn in Hlog. lia.
    - pose proof (Z.div_pos a b Ha Hb). lia. }
  pose proof (Z.log2_spec (a / b) Hpos) as [Hl _]. rewrite Hlog in Hl.
  pose proof (Z.div_mod a b ltac:(lia)) as E.
  pose proof (Z.mod_pos_bound a b Hb) as Hr. nia.
Qed.

(** *** Rounding to a double *)

Lemma round_pos_0 b : 0 < b -> round_pos 0 b = 0.
Proof.
  intros Hb. unfold round_pos, drop. rewrite Z.div_0_l by lia. cbn [Z.log2].
  change (Z.max 0 (0 + 1 - 53)) with 0. rewrite Z.pow_0_r, Z.mul_1_r.
  rewrite Z.mul_1_r. change 0 with (0 * b) at 1. now apply rne_exact.
Qed.

Lemma round_pos_nonneg a b : 0 <= a -> 0 < b -> 0 <= round_pos a b.
Proof.
  intros Ha Hb. unfold round_pos.
  assert (Hp : 0 < 2 ^ drop a b) by (apply Z.pow_pos_nonneg; [lia|apply drop_nonneg]).
  apply Z.mul_nonneg_nonneg; [|lia].
  apply rne_ge; [nia|lia].
Qed.

Lemma round_pos_mono a a' b :
  0 <= a -> 0 < b -> a <= a' -> round_pos a b <= round_pos a' b.
Proof.
  intros Ha Hb Hle. unfold round_pos.
  pose proof (drop_mono a a' b Hb Hle) as Ht.
  pose proof (drop_nonneg a b) as Ht0.
  set (t := drop a b) in *. set (t' := drop a' b) in *.
  assert (Hp : 0 < 2 ^ t) by (apply Z.pow_pos_nonneg; lia).
  assert (Hp' : 0 < 2 ^ t') by (apply Z.pow_pos_nonneg; lia).
  destruct (Z.eq_dec t t') as [<-|Hne].
  - apply Z.mul_le_mono_nonneg_r; [lia|]. apply rne_mono; [nia|exact Hle].
  - assert (Hlt : t + 1 <= t') by lia.
    pose proof (drop_upper a b Ha Hb) as Hu. fold t in Hu.
    pose proof (drop_lower a' b ltac:(lia) Hb ltac:(fold t'; lia)) as Hl. fold t' in Hl.
    rewrite Z.pow_add_r in Hu, Hl by lia.
    assert (H1 : rne a (b * 2 ^ t) <= 2 ^ 53).
    { apply rne_le; [nia|]. nia. }
    assert (H2 : 2 ^ 52 <= rne a' (b * 2 ^ t')).
    { apply rne_ge; [nia|]. nia. }
    assert (H3 : 2 ^ t * 2 <= 2 ^ t').
    { replace t' with (t + 1 + (t' - (t + 1))) by lia.
      rewrite !Z.pow_add_r by lia.
      assert (0 < 2 ^ (t' - (t + 1))) by (apply Z.pow_pos_nonneg; lia).
      change (2 ^ 1) with 2. nia. }
    change (2 ^ 53) with (2 * 2 ^ 52) in H1.
    assert (0 < 2 ^ 52) by reflexivity.
    transitivity (2 * 2 ^ 52 * 2 ^ t); [nia|].
    transitivity (2 ^ 52 * 2 ^ t'); nia.
Qed.

(** A value with at most 53 significant bits is returned unchanged. *)
Lemma round_pos_exact v b :
  0 <= v -> 0 < b -> (2 ^ drop v 1 | v) -> round_pos (v * b) b = v.
Proof.
  intros Hv Hb [k Hk]. unfold round_pos.
  assert (Hd : drop (v * b) b = drop v 1).
  { unfold drop. now rewrite Z.div_mul, Z.div_1_r by lia. }
  rewrite Hd. set (t := drop v 1) in *.
  assert (Hp : 0 < 2 ^ t) by (apply Z.pow_pos_nonneg; [lia|apply drop_nonneg]).
  rewrite Hk at 1.
  replace (k * 2 ^ t * b) with (k * (b * 2 ^ t)) by lia.
  rewrite rne_exact by nia. lia.
Qed.

(** In the normal range the relative error is at most [2^-53]. *)
Lemma round_pos_error a b :
  0 < b -> b * 2 ^ 52 <= a ->
  - a <= 2 ^ 53 * (round_pos a b * b - a) <= a.
Proof.
  intros Hb Hnorm.
  assert (H52 : 0 < 2 ^ 52) by reflexivity.
  assert (Ha : 0 <= a) by nia.
  unfold round_pos.
  pose proof (drop_nonneg a b) as Ht0.
  assert (Hbt : b * 2 ^ (drop a b) * 2 ^ 52 <= a).
  { destruct (Z.eq_dec (drop a b) 0) as [E|E].
    - rewrite E, Z.pow_0_r. lia.
    - pose proof (drop_lower a b Ha Hb ltac:(lia)) as Hl.
      rewrite Z.pow_add_r in Hl by lia. lia. }
  set (t := drop a b) in *.
  assert (Hp : 0 < 2 ^ t) by (apply Z.pow_pos_nonneg; lia).
  pose proof (rne_error a (b * 2 ^ t) ltac:(nia)) as He.
  change (2 ^ 53) with (2 * 2 ^ 52).
  set (m := rne a (b * 2 ^ t)) in *. set (p := 2 ^ t) in *. set (q := 2 ^ 52) in *.
  replace (m * p * b) with (m * (b * p)) by lia.
  nia.
Qed.

End F64Facts.

(* ------------------------------------------------------------------ *)
(** ** The completion rate, operation by operation *)

Module RateFacts.
Import F64 F64Facts.

Lemma one_large : 2 ^ 200 <= one.
Proof. unfold one, unit_exp. apply Z.pow_le_mono_r; lia. Qed.

Lemma round_nonneg a b : 0 <= a -> round a b = round_pos a b.
Proof. intros H. unfold round. destruct (Z.ltb_spec a 0); [lia|reflexivity]. Qed.

Lemma div_of_int c e :
  0 <= c -> 0 < e ->
  div (of_int c) (of_int e) = round_pos (c * one * one) (e * one).
Proof.
  intros Hc He. pose proof one_pos. unfold div, of_int.
  destruct (Z.ltb_spec (e * one) 0); [nia|].
  apply round_nonneg. nia.
Qed.

Lemma mul_of_int x k :
  0 <= x -> 0 <= k -> mul x (of_int k) = round_pos (x * (k * one)) one.
Proof.
  intros Hx Hk. pose proof one_pos. unfold mul, of_int. apply round_nonneg. nia.
Qed.

Lemma div_of_int_nonneg c e : 0 <= c -> 0 < e -> 0 <= div (of_int c) (of_int e).
Proof.
  intros Hc He. pose proof one_pos. rewrite div_of_int by assumption.
  apply round_pos_nonneg; nia.
Qed.

Lemma round_half_up_mono x y : x <= y -> round_half_up x <= round_half_up y.
Proof.
  intros H. pose proof one_pos. unfold round_half_up.
  apply Z.div_le_mono; lia.
Qed.

Lemma round_half_up_of_int k : round_half_up (of_int k) = k.
Proof.
  pose proof one_pos. unfold round_half_up, of_int.
  symmetry. apply (Z.div_unique _ _ k one); lia.
Qed.

(** Integers below [2^53] are doubles. *)
Lemma of_int_representable z :
  0 <= z < 2 ^ 53 -> (2 ^ drop (of_int z) 1 | of_int z).
Proof.
  intros Hz. unfold of_int.
  destruct (Z.eq_dec z 0) as [->|Hz0]; [exists 0; lia|].
  assert (Hlog : Z.log2 (z * one) = Z.log2 z + unit_exp).
  { unfold one. rewrite Z.log2_mul_pow2 by (unfold unit_exp; lia). lia. }
  assert (Hl : Z.log2 z < 53) by (apply Z.log2_lt_pow2; lia).
  pose proof (Z.log2_nonneg z) as Hl0.
  unfold drop. rewrite Z.div_1_r, Hlog.
  set (t := Z.max 0 (Z.log2 z + unit_exp + 1 - 53)).
  assert (Ht : 0 <= t <= unit_exp) by (unfold t, unit_exp; lia).
  exists (z * 2 ^ (unit_exp - t)). unfold one.
  rewrite <- Z.mul_assoc, <- Z.pow_add_r by lia.
  do 2 f_equal. lia.
Qed.

Lemma round_pos_of_int z b :
  0 <= z < 2 ^ 53 -> 0 < b -> round_pos (of_int z * b) b = of_int z.
Proof.
  intros Hz Hb. pose proof one_pos.
  apply round_pos_exact; [unfold of_int; nia|exact Hb|].
  now apply of_int_representable.
Qed.

(** [a - b] is exact while the difference is below [2^53]. *)
Lemma sub_of_int a b :
  0 <= a - b < 2 ^ 53 -> sub (of_int a) (of_int b) = of_int (a - b).
Proof.
  intros H. pose proof one_pos. unfold sub.
  replace (of_int a - of_int b) with (of_int (a - b) * 1) by (unfold of_int; lia).
  rewrite round_nonneg by (unfold of_int; nia).
  now apply round_pos_of_int.
Qed.

(** A quotient of integers that is an integer is exact. *)
Lemma div_of_int_exact k e :
  0 <= k < 2 ^ 53 -> 0 < e -> div (of_int (k * e)) (of_int e) = of_int k.
Proof.
  intros Hk He. pose proof one_pos.
  rewrite div_of_int by nia.
  replace (k * e * one * one) with (of_int k * (e * one)) by (unfold of_int; lia).
  apply round_pos_of_int; [exact Hk|nia].
Qed.

Lemma div_of_int_mono c c' e :
  0 <= c -> c <= c' -> 0 < e ->
  div (of_int c) (of_int e) <= div (of_int c') (of_int e).
Proof.
  intros Hc Hle He. pose proof one_pos.
  rewrite !div_of_int by lia. apply round_pos_mono; [nia|nia|].
  apply Z.mul_le_mono_nonneg_r; [lia|]. apply Z.mul_le_mono_nonneg_r; lia.
Qed.

Lemma mul_of_int_mono x y k :
  0 <= x -> x <= y -> 0 <= k -> mul x (of_int k) <= mul y (of_int k).
Proof.
  intros Hx Hle Hk. pose proof one_pos.
  assert (0 <= k * one) by nia.
  rewrite !mul_of_int by lia. apply round_pos_mono; [nia|lia|].
  now apply Z.mul_le_mono_nonneg_r.
Qed.

Lemma mul_of_int_exact a k :
  0 <= a -> 0 <= k -> 0 <= a * k < 2 ^ 53 ->
  mul (of_int a) (of_int k) = of_int (a * k).
Proof.
  intros Ha Hk Hak. pose proof one_pos.
  rewrite mul_of_int by (unfold of_int; nia).
  replace (of_int a * (k * one)) with (of_int (a * k) * one) by (unfold of_int; lia).
  now apply round_pos_of_int.
Qed.

(** *** Range, monotonicity and the two ends of the scale *)

Lemma rate_core_range c e : 0 <= c -> 0 < e -> 0 <= rate_core c e <= 100.
Proof.
  intros Hc He. unfold rate_core. split; [|apply Z.le_min_l].
  apply Z.min_glb; [lia|].
  pose proof (round_half_up_of_int 0) as H0. rewrite <- H0 at 1.
  apply round_half_up_mono. change (of_int 0) with 0.
  pose proof (div_of_int_nonneg c e Hc He) as Hq. pose proof one_pos.
  rewrite mul_of_int by lia. apply round_pos_nonneg; nia.
Qed.

Lemma rate_core_mono c c' e :
  0 <= c -> c <= c' -> 0 < e -> rate_core c e <= rate_core c' e.
Proof.
  intros Hc Hle He. unfold rate_core.
  apply Z.min_le_compat_l, round_half_up_mono.
  apply mul_of_int_mono; [now apply div_of_int_nonneg| |lia].
  now apply div_of_int_mono.
Qed.

Lemma rate_core_0 e : 0 < e -> rate_core 0 e = 0.
Proof.
  intros He. pose proof one_pos. unfold rate_core.
  rewrite div_of_int by lia.
  replace (0 * one * one) with 0 by lia.
  rewrite round_pos_0 by nia.
  rewrite mul_of_int by lia. replace (0 * (100 * one)) with 0 by lia.
  rewrite round_pos_0 by lia.
  reflexivity.
Qed.

(** At least as many completions as expected: the cap applies. *)
Lemma rate_core_full c e : 0 < e -> e <= c -> rate_core c e = 100.
Proof.
  intros He Hle. unfold rate_core. apply Z.min_l.
  pose proof (round_half_up_of_int 100) as H100.
  pose proof (mul_of_int_exact 1 100 ltac:(lia) ltac:(lia) ltac:(cbn; lia)) as Hm.
  change (1 * 100) with 100 in Hm.
  rewrite <- H100 at 1. apply round_half_up_mono.
  apply Z.le_trans with (mul (of_int 1) (of_int 100)); [rewrite Hm; lia|].
  apply mul_of_int_mono; [unfold of_int; pose proof one_pos; lia| |lia].
  apply Z.le_trans with (div (of_int (1 * e)) (of_int e)).
  - rewrite (div_of_int_exact 1 e ltac:(cbn; lia) He). lia.
  - apply div_of_int_mono; lia.
Qed.

(** *** Where the ceiling of a quotient is exact *)

Lemma ceil_div_bounds z d :
  0 < d -> (ceil_div z d - 1) * d < z <= ceil_div z d * d.
Proof.
  intros Hd. unfold ceil_div.
  pose proof (Z.div_mod (- z) d ltac:(lia)) as E.
  pose proof (Z.mod_pos_bound (- z) d Hd) as Hr. nia.
Qed.

Lemma ceil_of_int_within x k :
  (k - 1) * one < x <= k * one -> ceil x = k.
Proof.
  intros H. pose proof one_pos. unfold ceil.
  enough ((- x) / one = - k) by lia.
  symmetry. apply (Z.div_unique _ _ _ (k * one - x)); lia.
Qed.

(** [Math.ceil(z / d)] on doubles is the exact ceiling while [z] and [d]
    are below [2^53]. *)
Lemma ceil_div_of_int z d :
  0 <= z < 2 ^ 53 -> 0 < d < 2 ^ 53 ->
  ceil (div (of_int z) (of_int d)) = ceil_div z d.
Proof.
  intros Hz Hd. pose proof one_pos as Ho. pose proof one_large as HO.
  pose proof (ceil_div_bounds z d ltac:(lia)) as Hk.
  set (k := ceil_div z d) in *.
  destruct (Z.eq_dec z 0) as [->|Hz0].
  - assert (k = 0) by (unfold k, ceil_div; now rewrite Z.div_0_l by lia).
    pose proof (div_of_int_exact 0 d ltac:(lia) ltac:(lia)) as E.
    rewrite Z.mul_0_l in E. rewrite E. change (of_int 0) with 0.
    apply ceil_of_int_within. lia.
  - assert (Hk1 : 1 <= k <= z) by nia.
    apply ceil_of_int_within. split.
    + (* the rounded quotient stays above [k - 1] *)
      rewrite div_of_int by lia.
      assert (Hnorm : d * one * 2 ^ 52 <= z * one * one).
      { assert (d * 2 ^ 52 <= one).
        { transitivity (2 ^ 53 * 2 ^ 52); [nia|].
          etransitivity; [|exact HO]. now vm_compute. }
        nia. }
      pose proof (round_pos_error (z * one * one) (d * one) ltac:(nia) Hnorm) as [El _].
      set (Q := round_pos (z * one * one) (d * one)) in *.
      destruct (Z.lt_ge_cases ((k - 1) * one) Q) as [Hgt|Hle]; [exact Hgt|exfalso].
      assert (H1 : Q * (d * one) <= (z - 1) * one * one).
      { transitivity ((k - 1) * one * (d * one)); [nia|].
        replace ((k - 1) * one * (d * one)) with ((k - 1) * d * (one * one)) by lia.
        replace ((z - 1) * one * one) with ((z - 1) * (one * one)) by lia.
        apply Z.mul_le_mono_nonneg_r; nia. }
      assert (H2 : 2 ^ 53 * (Q * (d * one) - z * one * one) <= - (2 ^ 53 * (one * one))).
      { nia. }
      assert (H3 : 2 ^ 53 * (one * one) <= z * (one * one)) by lia.
      assert (0 < one * one) by nia.
      nia.
    + (* and does not exceed [k] *)
      change (k * one) with (of_int k).
      rewrite <- (div_of_int_exact k d) by lia.
      apply div_of_int_mono; lia.
Qed.

(** *** The distance between the code's product and [100 * c / e] *)

Lemma rate_error c e :
  0 < c < e -> e < 2 ^ 43 ->
  - one < 2 * (mul (div (of_int c) (of_int e)) (of_int 100) * e - 100 * c * one) < one.
Proof.
  intros Hc He. pose proof one_pos as Ho. pose proof one_large as HO.
  assert (H200 : 2 ^ 43 * 2 ^ 53 * 2 ^ 53 <= one).
  { etransitivity; [|exact HO]. now vm_compute. }
  assert (Hx1 : 0 <= div (of_int c) (of_int e)) by (apply div_of_int_nonneg; lia).
  rewrite mul_of_int by lia.
  revert Hx1. rewrite div_of_int by lia. intros Hx1.
  assert (Hnorm1 : e * one * 2 ^ 52 <= c * one * one).
  { assert (e * 2 ^ 52 <= one) by nia. nia. }
  pose proof (round_pos_error (c * one * one) (e * one) ltac:(nia) Hnorm1) as E1.
  set (X1 := round_pos (c * one * one) (e * one)) in *.
  assert (E1' : - (c * one) <= 2 ^ 53 * (X1 * e - c * one) <= c * one).
  { replace (X1 * (e * one) - c * one * one) with ((X1 * e - c * one) * one) in E1 by lia.
    split.
    - apply (Z.mul_le_mono_pos_r _ _ one Ho). lia.
    - apply (Z.mul_le_mono_pos_r _ _ one Ho). lia. }
  assert (Hbig : 2 ^ 52 <= X1).
  { destruct (Z.le_gt_cases (2 ^ 52) X1) as [H|H]; [exact H|exfalso].
    assert (2 ^ 53 * (X1 * e) < 2 ^ 43 * 2 ^ 53 * 2 ^ 53).
    { assert (X1 * e < 2 ^ 52 * 2 ^ 43) by nia. lia. }
    assert (one <= c * one) by nia.
    lia. }
  assert (Hnorm2 : one * 2 ^ 52 <= X1 * (100 * one)) by nia.
  pose proof (round_pos_error (X1 * (100 * one)) one Ho Hnorm2) as E2.
  set (X2 := round_pos (X1 * (100 * one)) one) in *.
  assert (E2' : - (100 * X1) <= 2 ^ 53 * (X2 - 100 * X1) <= 100 * X1).
  { replace (X2 * one - X1 * (100 * one)) with ((X2 - 100 * X1) * one) in E2 by lia.
    split.
    - apply (Z.mul_le_mono_pos_r _ _ one Ho). lia.
    - apply (Z.mul_le_mono_pos_r _ _ one Ho). lia. }
  assert (Hx1e : 2 ^ 53 * (X1 * e) <= 2 ^ 53 * (2 * (c * one))).
  { assert (0 <= c * one) by nia. lia. }
  assert (Hx1e' : X1 * e <= 2 * (c * one)) by lia.
  assert (Hsum : - (300 * (c * one)) <= 2 ^ 53 * (X2 * e - 100 * c * one)
                 <= 300 * (c * one)).
  { replace (2 ^ 53 * (X2 * e - 100 * c * one))
      with (2 ^ 53 * (X2 - 100 * X1) * e + 100 * (2 ^ 53 * (X1 * e - c * one))) by lia.
    assert (- (100 * X1 * e) <= 2 ^ 53 * (X2 - 100 * X1) * e <= 100 * X1 * e) by nia.
    lia. }
  assert (Hc43 : 600 * c < 2 ^ 53) by lia.
  assert (600 * (c * one) < 2 ^ 53 * one) by nia.
  lia.
Qed.

(** *** The code's rounding against the formula's *)

Lemma round_half_up_near x c e :
  0 < e ->
  - one < 2 * (x * e - 100 * c * one) < one ->
  (~ is_tie c e -> round_half_up x = round_nearest (100 * c) e) /\
  (is_tie c e -> round_half_up x = round_nearest (100 * c) e \/
                 round_half_up x = round_nearest (100 * c) e - 1).
Proof.
  intros He Hd. pose proof one_pos as Ho.
  unfold is_tie, round_nearest, round_half_up.
  replace (2 * (100 * c) + e) with (200 * c + e) by lia.
  pose proof (Z.div_mod (200 * c + e) (2 * e) ltac:(lia)) as E.
  pose proof (Z.mod_pos_bound (200 * c + e) (2 * e) ltac:(lia)) as Hr.
  set (k := (200 * c + e) / (2 * e)) in *.
  set (r := (200 * c + e) mod (2 * e)) in *.
  set (d := x * e - 100 * c * one) in *.
  assert (Hrem : e * (2 * x + one - 2 * one * k) = 2 * d + one * r).
  { unfold d. nia. }
  set (r' := 2 * x + one - 2 * one * k) in *.
  split.
  - intros Hnt. assert (1 <= r <= 2 * e - 1) by lia.
    symmetry. apply (Z.div_unique _ _ _ r'); [|unfold r'; lia].
    left. split.
    + assert (0 < e * r') by nia. nia.
    + assert (e * r' < e * (2 * one)) by nia. nia.
  - intros Ht. assert (Hr0 : r = 0) by exact Ht.
    rewrite Hr0, Z.mul_0_r, Z.add_0_r in Hrem.
    destruct (Z.le_gt_cases 0 d) as [Hd0|Hd0].
    + left. symmetry. apply (Z.div_unique _ _ _ r'); [|unfold r'; lia].
      left. split; [nia|]. assert (e * r' < e * (2 * one)) by nia. nia.
    + right. symmetry. apply (Z.div_unique _ _ _ (r' + 2 * one)); [|unfold r'; lia].
      left. split.
      * assert (0 < e * (r' + 2 * one)) by nia. nia.
      * assert (e * r' < 0) by lia. nia.
Qed.

(** The rate on exact operands: the code's value is the formula's, except
    that on a tie it may be one less. *)
Lemma rate_core_spec c e :
  0 <= c -> 0 < e < 2 ^ 43 ->
  (~ is_tie c e -> rate_core c e = Z.min 100 (round_nearest (100 * c) e)) /\
  (is_tie c e -> rate_core c e = Z.min 100 (round_nearest (100 * c) e) \/
                 rate_core c e = Z.min 100 (round_nearest (100 * c) e - 1)).
Proof.
  intros Hc He.
  destruct (Z.eq_dec c 0) as [->|Hc0].
  - assert (round_nearest (100 * 0) e = 0).
    { unfold round_nearest. apply Z.div_small. lia. }
    rewrite rate_core_0 by lia. rewrite H. split; [reflexivity|now left].
  - destruct (Z.le_gt_cases e c) as [Hle|Hlt].
    + assert (100 <= round_nearest (100 * c) e).
      { unfold round_nearest. apply Z.div_le_lower_bound; nia. }
      rewrite rate_core_full by lia.
      split; [intros _|intros _; left]; lia.
    + pose proof (rate_error c e ltac:(lia) ltac:(lia)) as Herr.
      destruct (round_half_up_near _ c e ltac:(lia) Herr) as [Hnt Ht].
      unfold rate_core. split.
      * intros H. now rewrite (Hnt H).
      * intros H. destruct (Ht H) as [->| ->]; [now left|now right].
Qed.

End RateFacts.

(* ------------------------------------------------------------------ *)
(** ** The ledger's unique index *)

Module LedgerFacts.
Import Ledger.

Lemma has_key_true hid date r :
  has_key hid date r = true <-> key r = (hid, date).
Proof.
  unfold has_key, key. rewrite andb_true_iff, String.eqb_eq, Z.eqb_eq.
  split; [intros [-> ->]; reflexivity|intros [= -> ->]; split; reflexivity].
Qed.


Lemma filter_has_key_nil hid date l :
  existsb (has_key hid date) l = false -> filter (has_key hid date) l = [].
Proof.
  induction l as [|r l IH]; cbn [existsb filter]; [reflexivity|].
  intros H. apply orb_false_iff in H as [H1 H2]. rewrite H1. now apply IH.
Qed.

Lemma count_0 hid date db :
  count hid date db = 0%nat <->
  existsb (has_key hid date) (habit_completions db) = false.
Proof.
  unfold count. split.
  - intros H. apply not_true_is_false. intros Hex.
    apply existsb_exists in Hex as (r & Hin & Hk).
    assert (Hf : In r (filter (has_key hid date) (habit_completions db)))
      by (apply filter_In; split; assumption).
    destruct (filter (has_key hid date) (habit_completions db)); [inversion Hf|discriminate].
  - intros H. now rewrite filter_has_key_nil.
Qed.




(** A statement either leaves the table alone or adds the one new row. *)
Lemma insert_cases auth_uid hid uid date db :
  (exists e, insert auth_uid hid uid date db = (Error e, db)) \/
  (exists u, uid = Some u /\
             existsb (has_key hid date) (habit_completions db) = false /\
             insert auth_uid hid uid date db =
               (Ok (mkCompletionRow hid u date),
                mkDatabase (habits db)
                  (habit_completions db ++ [mkCompletionRow hid u date]))).
Proof.
  unfold insert.
  destruct uid as [u|]; [|left; eauto].
  destruct (policy_check auth_uid (Some u)); cbn [negb]; [|left; eauto].
  destruct (existsb (has_key hid date) (habit_completions db)) eqn:Hex; [left; eauto|].
  destruct (existsb _ (habits db)); cbn [negb]; [|left; eauto].
  right. exists u. auto.
Qed.





End LedgerFacts.

(* ------------------------------------------------------------------ *)
(** ** The evaluator on habits *)

Module EvaluatorFacts.
Import JsDate JsDateFacts Dashboard SortFacts StreakFacts F64 F64Facts RateFacts.

Lemma dates_habit_on freq created days : dates (habit_on freq created days) = days.
Proof.
  unfold dates, habit_on. cbn [habit_completions]. rewrite map_map. cbn.
  apply map_id.
Qed.

Lemma getCompletionRate_core h now :
  getCompletionRate h now =
  rate_core (Z.of_nat (List.length (habit_completions h)))
            (Z.max (expectedCompletions h now) 1).
Proof.
  unfold getCompletionRate, rate_core, expectedCompletions, daysSinceCreated.
  cbv zeta. reflexivity.
Qed.

Lemma getCompletionRate_range h now : 0 <= getCompletionRate h now <= 100.
Proof. rewrite getCompletionRate_core. apply rate_core_range; lia. Qed.

Lemma getCompletionRate_empty h now :
  habit_completions h = [] -> getCompletionRate h now = 0.
Proof.
  intros E. rewrite getCompletionRate_core, E. cbn [List.length Z.of_nat].
  apply rate_core_0. lia.
Qed.

Lemma ceil_div_ceil_div z a b :
  0 < a -> 0 < b -> ceil_div (ceil_div z a) b = ceil_div z (a * b).
Proof.
  intros Ha Hb. unfold ceil_div. rewrite Z.opp_involutive.
  now rewrite Z.div_div by lia.
Qed.

(** While the elapsed time is exact in a double, the expected count is the
    specification's. *)
Lemma expectedCompletions_spec h now :
  0 <= now - created_at h < 2 ^ 53 ->
  expectedCompletions h now = spec_expected (frequency h) (now - created_at h) /\
  0 <= expectedCompletions h now < 2 ^ 43.
Proof.
  intros Hz. set (z := now - created_at h) in *.
  assert (Hdays : daysSinceCreated h now = ceil_div z MS_PER_DAY).
  { unfold daysSinceCreated. rewrite sub_of_int by exact Hz.
    change (1000 * 60 * 60 * 24) with MS_PER_DAY.
    apply ceil_div_of_int; [exact Hz|now vm_compute]. }
  pose proof (ceil_div_bounds z MS_PER_DAY MS_PER_DAY_pos) as Hb.
  assert (Hrange : 0 <= ceil_div z MS_PER_DAY < 2 ^ 28).
  { unfold MS_PER_DAY in *. change (2 ^ 53) with 9007199254740992 in Hz.
    change (2 ^ 28) with 268435456. lia. }
  unfold expectedCompletions, spec_expected.
  destruct (frequency h).
  - rewrite Hdays. change (2 ^ 28) with 268435456 in Hrange.
    change (2 ^ 43) with 8796093022208. lia.
  - rewrite Hdays.
    rewrite ceil_div_of_int;
      [|change (2 ^ 28) with 268435456 in Hrange;
        change (2 ^ 53) with 9007199254740992; lia|now vm_compute].
    rewrite ceil_div_ceil_div by (unfold MS_PER_DAY; lia).
    replace (MS_PER_DAY * 7) with (7 * MS_PER_DAY) by lia.
    split; [reflexivity|].
    pose proof (ceil_div_bounds z (7 * MS_PER_DAY) ltac:(unfold MS_PER_DAY; lia)) as Hb7.
    unfold MS_PER_DAY in *. change (2 ^ 53) with 9007199254740992 in Hz.
    change (2 ^ 43) with 8796093022208. lia.
Qed.

(** In the current week, by calendar days, east of UTC. *)
Lemma inCurrentWeek_days tz now c :
  0 <= tz < MS_PER_DAY ->
  inCurrentWeek tz now c = true <->
  weekStartDay tz now <= completion_date c <= weekStartDay tz now + 6.
Proof.
  intros Htz. unfold inCurrentWeek.
  rewrite andb_true_iff, !Z.leb_le, startOfWeek_eq, endOfWeek_eq.
  unfold parseDate, MS_PER_DAY in *. lia.
Qed.

(** The streak is never negative. *)
Lemma getStreak_nonneg tz h now : 0 <= getStreak tz h now.
Proof.
  unfold getStreak.
  destruct (List.length (habit_completions h) =? 0)%nat; [lia|].
  set (l := sort_desc (map (fun c => parseDate (completion_date c)) (habit_completions h))).
  destruct (frequency h).
  - pose proof (streak_loop_daily_bounds tz l l 0 (setHours0 tz now)). lia.
  - destruct l; cbn [streak_loop]; lia.
Qed.

End EvaluatorFacts.

(* ------------------------------------------------------------------ *)
(** ** The model of binary64 against the kernel's floats *)

Module F64Check.
Import F64.

(** The model and the kernel compute the same double for every count up to
    every expected count up to 3, and at ties and extremes of larger ones. *)
Lemma model_agrees_with_kernel :
  forallb (fun e => forallb (fun c => agrees c (e + 1)) (upto (Z.to_nat e + 2)))
          (upto 3) = true /\
  forallb (fun ce => agrees (fst ce) (snd ce))
          [(23, 40); (29, 200); (57, 200); (113, 200); (115, 200); (1, 86400000);
           (4294967295, 1); (1, 4294967295); (123456789, 987654321)] = true.
Proof. split; now vm_compute. Qed.

(** The quotient behind [daysSinceCreated], likewise. *)
Lemma model_agrees_on_days :
  forallb
    (fun z =>
       match of_prim (PrimFloat.div
                        (PrimFloat.sub (PrimFloat.of_uint63 (Uint63.of_Z (z + 1757432845000)))
                                       (PrimFloat.of_uint63 (Uint63.of_Z 1757432845000)))
                        (PrimFloat.of_uint63 (Uint63.of_Z 86400000))) with
       | Some x => x =? div (sub (of_int (z + 1757432845000)) (of_int 1757432845000))
                            (of_int 86400000)
       | None => false
       end)
    [0; 1; 86400001; 31536000000123]
  = true.
Proof. now vm_compute. Qed.

End F64Check.

(* ------------------------------------------------------------------ *)
(** ** The mark-complete action *)

Module ActionFacts.
Import JsDate Dashboard.

(** A refused or skipped insert leaves the database alone; an accepted one
    adds one row dated with the UTC day of the call. *)
Lemma completeHabit_cases tz user habits hid freq now db :
  (exists t, t <> toast_great_job /\
             completeHabit tz user habits hid freq now db = (t, db)) \/
  (exists u, user = Some u /\
             existsb (Ledger.has_key hid (toISODate now)) (Ledger.habit_completions db) = false /\
             completeHabit tz user habits hid freq now db =
               (toast_great_job,
                Ledger.mkDatabase (Ledger.habits db)
                  (Ledger.habit_completions db
                     ++ [Ledger.mkCompletionRow hid u (toISODate now)]))).
Proof.
  unfold completeHabit.
  destruct (match freq with
            | daily => option_map _ _
            | weekly => option_map _ _
            end) as [[|]|].
  - left. exists toast_already_completed. split; [discriminate|reflexivity].
  - destruct (LedgerFacts.insert_cases user hid user (toISODate now) db)
      as [(e & ->)|(u & Hu & Hex & ->)].
    + left. exists toast_error. split; [discriminate|reflexivity].
    + right. exists u. auto.
  - destruct (LedgerFacts.insert_cases user hid user (toISODate now) db)
      as [(e & ->)|(u & Hu & Hex & ->)].
    + left. exists toast_error. split; [discriminate|reflexivity].
    + right. exists u. auto.
Qed.

(** After a "Great job!" the same user cannot complete the same habit again
    on the same UTC day, whatever the page has cached and whichever
    frequency it passes: the action reports and the database stays. *)
Lemma completeHabit_second_call tz user habits habits' hid freq freq' now now' db db' :
  completeHabit tz user habits hid freq now db = (toast_great_job, db') ->
  toISODate now' = toISODate now ->
  exists t, t <> toast_great_job /\
            completeHabit tz user habits' hid freq' now' db' = (t, db').
Proof.
  intros Hfirst Hday.
  destruct (completeHabit_cases tz user habits hid freq now db)
    as [(t & Ht & E)|(u & Hu & Hex & E)]; rewrite E in Hfirst.
  - injection Hfirst as -> _. contradiction.
  - injection Hfirst as <-.
    destruct (completeHabit_cases tz user habits' hid freq' now'
                (Ledger.mkDatabase (Ledger.habits db)
                   (Ledger.habit_completions db
                      ++ [Ledger.mkCompletionRow hid u (toISODate now)])))
      as [(t & Ht & E')|(u' & _ & Hex' & _)].
    + exists t. split; assumption.
    + exfalso. cbn [Ledger.habit_completions] in Hex'.
      rewrite Hday, existsb_app in Hex'. apply orb_false_iff in Hex' as [_ Hex'].
      cbn [existsb] in Hex'. apply orb_false_iff in Hex' as [Hex' _].
      assert (Hk : Ledger.has_key hid (toISODate now)
                     (Ledger.mkCompletionRow hid u (toISODate now)) = true)
        by (apply LedgerFacts.has_key_true; reflexivity).
      congruence.
Qed.

End ActionFacts.

(* ------------------------------------------------------------------ *)
(** ** The streak and the zone *)

Module ZoneFacts.
Import JsDate JsDateFacts Dashboard SortFacts StreakFacts.

(** Local midnights are the same in zones a whole number of days apart. *)
Lemma setHours0_mod tz t : setHours0 tz t = setHours0 (tz mod MS_PER_DAY) t.
Proof.
  unfold setHours0, localDay.
  pose proof (Z.div_mod tz MS_PER_DAY ltac:(unfold MS_PER_DAY; lia)) as E.
  replace (t + tz) with (t + tz mod MS_PER_DAY + tz / MS_PER_DAY * MS_PER_DAY) by lia.
  rewrite Z.div_add by (unfold MS_PER_DAY; lia). lia.
Qed.

Lemma streak_loop_mod tz freq all l s cur :
  streak_loop tz freq all l s cur = streak_loop (tz mod MS_PER_DAY) freq all l s cur.
Proof.
  revert s cur. induction l as [|c l IH]; intros s cur; cbn [streak_loop]; [reflexivity|].
  rewrite <- setHours0_mod. destruct freq; [|reflexivity].
  repeat match goal with
         | |- context [if ?b then _ else _] => destruct b
         end; try reflexivity; apply IH.
Qed.

Lemma getStreak_mod tz h now :
  getStreak tz h now = getStreak (tz mod MS_PER_DAY) h now.
Proof.
  unfold getStreak. destruct (List.length (habit_completions h) =? 0)%nat; [reflexivity|].
  rewrite <- setHours0_mod. apply streak_loop_mod.
Qed.

(** The streak does not depend on the order the completions arrive in. *)
Lemma getStreak_Permutation tz h h' now :
  frequency h = frequency h' ->
  Permutation (habit_completions h) (habit_completions h') ->
  getStreak tz h now = getStreak tz h' now.
Proof.
  intros Hf Hp. unfold getStreak.
  rewrite (Permutation_length Hp), Hf.
  rewrite (sort_desc_Permutation _ _
             (Permutation_map (fun c => parseDate (completion_date c)) Hp)).
  reflexivity.
Qed.

(** West of UTC the date-only string of a completion falls on the evening
    before: a daily habit needs a completion dated after the local today to
    have any streak, and one completed today and every day before has 0. *)
Lemma getStreak_west_of_utc tz h now :
  - MS_PER_DAY <= tz < 0 ->
  frequency h = daily ->
  (forall d, In d (dates h) -> d <= localDay tz now) ->
  getStreak tz h now = 0.
Proof.
  intros Htz Hf Hle.
  assert (Hmod : tz mod MS_PER_DAY = tz + MS_PER_DAY).
  { symmetry. apply (Z.mod_unique _ _ (-1)); unfold MS_PER_DAY in *; lia. }
  rewrite getStreak_mod, Hmod.
  apply getStreak_none_today; [lia|exact Hf|].
  intros d Hd. specialize (Hle d Hd).
  assert (localDay (tz + MS_PER_DAY) now = localDay tz now + 1).
  { unfold localDay. replace (now + (tz + MS_PER_DAY)) with (now + tz + 1 * MS_PER_DAY) by lia.
    apply Z.div_add. unfold MS_PER_DAY; lia. }
  lia.
Qed.

End ZoneFacts.

(* ------------------------------------------------------------------ *)
(** ** The specification's statements *)

Import JsDate Dashboard.

(** *** The ledger *)



(** *** The streak *)

(** C8.  For a weekly habit with at least one completion the streak is the
    number of completions, whichever weeks they fall in. *)
Theorem getStreak_weekly_is_length (tz : Z) (h : Habit) (now : Z) :
  frequency h = weekly ->
  habit_completions h <> [] ->
  getStreak tz h now = Z.of_nat (List.length (habit_completions h)).
Proof.
  intros Hf Hne. unfold getStreak.
  destruct (habit_completions h) as [|c cs] eqn:E; [contradiction|].
  change ((List.length (c :: cs) =? 0)%nat) with false. cbv iota. rewrite Hf.
  set (l := sort_desc (map (fun c => parseDate (completion_date c)) (c :: cs))).
  assert (Hl : List.length l = List.length (c :: cs)).
  { unfold l. now rewrite SortFacts.sort_desc_length, length_map. }
  destruct l as [|x l']; [discriminate Hl|].
  cbn [streak_loop]. now rewrite Hl.
Qed.

Lemma getStreak_weekly_is_length_witness :
  getStreak 0 (habit_on weekly 0 [19000; 19950; 20000]) (20000 * MS_PER_DAY) = 3.
Proof.
  apply (getStreak_weekly_is_length 0 (habit_on weekly 0 [19000; 19950; 20000])
           (20000 * MS_PER_DAY)).
  - reflexivity.
  - discriminate.
Defined.

(** C10.  The streak of any habit, in any zone, is a natural number that
    does not exceed the number of its completions. *)
Theorem getStreak_bounded (tz : Z) (h : Habit) (now : Z) :
  0 <= getStreak tz h now <= Z.of_nat (List.length (habit_completions h)).
Proof.
  unfold getStreak.
  destruct (habit_completions h) as [|c cs] eqn:E; [cbn; lia|].
  cbn [List.length Nat.eqb].
  set (l := sort_desc (map (fun c => parseDate (completion_date c)) (c :: cs))).
  assert (Hl : List.length l = S (List.length cs)).
  { unfold l. rewrite SortFacts.sort_desc_length, length_map. reflexivity. }
  destruct (frequency h).
  - pose proof (StreakFacts.streak_loop_daily_bounds tz l l 0 (setHours0 tz now)) as Hb.
    rewrite Hl in Hb. lia.
  - destruct l as [|x l']; [discriminate Hl|].
    cbn [streak_loop]. rewrite Hl. lia.
Qed.

(** C3.  A daily habit whose completions form a run of [n >= 1] days ending
    yesterday, with none today or later, gets streak 0 and not [n]: the
    branch meant to forgive a missing today compares the completion with
    the day after [currentDate] and never counts. *)
Theorem getStreak_missed_today (tz : Z) (h : Habit) (now : Z) (n : nat) :
  0 <= tz < MS_PER_DAY ->
  frequency h = daily ->
  (1 <= n)%nat ->
  run_length_from (dates h) (localDay tz now - 1) n ->
  (forall d, In d (dates h) -> d < localDay tz now) ->
  getStreak tz h now = 0 /\ getStreak tz h now <> Z.of_nat n.
Proof.
  intros Htz Hf Hn _ Hlt.
  rewrite (StreakFacts.getStreak_none_today tz h now Htz Hf Hlt).
  split; [reflexivity|lia].
Qed.

Lemma getStreak_missed_today_witness :
  getStreak 0 (habit_on daily 0 [19997; 19998; 19999])
            (20000 * MS_PER_DAY + 43200000) = 0 /\
  getStreak 0 (habit_on daily 0 [19997; 19998; 19999])
            (20000 * MS_PER_DAY + 43200000) <> Z.of_nat 3.
Proof.
  apply (getStreak_missed_today 0 (habit_on daily 0 [19997; 19998; 19999])
           (20000 * MS_PER_DAY + 43200000) 3).
  - vm_compute. split; [discriminate|reflexivity].
  - reflexivity.
  - lia.
  - rewrite EvaluatorFacts.dates_habit_on.
    change (localDay 0 (20000 * MS_PER_DAY + 43200000) - 1) with 19999.
    split.
    + intros [|[|[|k]]] Hk; cbn; try lia; auto.
    + cbn. lia.
  - rewrite EvaluatorFacts.dates_habit_on.
    change (localDay 0 (20000 * MS_PER_DAY + 43200000)) with 20000.
    cbn. lia.
Defined.

(** C4, as stated, fails for a habit with a completion dated after today:
    with completions today and tomorrow (UTC, noon of day 20000) the run
    that ends today has length 1, and the streak is 0. *)
Lemma getStreak_future_dated_counterexample :
  let h := habit_on daily 0 [20000; 20001] in
  let now := 20000 * MS_PER_DAY + 43200000 in
  frequency h = daily /\
  In (localDay 0 now) (dates h) /\
  run_length_from (dates h) (localDay 0 now) 1 /\
  getStreak 0 h now = 0.
Proof.
  cbv zeta. rewrite EvaluatorFacts.dates_habit_on.
  change (localDay 0 (20000 * MS_PER_DAY + 43200000)) with 20000.
  repeat split.
  - cbn. auto.
  - intros [|k] Hk; cbn; [auto|lia].
  - cbn. lia.
Qed.

(** C4, amended.  East of UTC, for a daily habit with a completion today
    and none dated after today, the streak is the number of consecutive days
    with a completion counting backward from today, up to the first day
    without one; in particular completions on exactly today and the two
    days before give 3. *)
Theorem getStreak_counts_run (tz : Z) (h : Habit) (now : Z) :
  0 <= tz < MS_PER_DAY ->
  frequency h = daily ->
  In (localDay tz now) (dates h) ->
  (forall d, In d (dates h) -> d <= localDay tz now) ->
  (exists n : nat,
      (1 <= n)%nat /\
      getStreak tz h now = Z.of_nat n /\
      run_length_from (dates h) (localDay tz now) n) /\
  (Permutation (dates h)
     [localDay tz now; localDay tz now - 1; localDay tz now - 2] ->
   getStreak tz h now = 3).
Proof.
  intros Htz Hf Hin Hle. split.
  - destruct (StreakFacts.getStreak_run tz h now Htz Hf Hle) as (n & Hn & Hrun).
    exists n. repeat split; try assumption; try apply Hrun.
    destruct n as [|n]; [|lia].
    exfalso. destruct Hrun as [_ Hstop]. apply Hstop.
    cbn. now rewrite Z.sub_0_r.
  - intros Hp.
    apply (StreakFacts.getStreak_of_run tz h now 3 Htz Hf Hle).
    apply (StreakFacts.run_length_from_Permutation _ _ _ _ (Permutation_sym Hp)).
    split.
    + intros [|[|[|k]]] Hk; cbn; try lia; rewrite ?Z.sub_0_r; auto.
    + cbn. lia.
Qed.

Lemma getStreak_counts_run_witness :
  (exists n : nat,
      (1 <= n)%nat /\
      getStreak 19800000 (habit_on daily 0 [19990; 19998; 20000; 19999])
                (20000 * MS_PER_DAY) = Z.of_nat n /\
      run_length_from (dates (habit_on daily 0 [19990; 19998; 20000; 19999]))
                      (localDay 19800000 (20000 * MS_PER_DAY)) n) /\
  (Permutation (dates (habit_on daily 0 [19990; 19998; 20000; 19999]))
     [localDay 19800000 (20000 * MS_PER_DAY);
      localDay 19800000 (20000 * MS_PER_DAY) - 1;
      localDay 19800000 (20000 * MS_PER_DAY) - 2] ->
   getStreak 19800000 (habit_on daily 0 [19990; 19998; 20000; 19999])
             (20000 * MS_PER_DAY) = 3).
Proof.
  apply (getStreak_counts_run 19800000
           (habit_on daily 0 [19990; 19998; 20000; 19999]) (20000 * MS_PER_DAY)).
  - vm_compute. split; [discriminate|reflexivity].
  - reflexivity.
  - rewrite EvaluatorFacts.dates_habit_on.
    change (localDay 19800000 (20000 * MS_PER_DAY)) with 20000. cbn. auto.
  - rewrite EvaluatorFacts.dates_habit_on.
    change (localDay 19800000 (20000 * MS_PER_DAY)) with 20000. cbn. lia.
Defined.




(** With day -5 and day -1 only, the streak is 0: the case of C3. *)
Lemma getStreak_gap_without_today (tz : Z) (h : Habit) (now : Z) :
  0 <= tz < MS_PER_DAY ->
  frequency h = daily ->
  Permutation (dates h) [localDay tz now - 5; localDay tz now - 1] ->
  getStreak tz h now = 0.
Proof.
  intros Htz Hf Hp. apply (StreakFacts.getStreak_none_today tz h now Htz Hf).
  intros d Hd. apply (Permutation_in _ Hp) in Hd. cbn in Hd. lia.
Qed.

(** *** The period predicate *)


(** *** The completion rate *)

(** C2, as stated, fails where [100 * c / e] is halfway between two
    integers and the double product falls below it: 23 completions in 40
    days give [(23 / 40) * 100 = 57.49999999999999] and rate 57, while the
    formula rounds 57.5 to 58. *)
Lemma getCompletionRate_tie_counterexample :
  let h := habit_on daily 0 (repeat 19000 23) in
  let now := 40 * MS_PER_DAY in
  Z.of_nat (List.length (habit_completions h)) = 23 /\
  getCompletionRate h now = 57 /\
  spec_rate (frequency h) 23 (now - created_at h) = 58.
Proof.
  cbv zeta. split; [|split].
  - reflexivity.
  - vm_compute. reflexivity.
  - vm_compute. reflexivity.
Qed.

(** C2, amended.  For a habit created [elapsed_ms >= 0] milliseconds ago
    (below [2^53]), with [c] completions and [e = max(expected_count, 1)],
    [expected_count] being the ceiling of the elapsed days (daily) or of the
    elapsed days over 7 (weekly): the rate is
    [min(100, round(100 * c / e))] whenever [100 * c / e] is not exactly
    halfway between two integers, and on such a tie it is that value or the
    value for one less. *)
Theorem getCompletionRate_formula (h : Habit) (now : Z) :
  0 <= now - created_at h < 2 ^ 53 ->
  let c := Z.of_nat (List.length (habit_completions h)) in
  let elapsed_ms := now - created_at h in
  let e := Z.max (spec_expected (frequency h) elapsed_ms) 1 in
  (~ is_tie c e ->
   getCompletionRate h now = spec_rate (frequency h) c elapsed_ms) /\
  (is_tie c e ->
   getCompletionRate h now = spec_rate (frequency h) c elapsed_ms \/
   getCompletionRate h now = Z.min 100 (round_nearest (100 * c) e - 1)).
Proof.
  intros Hz c elapsed_ms e.
  destruct (EvaluatorFacts.expectedCompletions_spec h now Hz) as [Hexp Hrange].
  rewrite EvaluatorFacts.getCompletionRate_core, Hexp.
  fold elapsed_ms e c. unfold spec_rate. fold e.
  apply RateFacts.rate_core_spec; [unfold c; lia|].
  unfold e. fold elapsed_ms in Hexp. rewrite <- Hexp.
  change (2 ^ 43) with 8796093022208 in *. lia.
Qed.

Lemma getCompletionRate_formula_witness :
  let h := habit_on weekly 1000 (repeat 19000 3) in
  let now := 1000 + 30 * MS_PER_DAY in
  let c := Z.of_nat (List.length (habit_completions h)) in
  let elapsed_ms := now - created_at h in
  let e := Z.max (spec_expected (frequency h) elapsed_ms) 1 in
  (~ is_tie c e ->
   getCompletionRate h now = spec_rate (frequency h) c elapsed_ms) /\
  (is_tie c e ->
   getCompletionRate h now = spec_rate (frequency h) c elapsed_ms \/
   getCompletionRate h now = Z.min 100 (round_nearest (100 * c) e - 1)).
Proof.
  apply (getCompletionRate_formula (habit_on weekly 1000 (repeat 19000 3))
           (1000 + 30 * MS_PER_DAY)).
  vm_compute. split; [discriminate|reflexivity].
Defined.

(** C6.  The rate always lies in [0, 100]; with the clock, the creation
    instant and the frequency fixed it does not decrease when the number of
    completions grows; and a habit created one day ago with 5 completions
    has rate 100. *)
Theorem getCompletionRate_range_mono_cap :
  (forall h now, 0 <= getCompletionRate h now <= 100) /\
  (forall h h' now,
      frequency h = frequency h' ->
      created_at h = created_at h' ->
      (List.length (habit_completions h) <= List.length (habit_completions h'))%nat ->
      getCompletionRate h now <= getCompletionRate h' now) /\
  (forall h now,
      created_at h = now - MS_PER_DAY ->
      List.length (habit_completions h) = 5%nat ->
      getCompletionRate h now = 100).
Proof.
  split; [|split].
  - apply EvaluatorFacts.getCompletionRate_range.
  - intros h h' now Hf Hc Hl.
    rewrite !EvaluatorFacts.getCompletionRate_core.
    assert (He : expectedCompletions h now
                 = expectedCompletions h' now).
    { unfold expectedCompletions, daysSinceCreated.
      now rewrite Hf, Hc. }
    rewrite He. apply RateFacts.rate_core_mono; lia.
  - intros h now Hc Hl.
    assert (Hz : 0 <= now - created_at h < 2 ^ 53).
    { rewrite Hc. replace (now - (now - MS_PER_DAY)) with MS_PER_DAY by lia.
      now vm_compute. }
    destruct (EvaluatorFacts.expectedCompletions_spec h now Hz) as [Hexp _].
    rewrite EvaluatorFacts.getCompletionRate_core, Hexp, Hl, Hc.
    replace (now - (now - MS_PER_DAY)) with MS_PER_DAY by lia.
    apply RateFacts.rate_core_full; destruct (frequency h); now vm_compute.
Qed.

Lemma getCompletionRate_range_mono_cap_witness :
  getCompletionRate (habit_on daily 0 (repeat 19000 2)) (10 * MS_PER_DAY)
  <= getCompletionRate (habit_on daily 0 (repeat 19000 7)) (10 * MS_PER_DAY)
  /\ getCompletionRate (habit_on weekly 0 (repeat 0 5)) MS_PER_DAY = 100.
Proof.
  split.
  - apply (proj1 (proj2 getCompletionRate_range_mono_cap)
             (habit_on daily 0 (repeat 19000 2))
             (habit_on daily 0 (repeat 19000 7)) (10 * MS_PER_DAY)).
    + reflexivity.
    + reflexivity.
    + cbn. lia.
  - apply (proj2 (proj2 getCompletionRate_range_mono_cap)
             (habit_on weekly 0 (repeat 0 5)) MS_PER_DAY).
    + reflexivity.
    + reflexivity.
Defined.

(** *** The evaluator as a whole *)

(** C9.  The three evaluator functions return a value on every habit, at
    every instant, in every zone (a boolean, a natural number and a
    percentage), and a habit without completions has streak 0 and rate 0. *)
Theorem evaluator_total_zero_on_empty (tz : Z) (now : Z) :
  (forall h, exists (b : bool) (s r : Z),
      isHabitCompletedToday tz h now = b /\
      getStreak tz h now = s /\
      getCompletionRate h now = r /\
      0 <= s /\ 0 <= r <= 100) /\
  (forall i n d f cat created,
      getStreak tz (mkHabit i n d f cat created []) now = 0 /\
      getCompletionRate (mkHabit i n d f cat created []) now = 0).
Proof.
  split.
  - intros h.
    exists (isHabitCompletedToday tz h now), (getStreak tz h now),
           (getCompletionRate h now).
    repeat split; try reflexivity.
    + apply EvaluatorFacts.getStreak_nonneg.
    + apply EvaluatorFacts.getCompletionRate_range.
    + apply EvaluatorFacts.getCompletionRate_range.
  - intros i n d f cat created. split; [reflexivity|].
    now apply EvaluatorFacts.getCompletionRate_empty.
Qed.

(* ------------------------------------------------------------------ *)
(** ** Further properties of the code *)

(** X1.  After [completeHabit] has answered "Great job!", a second
    [completeHabit] for the same habit by the same user on the same UTC day
    answers something else and leaves the database as it is, whatever the
    page has cached and whichever frequency it passes. *)
Theorem completeHabit_never_twice (tz : Z) (user : option string)
    (habits habits' : list Habit) (hid : string) (freq freq' : Frequency)
    (now now' : Z) (db db' : Ledger.Database) :
  completeHabit tz user habits hid freq now db = (toast_great_job, db') ->
  toISODate now' = toISODate now ->
  exists t, t <> toast_great_job /\
            completeHabit tz user habits' hid freq' now' db' = (t, db').
Proof.
  intros H1 H2. eapply ActionFacts.completeHabit_second_call; eassumption.
Qed.

Lemma completeHabit_never_twice_witness :
  exists t, t <> toast_great_job /\
    completeHabit 0 (Some "u1"%string) [] "h1" weekly (20000 * MS_PER_DAY + 7200000)
      (Ledger.mkDatabase [Ledger.mkHabitRow "h1" "u1"]
                         [Ledger.mkCompletionRow "h1" "u1" 20000])
    = (t, Ledger.mkDatabase [Ledger.mkHabitRow "h1" "u1"]
                            [Ledger.mkCompletionRow "h1" "u1" 20000]).
Proof.
  apply (completeHabit_never_twice 0 (Some "u1"%string)
           [habit_on daily 0 []] [] "h1" daily weekly
           (20000 * MS_PER_DAY + 3600000) (20000 * MS_PER_DAY + 7200000)
           (Ledger.mkDatabase [Ledger.mkHabitRow "h1" "u1"] [])).
  - reflexivity.
  - reflexivity.
Defined.

(** X2.  The streak does not depend on the order in which the completions
    are listed. *)
Theorem getStreak_order_independent (tz : Z) (h h' : Habit) (now : Z) :
  frequency h = frequency h' ->
  Permutation (habit_completions h) (habit_completions h') ->
  getStreak tz h now = getStreak tz h' now.
Proof.
  intros Hf Hp. now apply ZoneFacts.getStreak_Permutation.
Qed.

Lemma getStreak_order_independent_witness :
  getStreak 0 (habit_on daily 0 [19999; 20000]) (20000 * MS_PER_DAY)
  = getStreak 0 (habit_on daily 0 [20000; 19999]) (20000 * MS_PER_DAY).
Proof.
  apply (getStreak_order_independent 0
           (habit_on daily 0 [19999; 20000]) (habit_on daily 0 [20000; 19999])
           (20000 * MS_PER_DAY)).
  - reflexivity.
  - apply perm_swap.
Defined.

(** X3.  East of UTC a weekly habit counts as completed exactly when a
    completion is dated within the seven local days that start on the Sunday
    on or before today. *)
Theorem isHabitCompletedToday_weekly_days (tz : Z) (h : Habit) (now : Z) :
  0 <= tz < MS_PER_DAY ->
  frequency h = weekly ->
  (isHabitCompletedToday tz h now = true <->
   exists c, In c (habit_completions h) /\
             weekStartDay tz now <= completion_date c <= weekStartDay tz now + 6) /\
  (weekStartDay tz now + 4) mod 7 = 0 /\
  weekStartDay tz now <= localDay tz now <= weekStartDay tz now + 6.
Proof.
  intros Htz Hf. split; [|split].
  - unfold isHabitCompletedToday. rewrite Hf, existsb_exists.
    split; intros (c & Hin & Hc); exists c; split; try assumption.
    + now apply (EvaluatorFacts.inCurrentWeek_days tz now c Htz).
    + now apply (EvaluatorFacts.inCurrentWeek_days tz now c Htz).
  - apply JsDateFacts.weekStartDay_sunday.
  - unfold weekStartDay. pose proof (JsDateFacts.getDay_range tz now). lia.
Qed.

Lemma isHabitCompletedToday_weekly_days_witness :
  (isHabitCompletedToday 19800000 (habit_on weekly 0 [19998]) (20000 * MS_PER_DAY) = true <->
   exists c, In c (habit_completions (habit_on weekly 0 [19998])) /\
             weekStartDay 19800000 (20000 * MS_PER_DAY) <= completion_date c
             <= weekStartDay 19800000 (20000 * MS_PER_DAY) + 6) /\
  (weekStartDay 19800000 (20000 * MS_PER_DAY) + 4) mod 7 = 0 /\
  weekStartDay 19800000 (20000 * MS_PER_DAY) <= localDay 19800000 (20000 * MS_PER_DAY)
  <= weekStartDay 19800000 (20000 * MS_PER_DAY) + 6.
Proof.
  apply (isHabitCompletedToday_weekly_days 19800000 (habit_on weekly 0 [19998])
           (20000 * MS_PER_DAY)).
  - vm_compute. split; [discriminate|reflexivity].
  - reflexivity.
Defined.

(** X4.  West of UTC (offset in [-24h, 0)) a daily habit with no completion
    dated after the local today has streak 0, even when it was completed
    today and on every day before: [new Date("YYYY-MM-DD")] is UTC midnight,
    which [setHours(0, 0, 0, 0)] moves to the local midnight of the day
    before. *)
Theorem getStreak_west_of_utc_zero (tz : Z) (h : Habit) (now : Z) :
  - MS_PER_DAY <= tz < 0 ->
  frequency h = daily ->
  (forall d, In d (dates h) -> d <= localDay tz now) ->
  getStreak tz h now = 0.
Proof.
  intros Htz Hf Hle. now apply ZoneFacts.getStreak_west_of_utc.
Qed.

Lemma getStreak_west_of_utc_zero_witness :
  getStreak (-18000000) (habit_on daily 0 [20000; 19999; 19998])
            (20000 * MS_PER_DAY + 54000000) = 0.
Proof.
  apply (getStreak_west_of_utc_zero (-18000000)
           (habit_on daily 0 [20000; 19999; 19998]) (20000 * MS_PER_DAY + 54000000)).
  - vm_compute. split; [discriminate|reflexivity].
  - reflexivity.
  - rewrite EvaluatorFacts.dates_habit_on.
    change (localDay (-18000000) (20000 * MS_PER_DAY + 54000000)) with 20000.
    cbn. lia.
Defined.



(** X6.  East of UTC the day that [completeHabit] writes and
    [isHabitCompletedToday] tests (the UTC date of [toISOString]) is the
    local day [getStreak] starts from, except in the first [tz] milliseconds
    after local midnight, when it is still the day before. *)
Theorem toISODate_against_localDay (tz now : Z) :
  0 <= tz < MS_PER_DAY ->
  (tz <= (now + tz) mod MS_PER_DAY -> toISODate now = localDay tz now) /\
  ((now + tz) mod MS_PER_DAY < tz -> toISODate now = localDay tz now - 1).
Proof.
  intros Htz. unfold toISODate, localDay.
  pose proof (Z.div_mod (now + tz) MS_PER_DAY ltac:(unfold MS_PER_DAY; lia)) as E.
  pose proof (Z.mod_pos_bound (now + tz) MS_PER_DAY JsDateFacts.MS_PER_DAY_pos) as Hr.
  set (L := (now + tz) / MS_PER_DAY) in *. set (r := (now + tz) mod MS_PER_DAY) in *.
  split; intros H.
  - symmetry. apply (Z.div_unique _ _ _ (r - tz)); lia.
  - symmetry. apply (Z.div_unique _ _ _ (r - tz + MS_PER_DAY)); lia.
Qed.

Lemma toISODate_against_localDay_witness :
  ((19800000 <= (20000 * MS_PER_DAY - 3600000 + 19800000) mod MS_PER_DAY ->
    toISODate (20000 * MS_PER_DAY - 3600000)
    = localDay 19800000 (20000 * MS_PER_DAY - 3600000)) /\
   ((20000 * MS_PER_DAY - 3600000 + 19800000) mod MS_PER_DAY < 19800000 ->
    toISODate (20000 * MS_PER_DAY - 3600000)
    = localDay 19800000 (20000 * MS_PER_DAY - 3600000) - 1)) /\
  (20000 * MS_PER_DAY - 3600000 + 19800000) mod MS_PER_DAY < 19800000.
Proof.
  split.
  - apply (toISODate_against_localDay 19800000 (20000 * MS_PER_DAY - 3600000)).
    vm_compute. split; [discriminate|reflexivity].
  - reflexivity.
Defined.

(* ------------------------------------------------------------------ *)
(** ** The ledger and the dashboard together *)

Module LedgerMore.
Import Ledger LedgerFacts.


(** An accepted insert names an existing habit. *)
Lemma insert_ok_habit auth_uid hid uid date db row db' :
  insert auth_uid hid uid date db = (Ok row, db') ->
  existsb (fun h => String.eqb (habit_row_id h) hid) (habits db) = true /\
  habit_id row = hid /\
  habits db' = habits db /\
  habit_completions db' = habit_completions db ++ [row].
Proof.
  unfold insert. destruct uid as [u|]; [|discriminate].
  destruct (policy_check auth_uid (Some u)); cbn [negb]; [|discriminate].
  destruct (existsb (has_key hid date) (habit_completions db)); [discriminate|].
  destruct (existsb _ (habits db)) eqn:Hh; cbn [negb]; [|discriminate].
  intros [= <- <-]. auto.
Qed.

Definition has_habit (db : Database) (r : CompletionRow) : Prop :=
  existsb (fun h => String.eqb (habit_row_id h) (habit_id r)) (habits db) = true.

(** Referential integrity of [habit_id] in every reachable state. *)
Lemma reachable_has_habit db :
  reachable db -> forall r, In r (habit_completions db) -> has_habit db r.
Proof.
  unfold has_habit. induction 1 as [|h db Hr IH|auth_uid hid uid date db Hr IH|hid db Hr IH];
    intros r Hin.
  - destruct Hin.
  - cbn [insert_habit habits habit_completions] in *.
    rewrite existsb_app. apply orb_true_iff. left. now apply IH.
  - destruct (insert auth_uid hid uid date db) as [[row|e] db'] eqn:E; cbn [snd] in *.
    + destruct (insert_ok_habit _ _ _ _ _ _ _ E) as (Hh & Hid & Hhs & Hcs).
      rewrite Hhs. rewrite Hcs in Hin. apply in_app_or in Hin as [Hin|[<-|[]]].
      * now apply IH.
      * now rewrite Hid.
    + destruct (insert_cases auth_uid hid uid date db) as [(e' & E')|(u & _ & _ & E')];
        rewrite E' in E; [|discriminate].
      injection E as _ <-. now apply IH.
  - cbn [delete_habit habits habit_completions] in *.
    apply filter_In in Hin as [Hin Hne]. specialize (IH r Hin).
    apply existsb_exists in IH as (h & Hh & Heq).
    apply existsb_exists. exists h. split; [|exact Heq].
    apply filter_In. split; [exact Hh|].
    apply String.eqb_eq in Heq. now rewrite Heq.
Qed.

End LedgerMore.

Module WeekFacts.
Import JsDate JsDateFacts Dashboard.

(** The current instant lies in its own week. *)
Lemma now_in_week tz now : startOfWeek tz now <= now <= endOfWeek tz now.
Proof.
  rewrite startOfWeek_eq, endOfWeek_eq. unfold weekStartDay.
  pose proof (getDay_range tz now) as Hd.
  pose proof (Z.div_mod (now + tz) MS_PER_DAY ltac:(unfold MS_PER_DAY; lia)) as E.
  pose proof (Z.mod_pos_bound (now + tz) MS_PER_DAY MS_PER_DAY_pos) as Hr.
  fold (localDay tz now) in E. unfold MS_PER_DAY in *. lia.
Qed.

Lemma toISODate_bounds now :
  parseDate (toISODate now) <= now < parseDate (toISODate now) + MS_PER_DAY.
Proof.
  unfold parseDate, toISODate.
  pose proof (Z.div_mod now MS_PER_DAY ltac:(unfold MS_PER_DAY; lia)) as E.
  pose proof (Z.mod_pos_bound now MS_PER_DAY MS_PER_DAY_pos) as Hr.
  unfold MS_PER_DAY in *. lia.
Qed.

(** A completion dated with today's UTC date is in the current week exactly
    when the week had begun by the last UTC midnight. *)
Lemma inCurrentWeek_today tz now c :
  completion_date c = toISODate now ->
  inCurrentWeek tz now c = true <->
  startOfWeek tz now <= parseDate (toISODate now).
Proof.
  intros Hc. unfold inCurrentWeek. rewrite Hc, andb_true_iff, !Z.leb_le.
  pose proof (now_in_week tz now). pose proof (toISODate_bounds now). lia.
Qed.

(** From Monday to Saturday it had. *)
Lemma week_begun tz now :
  getDay tz now <> 0 -> startOfWeek tz now <= parseDate (toISODate now).
Proof.
  intros Hd. rewrite startOfWeek_eq. unfold weekStartDay.
  pose proof (getDay_range tz now) as Hr.
  pose proof (toISODate_bounds now) as Hu.
  pose proof (Z.div_mod (now + tz) MS_PER_DAY ltac:(unfold MS_PER_DAY; lia)) as E.
  pose proof (Z.mod_pos_bound (now + tz) MS_PER_DAY MS_PER_DAY_pos) as Hm.
  fold (localDay tz now) in E. unfold MS_PER_DAY in *. lia.
Qed.

End WeekFacts.



(** X8.  A weekly habit holding a completion dated with today's UTC date
    (the date [completeHabit] writes) counts as completed for the week
    whenever the week had begun by the last UTC midnight, which is the case on
    every local day but Sunday; if that completion is all it has, it counts
    only then. *)
Theorem weekly_completed_just_now (tz : Z) (h : Habit) (now : Z) :
  frequency h = weekly ->
  In (toISODate now) (dates h) ->
  (startOfWeek tz now <= parseDate (toISODate now) ->
   isHabitCompletedToday tz h now = true) /\
  (getDay tz now <> 0 -> isHabitCompletedToday tz h now = true) /\
  ((forall d, In d (dates h) -> d = toISODate now) ->
   isHabitCompletedToday tz h now = true ->
   startOfWeek tz now <= parseDate (toISODate now)).
Proof.
  intros Hf Hin. unfold isHabitCompletedToday. rewrite Hf.
  apply in_map_iff in Hin as (c & Hc & Hin).
  assert (Hyes : startOfWeek tz now <= parseDate (toISODate now) ->
                 existsb (inCurrentWeek tz now) (habit_completions h) = true).
  { intros Hw. apply existsb_exists. exists c. split; [exact Hin|].
    now apply WeekFacts.inCurrentWeek_today. }
  split; [exact Hyes|split].
  - intros Hd. apply Hyes. now apply WeekFacts.week_begun.
  - intros Hall Hex. apply existsb_exists in Hex as (c' & Hin' & Hc').
    apply (WeekFacts.inCurrentWeek_today tz now c'); [|exact Hc'].
    apply Hall. unfold dates. apply in_map_iff. now exists c'.
Qed.

Lemma weekly_completed_just_now_witness :
  (startOfWeek (-18000000) (20001 * MS_PER_DAY + 50400000)
   <= parseDate (toISODate (20001 * MS_PER_DAY + 50400000)) ->
   isHabitCompletedToday (-18000000) (habit_on weekly 0 [20001])
     (20001 * MS_PER_DAY + 50400000) = true) /\
  (getDay (-18000000) (20001 * MS_PER_DAY + 50400000) <> 0 ->
   isHabitCompletedToday (-18000000) (habit_on weekly 0 [20001])
     (20001 * MS_PER_DAY + 50400000) = true) /\
  ((forall d, In d (dates (habit_on weekly 0 [20001])) ->
              d = toISODate (20001 * MS_PER_DAY + 50400000)) ->
   isHabitCompletedToday (-18000000) (habit_on weekly 0 [20001])
     (20001 * MS_PER_DAY + 50400000) = true ->
   startOfWeek (-18000000) (20001 * MS_PER_DAY + 50400000)
   <= parseDate (toISODate (20001 * MS_PER_DAY + 50400000))).
Proof.
  apply (weekly_completed_just_now (-18000000) (habit_on weekly 0 [20001])
           (20001 * MS_PER_DAY + 50400000)).
  - reflexivity.
  - left. reflexivity.
Defined.

(** X9.  [completeHabit] never removes or alters a row: it leaves the
    database as it is unless it answers "Great job!", and then it has added
    exactly one completion, for the given habit, the signed-in user and
    today's UTC date, none having existed for that habit and date. *)
Theorem completeHabit_adds_at_most_today (tz : Z) (user : option string)
    (habits : list Habit) (hid : string) (freq : Frequency) (now : Z)
    (db : Ledger.Database) :
  let r := completeHabit tz user habits hid freq now db in
  Ledger.habits (snd r) = Ledger.habits db /\
  ((fst r <> toast_great_job /\ snd r = db) \/
   (fst r = toast_great_job /\
    exists u, user = Some u /\
      Ledger.count hid (toISODate now) db = 0%nat /\
      Ledger.habit_completions (snd r)
      = Ledger.habit_completions db ++ [Ledger.mkCompletionRow hid u (toISODate now)])).
Proof.
  cbv zeta.
  destruct (ActionFacts.completeHabit_cases tz user habits hid freq now db)
    as [(t & Ht & ->)|(u & Hu & Hex & ->)]; cbn [fst snd].
  - split; [reflexivity|]. left. split; [exact Ht|reflexivity].
  - split; [reflexivity|]. right. split; [reflexivity|].
    exists u. split; [exact Hu|]. split; [|reflexivity].
    now apply LedgerFacts.count_0.
Qed.

(* ------------------------------------------------------------------ *)
(** ** The statements, one by one *)

Module PgFacts.
Import Pg PgInv.

Lemma existsb_false {A : Type} (f : A -> bool) (l : list A) :
  existsb f l = false -> forall x, In x l -> f x = false.
Proof.
  intros H x Hin. apply not_true_is_false. intros Hx.
  assert (existsb f l = true) by (apply existsb_exists; eauto). congruence.
Qed.

Lemma filter_nil {A : Type} (f : A -> bool) (l : list A) :
  (forall x, In x l -> f x = false) -> filter f l = [].
Proof.
  induction l as [|a l IH]; intros H; cbn [filter]; [reflexivity|].
  rewrite (H a (or_introl eq_refl)). apply IH. intros x Hx. apply H. now right.
Qed.


Lemma filter_all {A : Type} (f : A -> bool) (l : list A) :
  (forall x, In x l -> f x = true) -> filter f l = l.
Proof.
  induction l as [|a l IH]; intros H; cbn [filter]; [reflexivity|].
  rewrite (H a (or_introl eq_refl)). f_equal. apply IH. intros x Hx. apply H. now right.
Qed.

Lemma NoDup_map_snoc {A K : Type} (key : A -> K) (l : list A) (x : A) :
  NoDup (map key l) -> ~ In (key x) (map key l) -> NoDup (map key (l ++ [x])).
Proof.
  intros Hnd Hnotin. rewrite map_app. cbn [map].
  eapply Permutation_NoDup; [apply Permutation_cons_append|]. now constructor.
Qed.

Lemma NoDup_map_filter {A K : Type} (key : A -> K) (f : A -> bool) (l : list A) :
  NoDup (map key l) -> NoDup (map key (filter f l)).
Proof.
  induction l as [|a l IH]; cbn [map filter]; intros Hnd; [constructor|].
  inversion Hnd as [|k ks Hnotin Hnd']; subst.
  destruct (f a); cbn [map]; [|now apply IH].
  constructor; [|now apply IH].
  intros Hin. apply Hnotin. apply in_map_iff in Hin as (b & Hk & Hin).
  apply in_map_iff. exists b. split; [exact Hk|].
  now apply filter_In in Hin as [Hin _].
Qed.


Lemma is_uid_true auth_uid u : is_uid auth_uid u = true <-> auth_uid = Some u.
Proof.
  unfold is_uid. destruct auth_uid as [a|]; [|split; discriminate].
  rewrite String.eqb_eq. split; [now intros ->|now intros [= ->]].
Qed.

Lemma is_uid_same u : is_uid (Some u) u = true.
Proof. now apply is_uid_true. Qed.

Lemma same_follow_true a b f :
  same_follow a b f = true <-> follow_pair f = (a, b).
Proof.
  unfold same_follow, follow_pair. rewrite andb_true_iff, !String.eqb_eq.
  split; [intros [-> ->]; reflexivity|intros [= -> ->]; auto].
Qed.

Lemma same_habit_name_true u n h :
  same_habit_name u n h = true <-> habit_key h = (u, n).
Proof.
  unfold same_habit_name, habit_key. rewrite andb_true_iff, !String.eqb_eq.
  split; [intros [-> ->]; reflexivity|intros [= -> ->]; auto].
Qed.

Lemma same_completion_true hid d c :
  same_completion hid d c = true <-> completion_key c = (hid, d).
Proof.
  unfold same_completion, completion_key. rewrite andb_true_iff, String.eqb_eq, Z.eqb_eq.
  split; [intros [-> ->]; reflexivity|intros [= -> ->]; auto].
Qed.

(** *** What an accepted statement has checked and done *)

Lemma sign_up_ok NEW pid now db db' :
  sign_up NEW pid now db = Ok db' ->
  user_exists db (AuthUsers.id NEW) = false /\
  exists u,
    coalesce (AuthUsers.username NEW) (option_map split_part_at (AuthUsers.email NEW)) = Some u /\
    (forall p, In p (profiles db) ->
               Profiles.id p <> pid /\ Profiles.user_id p <> AuthUsers.id NEW /\
               Profiles.username p <> u) /\
    db' = mkDatabase (users db ++ [NEW])
            (profiles db
               ++ [Profiles.mk pid (AuthUsers.id NEW) u
                               (coalesce (AuthUsers.full_name NEW) (AuthUsers.email NEW))
                               None now now])
            (categories db) (habits db) (habit_completions db) (follows db).
Proof.
  unfold sign_up, handle_new_user.
  destruct (user_exists db (AuthUsers.id NEW)); [discriminate|].
  destruct (coalesce (AuthUsers.username NEW) _) as [u|]; [|discriminate].
  cbn [with_users profiles].
  destruct (existsb _ (profiles db)) eqn:Hex; [discriminate|].
  intros [= <-]. split; [reflexivity|]. exists u. split; [reflexivity|]. split; [|reflexivity].
  intros p Hp. pose proof (existsb_false _ _ Hex p Hp) as H. cbn beta in H.
  apply orb_false_iff in H as [H H3]. apply orb_false_iff in H as [H1 H2].
  apply String.eqb_neq in H1, H2, H3. auto.
Qed.

Lemma insert_follow_ok auth_uid new_id now follower following db db' :
  insert_follow auth_uid new_id now follower following db = Ok db' ->
  exists me,
    follower = Some me /\ auth_uid = Some me /\ me <> following /\
    (forall f, In f (follows db) ->
               Follows.id f <> new_id /\ follow_pair f <> (me, following)) /\
    user_exists db me = true /\ user_exists db following = true /\
    db' = with_follows db (follows db ++ [Follows.mk new_id me following now]).
Proof.
  unfold insert_follow. destruct follower as [me|]; [|discriminate].
  destruct (is_uid auth_uid me) eqn:Hu; cbn [negb]; [|discriminate].
  destruct (String.eqb_spec me following) as [|Hne]; [discriminate|].
  destruct (existsb _ (follows db)) eqn:Hex; [discriminate|].
  destruct (user_exists db me) eqn:H1; cbn [andb negb]; [|discriminate].
  destruct (user_exists db following) eqn:H2; cbn [negb]; [|discriminate].
  intros [= <-]. exists me. apply is_uid_true in Hu. repeat split; auto.
  - pose proof (existsb_false _ _ Hex f H) as H0. cbn beta in H0.
    apply orb_false_iff in H0 as [H0 _]. now apply String.eqb_neq in H0.
  - pose proof (existsb_false _ _ Hex f H) as H0. cbn beta in H0.
    apply orb_false_iff in H0 as [_ H0]. intros Hp.
    apply same_follow_true in Hp. congruence.
Qed.

Lemma insert_habit_ok auth_uid new_id now name description frequency category_id user_id db db' :
  insert_habit auth_uid new_id now name description frequency category_id user_id db = Ok db' ->
  exists me,
    user_id = Some me /\ auth_uid = Some me /\
    (forall h, In h (habits db) -> Habits.id h <> new_id /\ habit_key h <> (me, name)) /\
    user_exists db me = true /\ category_exists db category_id = true /\
    db' = with_habits db
            (habits db
               ++ [Habits.mk new_id me name description frequency category_id true now now]).
Proof.
  unfold insert_habit. destruct user_id as [me|]; [|discriminate].
  destruct (is_uid auth_uid me) eqn:Hu; cbn [negb]; [|discriminate].
  destruct (existsb _ (habits db)) eqn:Hex; [discriminate|].
  destruct (user_exists db me) eqn:H1; cbn [andb negb]; [|discriminate].
  destruct (category_exists db category_id) eqn:H2; cbn [negb]; [|discriminate].
  intros [= <-]. exists me. apply is_uid_true in Hu. repeat split; auto.
  - pose proof (existsb_false _ _ Hex h H) as H0. cbn beta in H0.
    apply orb_false_iff in H0 as [H0 _]. now apply String.eqb_neq in H0.
  - pose proof (existsb_false _ _ Hex h H) as H0. cbn beta in H0.
    apply orb_false_iff in H0 as [_ H0]. intros Hp.
    apply same_habit_name_true in Hp. congruence.
Qed.

Lemma insert_completion_ok auth_uid new_id now hid uid date db db' :
  insert_completion auth_uid new_id now hid uid date db = Ok db' ->
  exists u,
    uid = Some u /\ auth_uid = Some u /\
    (forall c, In c (habit_completions db) ->
               Completions.id c <> new_id /\ completion_key c <> (hid, date)) /\
    habit_exists db hid = true /\ user_exists db u = true /\
    db' = with_habit_completions db
            (habit_completions db ++ [Completions.mk new_id hid u now date None]).
Proof.
  unfold insert_completion. destruct uid as [u|]; [|discriminate].
  destruct (is_uid auth_uid u) eqn:Hu; cbn [negb]; [|discriminate].
  destruct (existsb _ (habit_completions db)) eqn:Hex; [discriminate|].
  destruct (habit_exists db hid) eqn:H1; cbn [andb negb]; [|discriminate].
  destruct (user_exists db u) eqn:H2; cbn [negb]; [|discriminate].
  intros [= <-]. exists u. apply is_uid_true in Hu. repeat split; auto.
  - pose proof (existsb_false _ _ Hex c H) as H0. cbn beta in H0.
    apply orb_false_iff in H0 as [H0 _]. now apply String.eqb_neq in H0.
  - pose proof (existsb_false _ _ Hex c H) as H0. cbn beta in H0.
    apply orb_false_iff in H0 as [_ H0]. intros Hp.
    apply same_completion_true in Hp. congruence.
Qed.

Lemma update_habit_ok auth_uid now id uid name description frequency category_id db db' :
  update_habit auth_uid now id uid name description frequency category_id db = Ok db' ->
  (filter (update_target auth_uid id uid) (habits db) = [] /\ db' = db) \/
  ((exists t, filter (update_target auth_uid id uid) (habits db) = [t]) /\
   (forall h, In h (habits db) -> update_target auth_uid id uid h = false ->
              habit_key h <> (uid, name)) /\
   category_exists db category_id = true /\
   db' = with_habits db
           (map (fun h => if update_target auth_uid id uid h
                          then updated now name description frequency category_id h
                          else h) (habits db))).
Proof.
  unfold update_habit.
  destruct (filter (update_target auth_uid id uid) (habits db)) as [|t more] eqn:Ef.
  - intros [= <-]. left. auto.
  - destruct (existsb _ (habits db)) eqn:Hex; cbn [orb]; [discriminate|].
    destruct more as [|t' more]; cbn [List.length Nat.eqb negb]; [|discriminate].
    destruct (category_exists db category_id) eqn:Hc; cbn [negb]; [|discriminate].
    intros [= <-]. right. split; [now exists t|]. split; [|split; [reflexivity|reflexivity]].
    intros h Hh Ht Hk. pose proof (existsb_false _ _ Hex h Hh) as H0. cbn beta in H0.
    rewrite Ht in H0. cbn [negb andb] in H0.
    apply same_habit_name_true in Hk. congruence.
Qed.

(** *** The constraints hold in every state *)

Lemma user_exists_snoc db N p c h hc f u :
  user_exists (mkDatabase (users db ++ [N]) p c h hc f) u
  = user_exists db u || String.eqb (AuthUsers.id N) u.
Proof.
  unfold user_exists. cbn [users]. rewrite existsb_app. cbn [existsb].
  now rewrite orb_false_r.
Qed.

Lemma user_exists_delete_user uid db u :
  user_exists (delete_user uid db) u = true <-> user_exists db u = true /\ u <> uid.
Proof.
  unfold user_exists, delete_user. cbn [users]. rewrite !existsb_exists. split.
  - intros (r & Hin & He). apply filter_In in Hin as [Hin Hg].
    apply String.eqb_eq in He. subst u. apply negb_true_iff, String.eqb_neq in Hg.
    split; [|exact Hg]. exists r. split; [exact Hin|apply String.eqb_refl].
  - intros [(r & Hin & He) Hne]. exists r. split; [|exact He].
    apply filter_In. split; [exact Hin|]. apply String.eqb_eq in He. subst u.
    now apply negb_true_iff, String.eqb_neq.
Qed.

Lemma reachable_follows_ok db : reachable db -> follows_ok db.
Proof.
  induction 1 as [cats
                 |NEW pid now db db' _ IH Hs
                 |uid db _ IH
                 |a new_id now fo fg db db' _ IH Hs
                 |a fo fg db _ IH
                 |a new_id now n d fr c u db db' _ IH Hs
                 |a now i u n d fr c db db' _ IH Hs
                 |a hid db _ IH
                 |a new_id now hid u date db db' _ IH Hs].
  - split; [|split]; cbn; [intros f []|constructor|intros f []].
  - apply sign_up_ok in Hs as (_ & u & _ & _ & ->).
    destruct IH as (H1 & H2 & H3). repeat split; cbn [follows]; auto.
    + rewrite user_exists_snoc. now rewrite (proj1 (H3 f H)).
    + rewrite user_exists_snoc. now rewrite (proj2 (H3 f H)).
  - destruct IH as (H1 & H2 & H3). unfold follows_ok. cbn [delete_user follows].
    split; [|split].
    + intros f Hf. apply filter_In in Hf as [Hf _]. auto.
    + now apply NoDup_map_filter.
    + intros f Hf. apply filter_In in Hf as [Hf Hg].
      apply andb_true_iff in Hg as [Ha Hb].
      apply negb_true_iff, String.eqb_neq in Ha, Hb.
      destruct (H3 f Hf) as [Hx Hy].
      split; apply user_exists_delete_user; auto.
  - apply insert_follow_ok in Hs as (me & -> & -> & Hne & Hfresh & Hu1 & Hu2 & ->).
    destruct IH as (H1 & H2 & H3). unfold follows_ok. cbn [with_follows follows].
    split; [|split].
    + intros f Hf. apply in_app_iff in Hf as [Hf|[<-|[]]]; [auto|exact Hne].
    + apply NoDup_map_snoc; [exact H2|]. cbn. intros Hin.
      apply in_map_iff in Hin as (f & Hk & Hf). now apply (proj2 (Hfresh f Hf)).
    + intros f Hf. apply in_app_iff in Hf as [Hf|[<-|[]]]; [exact (H3 f Hf)|].
      cbn. split; assumption.
  - destruct IH as (H1 & H2 & H3). unfold follows_ok. cbn [delete_follow with_follows follows].
    split; [|split].
    + intros f Hf. apply filter_In in Hf as [Hf _]. auto.
    + now apply NoDup_map_filter.
    + intros f Hf. apply filter_In in Hf as [Hf _]. exact (H3 f Hf).
  - apply insert_habit_ok in Hs as (me & _ & _ & _ & _ & _ & ->). exact IH.
  - apply update_habit_ok in Hs as [[_ ->]|(_ & _ & _ & ->)]; exact IH.
  - exact IH.
  - apply insert_completion_ok in Hs as (me & _ & _ & _ & _ & _ & ->). exact IH.
Qed.

Lemma reachable_profiles_ok db : reachable db -> profiles_ok db.
Proof.
  induction 1 as [cats
                 |NEW pid now db db' _ IH Hs
                 |uid db _ IH
                 |a new_id now fo fg db db' _ IH Hs
                 |a fo fg db _ IH
                 |a new_id now n d fr c u db db' _ IH Hs
                 |a now i u n d fr c db db' _ IH Hs
                 |a hid db _ IH
                 |a new_id now hid u date db db' _ IH Hs].
  - split; [|split]; cbn; [constructor|constructor|intros u Hu; discriminate].
  - apply sign_up_ok in Hs as (Hnew & u & _ & Hfresh & ->).
    destruct IH as (H1 & H2 & H3). unfold profiles_ok. cbn [profiles].
    split; [|split].
    + apply NoDup_map_snoc; [exact H1|]. cbn. intros Hin.
      apply in_map_iff in Hin as (p & Hk & Hp). now apply (proj2 (proj2 (Hfresh p Hp))).
    + apply NoDup_map_snoc; [exact H2|]. cbn. intros Hin.
      apply in_map_iff in Hin as (p & Hk & Hp). now apply (proj1 (proj2 (Hfresh p Hp))).
    + intros v Hv. rewrite user_exists_snoc in Hv. apply orb_true_iff in Hv as [Hv|Hv].
      * destruct (H3 v Hv) as (p & Hp & He). exists p. split; [|exact He].
        apply in_app_iff. now left.
      * apply String.eqb_eq in Hv. eexists. split; [apply in_app_iff; right; left; reflexivity|].
        exact Hv.
  - destruct IH as (H1 & H2 & H3). unfold profiles_ok. cbn [delete_user profiles].
    split; [|split]; [now apply NoDup_map_filter|now apply NoDup_map_filter|].
    intros v Hv. apply user_exists_delete_user in Hv as [Hv Hne].
    destruct (H3 v Hv) as (p & Hp & He). exists p. split; [|exact He].
    apply filter_In. split; [exact Hp|]. rewrite He.
    now apply negb_true_iff, String.eqb_neq.
  - apply insert_follow_ok in Hs as (me & _ & _ & _ & _ & _ & _ & ->). exact IH.
  - exact IH.
  - apply insert_habit_ok in Hs as (me & _ & _ & _ & _ & _ & ->). exact IH.
  - apply update_habit_ok in Hs as [[_ ->]|(_ & _ & _ & ->)]; exact IH.
  - exact IH.
  - apply insert_completion_ok in Hs as (me & _ & _ & _ & _ & _ & ->). exact IH.
Qed.



Lemma reachable_completions_ok db : reachable db -> completions_ok db.
Proof.
  induction 1 as [cats
                 |NEW pid now db db' _ IH Hs
                 |uid db _ IH
                 |a new_id now fo fg db db' _ IH Hs
                 |a fo fg db _ IH
                 |a new_id now n d fr c u db db' _ IH Hs
                 |a now i u n d fr c db db' _ IH Hs
                 |a hid db _ IH
                 |a new_id now hid u date db db' _ IH Hs].
  - cbn. constructor.
  - apply sign_up_ok in Hs as (_ & u & _ & _ & ->). exact IH.
  - unfold completions_ok. cbn [delete_user habit_completions]. now apply NoDup_map_filter.
  - apply insert_follow_ok in Hs as (me & _ & _ & _ & _ & _ & _ & ->). exact IH.
  - exact IH.
  - apply insert_habit_ok in Hs as (me & _ & _ & _ & _ & _ & ->). exact IH.
  - apply update_habit_ok in Hs as [[_ ->]|(_ & _ & _ & ->)]; exact IH.
  - unfold completions_ok. cbn [delete_habit habit_completions]. now apply NoDup_map_filter.
  - apply insert_completion_ok in Hs as (me & _ & _ & Hfresh & _ & _ & ->).
    unfold completions_ok. cbn [with_habit_completions habit_completions].
    apply NoDup_map_snoc; [exact IH|]. cbn. intros Hin.
    apply in_map_iff in Hin as (x & Hk & Hx). now apply (proj2 (Hfresh x Hx)).
Qed.

End PgFacts.

Module SampleFacts.

Lemma two_users_reachable : Pg.reachable Sample.two_users.
Proof.
  apply (Pg.reach_sign_up Sample.bob "p2" 20
           (Pg.mkDatabase [Sample.alice]
              [Profiles.mk "p1" "u1" "alice" (Some "alice@example.com"%string) None 10 10]
              [Sample.health] [] [] [])); [|reflexivity].
  apply (Pg.reach_sign_up Sample.alice "p1" 10
           (Pg.mkDatabase [] [] [Sample.health] [] [] [])); [|reflexivity].
  apply Pg.reach_empty.
Qed.

Lemma busy_reachable : Pg.reachable Sample.busy.
Proof.
  apply (Pg.reach_insert_completion (Some "u2"%string) "k1" 50 "h1" (Some "u2"%string) 20000
           (Pg.mkDatabase (Pg.users Sample.two_users) (Pg.profiles Sample.two_users)
              [Sample.health] [Sample.run] [] [Follows.mk "f1" "u1" "u2" 30]));
    [|reflexivity].
  apply (Pg.reach_insert_habit (Some "u2"%string) "h1" 40 "Run" None daily
           (Some "c1"%string) (Some "u2"%string)
           (Pg.with_follows Sample.two_users [Follows.mk "f1" "u1" "u2" 30]));
    [|reflexivity].
  apply (Pg.reach_insert_follow (Some "u1"%string) "f1" 30 (Some "u1"%string) "u2"
           Sample.two_users); [|reflexivity].
  exact two_users_reachable.
Qed.

End SampleFacts.

Module FriendsFacts.
Import PgInv PgFacts.

Lemma member_true u ids : Friends.member u ids = true <-> In u ids.
Proof.
  unfold Friends.member. rewrite existsb_exists. split.
  - intros (x & Hin & He). apply String.eqb_eq in He. now subst.
  - intros H. exists u. split; [exact H|apply String.eqb_refl].
Qed.

Lemma In_following_ids me db u :
  In u (map Follows.following_id
            (filter (fun f => String.eqb (Follows.follower_id f) me) (Pg.follows db)))
  <-> exists f, In f (Pg.follows db) /\ follow_pair f = (me, u).
Proof.
  rewrite in_map_iff. split.
  - intros (f & He & Hf). apply filter_In in Hf as [Hf Hm]. apply String.eqb_eq in Hm.
    exists f. split; [exact Hf|]. unfold follow_pair. now rewrite He, Hm.
  - intros (f & Hf & Hp). injection Hp as Hm He. exists f. split; [exact He|].
    apply filter_In. split; [exact Hf|]. now apply String.eqb_eq.
Qed.

Lemma fetchFollowing_following me db st :
  Friends.following (Friends.fetchFollowing (Some me) db st)
  = filter (fun p => Friends.member (Profiles.user_id p)
                       (map Follows.following_id
                            (filter (fun f => String.eqb (Follows.follower_id f) me)
                                    (Pg.follows db))))
           (Pg.profiles db).
Proof.
  unfold Friends.fetchFollowing. cbv zeta.
  destruct (map Follows.following_id _) as [|i ids]; [|reflexivity].
  cbn [Friends.following]. symmetry. now apply filter_nil.
Qed.

Lemma fetchFriendsActivity_following user db st :
  Friends.following (Friends.fetchFriendsActivity user db st) = Friends.following st.
Proof.
  unfold Friends.fetchFriendsActivity. cbv zeta. destruct user as [me|]; [|reflexivity].
  destruct (map Follows.following_id _); [reflexivity|].
  destruct (firstn 50 _); reflexivity.
Qed.

Lemma isFollowing_fetch me db st u :
  Friends.isFollowing (Friends.fetchFollowing (Some me) db st) u = true
  <-> (exists f, In f (Pg.follows db) /\ follow_pair f = (me, u)) /\
      (exists p, In p (Pg.profiles db) /\ Profiles.user_id p = u).
Proof.
  unfold Friends.isFollowing. rewrite fetchFollowing_following, existsb_exists. split.
  - intros (p & Hp & He). apply String.eqb_eq in He. apply filter_In in Hp as [Hp Hm].
    apply member_true, In_following_ids in Hm. rewrite He in Hm. split; [exact Hm|].
    now exists p.
  - intros [Hf (p & Hp & He)]. exists p. split; [|now apply String.eqb_eq].
    apply filter_In. split; [exact Hp|]. apply member_true, In_following_ids.
    now rewrite He.
Qed.

Lemma feed_empty me db st :
  (forall f, In f (Pg.follows db) -> Follows.follower_id f <> Follows.following_id f) ->
  Friends.friendsActivity (Friends.fetchFriendsActivity (Some me) db st) = [].
Proof.
  intros Hself. unfold Friends.fetchFriendsActivity. cbv zeta.
  destruct (map Follows.following_id _) as [|i ids] eqn:E; [reflexivity|].
  rewrite <- E. rewrite filter_nil; [reflexivity|].
  intros c _. destruct (Pg.is_uid (Some me) (Completions.user_id c)) eqn:Hu; [|reflexivity].
  apply is_uid_true in Hu. injection Hu as Hu. rewrite <- Hu. cbn [andb].
  apply not_true_is_false. intros Hm.
  apply member_true, In_following_ids in Hm as (f & Hf & Hp).
  apply (Hself f Hf). injection Hp as -> ->. reflexivity.
Qed.

(** What a successful [followUser] has found and done. *)
Lemma followUser_success me u new_id now db st db' st' :
  Friends.followUser (Some me) u new_id now db st = (Friends.toast_success, db', st') ->
  Pg.insert_follow (Some me) new_id now (Some me) u db = Pg.Ok db' /\
  st' = Friends.fetchFriendsActivity (Some me) db' (Friends.fetchFollowing (Some me) db' st).
Proof.
  unfold Friends.followUser.
  destruct (Pg.maybeSingle _) as [[r|]|e]; try discriminate.
  destruct (Pg.insert_follow _ _ _ _ _ _) as [d|e]; [|discriminate].
  intros [= <- <-]. split; reflexivity.
Qed.

Lemma with_follows_same db : Pg.with_follows db (Pg.follows db) = db.
Proof. now destruct db. Qed.

End FriendsFacts.

Import PgInv.

(** X10.  Nobody can follow themselves: in every state of the database,
    [followUser] called with the signed-in user's own id shows "Error"
    (the [CHECK (follower_id != following_id)] refuses the insert, the
    look-up before it finds nothing) and changes neither the database nor
    the page. *)
Theorem followUser_oneself_refused (db : Pg.Database) (me new_id : string) (now : Z)
    (st : Friends.State) :
  Pg.reachable db ->
  Friends.followUser (Some me) me new_id now db st
  = (Friends.toast_error Pg.check_violation, db, st).
Proof.
  intros Hr. destruct (PgFacts.reachable_follows_ok db Hr) as (Hself & _ & _).
  unfold Friends.followUser. rewrite PgFacts.filter_nil.
  - cbn [Pg.maybeSingle]. unfold Pg.insert_follow.
    rewrite PgFacts.is_uid_same. cbn [negb]. now rewrite String.eqb_refl.
  - intros f Hf. apply not_true_is_false. intros Hs.
    apply PgFacts.same_follow_true in Hs. injection Hs as H1 H2.
    apply (Hself f Hf). congruence.
Qed.

Lemma followUser_oneself_refused_witness :
  Friends.followUser (Some "u1"%string) "u1" "f1" 30 Sample.two_users Sample.no_state
  = (Friends.toast_error Pg.check_violation, Sample.two_users, Sample.no_state).
Proof.
  apply (followUser_oneself_refused Sample.two_users "u1" "f1" 30 Sample.no_state).
  exact SampleFacts.two_users_reachable.
Defined.



(** X12.  After [followUser] has answered "Success", every further
    [followUser] for the same user answers "Already following" and changes
    neither the database nor the page, whatever the page's state. *)
Theorem followUser_twice (me u new_id : string) (now : Z) (db db' : Pg.Database)
    (st st' : Friends.State) :
  Friends.followUser (Some me) u new_id now db st = (Friends.toast_success, db', st') ->
  forall new_id2 now2 st2,
    Friends.followUser (Some me) u new_id2 now2 db' st2
    = (Friends.toast_already_following, db', st2).
Proof.
  intros H new_id2 now2 st2. apply FriendsFacts.followUser_success in H as [H _].
  apply PgFacts.insert_follow_ok in H as (m & [= <-] & _ & _ & Hfresh & _ & _ & ->).
  unfold Friends.followUser. cbn [Pg.with_follows Pg.follows].
  rewrite filter_app, PgFacts.filter_nil.
  - cbn [filter app]. unfold Pg.same_follow at 1. cbn [Follows.follower_id Follows.following_id].
    now rewrite !String.eqb_refl.
  - intros f Hf. apply not_true_is_false. intros Hs.
    apply PgFacts.same_follow_true in Hs. now apply (proj2 (Hfresh f Hf)).
Qed.

Lemma followUser_twice_witness :
  Friends.followUser (Some "u1"%string) "u2" "f2" 40
    (Pg.with_follows Sample.two_users [Follows.mk "f1" "u1" "u2" 30]) Sample.no_state
  = (Friends.toast_already_following,
     Pg.with_follows Sample.two_users [Follows.mk "f1" "u1" "u2" 30], Sample.no_state).
Proof.
  apply (followUser_twice "u1" "u2" "f1" 30 Sample.two_users
           (Pg.with_follows Sample.two_users [Follows.mk "f1" "u1" "u2" 30])
           Sample.no_state
           (Friends.mkState [Profiles.mk "p2" "u2" "bobby" (Some "Bob B"%string) None 20 20]
                            [] [])).
  reflexivity.
Defined.

(** X13.  Following and then unfollowing is a round trip: when
    [followUser] has answered "Success", [unfollowUser] for the same user
    answers "Success", gives back the database as it was before the follow,
    and the page no longer shows the user as followed. *)
Theorem follow_then_unfollow (me u new_id : string) (now : Z) (db db' : Pg.Database)
    (st st' : Friends.State) :
  Friends.followUser (Some me) u new_id now db st = (Friends.toast_success, db', st') ->
  exists st'',
    Friends.unfollowUser (Some me) u db' st' = (Friends.toast_success, db, st'') /\
    Friends.isFollowing st'' u = false.
Proof.
  intros H. apply FriendsFacts.followUser_success in H as [H _].
  apply PgFacts.insert_follow_ok in H as (m & [= <-] & _ & _ & Hfresh & _ & _ & ->).
  assert (Hdel : Pg.delete_follow (Some me) me u
                   (Pg.with_follows db (Pg.follows db ++ [Follows.mk new_id me u now])) = db).
  { unfold Pg.delete_follow. cbn [Pg.with_follows Pg.follows Pg.users Pg.profiles
                                  Pg.categories Pg.habits Pg.habit_completions].
    rewrite filter_app, PgFacts.filter_all.
    - cbn [filter]. unfold Pg.same_follow. cbn [Follows.follower_id Follows.following_id].
      rewrite PgFacts.is_uid_same, !String.eqb_refl. cbn [andb negb].
      rewrite app_nil_r. now destruct db.
    - intros f Hf. apply negb_true_iff, not_true_is_false. intros Hs.
      apply andb_true_iff in Hs as [_ Hs]. apply PgFacts.same_follow_true in Hs.
      now apply (proj2 (Hfresh f Hf)). }
  unfold Friends.unfollowUser. cbv zeta. rewrite Hdel. eexists. split; [reflexivity|].
  apply not_true_is_false. unfold Friends.isFollowing.
  rewrite FriendsFacts.fetchFriendsActivity_following.
  intros Hf. apply FriendsFacts.isFollowing_fetch in Hf as [(f & Hf & Hp) _].
  now apply (proj2 (Hfresh f Hf)).
Qed.

Lemma follow_then_unfollow_witness :
  exists st'',
    Friends.unfollowUser (Some "u1"%string) "u2"
      (Pg.with_follows Sample.two_users [Follows.mk "f1" "u1" "u2" 30])
      (Friends.mkState [Profiles.mk "p2" "u2" "bobby" (Some "Bob B"%string) None 20 20] [] [])
    = (Friends.toast_success, Sample.two_users, st'') /\
    Friends.isFollowing st'' "u2" = false.
Proof.
  apply (follow_then_unfollow "u1" "u2" "f1" 30 Sample.two_users
           (Pg.with_follows Sample.two_users [Follows.mk "f1" "u1" "u2" 30])
           Sample.no_state
           (Friends.mkState [Profiles.mk "p2" "u2" "bobby" (Some "Bob B"%string) None 20 20]
                            [] [])).
  reflexivity.
Defined.



(** X15.  [unfollowUser] removes nothing but the signed-in user's follow
    of that one user: every other row of [follows] stays, the other tables
    are untouched, and it answers "Success" also when there was nothing to
    remove, in which case the database is unchanged. *)
Theorem unfollowUser_removes_one_pair (me u : string) (db : Pg.Database)
    (st : Friends.State) :
  exists db' st',
    Friends.unfollowUser (Some me) u db st = (Friends.toast_success, db', st') /\
    (forall f, In f (Pg.follows db') <-> In f (Pg.follows db) /\ follow_pair f <> (me, u)) /\
    Pg.with_follows db' (Pg.follows db) = db /\
    ((forall f, In f (Pg.follows db) -> follow_pair f <> (me, u)) -> db' = db).
Proof.
  unfold Friends.unfollowUser. cbv zeta. eexists. eexists. split; [reflexivity|].
  assert (Hkeep : forall f,
             negb (Pg.is_uid (Some me) (Follows.follower_id f) && Pg.same_follow me u f) = true
             <-> follow_pair f <> (me, u)).
  { intros f. rewrite negb_true_iff. split.
    - intros Hn Hp. assert (Hs := proj2 (PgFacts.same_follow_true me u f) Hp).
      injection Hp as H1 H2. rewrite Hs, H1, PgFacts.is_uid_same in Hn. discriminate.
    - intros Hp. apply not_true_is_false. intros Hs. apply andb_true_iff in Hs as [_ Hs].
      now apply PgFacts.same_follow_true in Hs. }
  split; [|split].
  - intros f. unfold Pg.delete_follow. cbn [Pg.with_follows Pg.follows].
    rewrite filter_In. now rewrite Hkeep.
  - unfold Pg.delete_follow. now destruct db.
  - intros Hnone. unfold Pg.delete_follow. rewrite PgFacts.filter_all.
    + apply FriendsFacts.with_follows_same.
    + intros f Hf. apply Hkeep. exact (Hnone f Hf).
Qed.

(** X16.  Under the policies of the migration the friends' activity feed
    is always empty: in every state of the database and for every signed-in
    user, [fetchFriendsActivity] sets [friendsActivity] to the empty list.
    The completions are read under "Users can view their own completions",
    so only the user's own rows pass, and nobody follows themselves. *)
Theorem friends_activity_always_empty (db : Pg.Database) (me : string)
    (st : Friends.State) :
  Pg.reachable db ->
  Friends.friendsActivity (Friends.fetchFriendsActivity (Some me) db st) = [].
Proof.
  intros Hr. apply FriendsFacts.feed_empty.
  exact (proj1 (PgFacts.reachable_follows_ok db Hr)).
Qed.

Lemma friends_activity_always_empty_witness :
  Friends.friendsActivity
    (Friends.fetchFriendsActivity (Some "u1"%string) Sample.busy Sample.no_state) = [].
Proof.
  apply (friends_activity_always_empty Sample.busy "u1" Sample.no_state).
  exact SampleFacts.busy_reachable.
Defined.

Module CreateHabitFacts.
Import PgInv PgFacts.

Lemma NoDup_map_inj {A K : Type} (key : A -> K) (l : list A) (x y : A) :
  NoDup (map key l) -> In x l -> In y l -> key x = key y -> x = y.
Proof.
  induction l as [|a l IH]; cbn [map]; intros Hnd Hx Hy Hk; [destruct Hx|].
  inversion Hnd as [|k ks Hnotin Hnd']; subst.
  destruct Hx as [<-|Hx], Hy as [<-|Hy].
  - reflexivity.
  - exfalso. apply Hnotin. rewrite Hk. now apply in_map.
  - exfalso. apply Hnotin. rewrite <- Hk. now apply in_map.
  - now apply IH.
Qed.

Lemma filter_unique {A K : Type} (key : A -> K) (f : A -> bool) (l : list A) (x : A) :
  NoDup (map key l) -> In x l ->
  (forall y, In y l -> (f y = true <-> key y = key x)) ->
  filter f l = [x].
Proof.
  induction l as [|a l IH]; cbn [map filter]; intros Hnd Hx Hf; [destruct Hx|].
  inversion Hnd as [|k ks Hnotin Hnd']; subst.
  destruct (f a) eqn:Ha.
  - assert (Hax : a = x).
    { apply (NoDup_map_inj key (a :: l)); [exact Hnd|now left|exact Hx|].
      apply (Hf a); [now left|exact Ha]. }
    subst a. f_equal. apply filter_nil. intros y Hy. apply not_true_is_false. intros Hfy.
    apply Hnotin. rewrite <- (proj1 (Hf y (or_intror Hy)) Hfy). now apply in_map.
  - destruct Hx as [<-|Hx].
    + assert (f a = true) by (apply (Hf a); [now left|reflexivity]). congruence.
    + apply IH; [exact Hnd'|exact Hx|]. intros y Hy. apply Hf. now right.
Qed.

Lemma or_else_or_null d : Friends.or_else (CreateHabit.or_null d) "" = Friends.or_else d "".
Proof.
  destruct d as [s|]; [|reflexivity]. cbn.
  destruct (String.eqb_spec s ""); cbn; [reflexivity|].
  destruct (String.eqb_spec s ""); [contradiction|reflexivity].
Qed.

Lemma or_null_or_else d :
  d <> Some EmptyString -> CreateHabit.or_null (Some (Friends.or_else d "")) = d.
Proof.
  intros Hd. destruct d as [s|]; [|reflexivity]. cbn.
  destruct (String.eqb_spec s "") as [->|Hs]; [contradiction|].
  cbn. destruct (String.eqb_spec s ""); [contradiction|reflexivity].
Qed.

Lemma or_else_category c : Friends.or_else (Some c) "" = c.
Proof. cbn. now destruct (String.eqb_spec c "") as [->|]. Qed.

Lemma maybeSingle_none {A : Type} (l : list A) : Pg.maybeSingle l = Pg.Ok None -> l = [].
Proof. destruct l as [|a [|b l]]; [reflexivity|discriminate|discriminate]. Qed.

(** What a successful creation has found and done. *)
Lemma onSubmit_created me id new_id now data db db' :
  CreateHabit.onSubmit (Some me) id new_id now data db = (CreateHabit.toast_created, db') ->
  filter (fun h => Pg.is_uid (Some me) (Habits.user_id h)
                   && Pg.same_habit_name me (CreateHabit.name data) h
                   && Habits.is_active h) (Pg.habits db) = [] /\
  Pg.insert_habit (Some me) new_id now (CreateHabit.name data)
                  (CreateHabit.or_null (CreateHabit.description data))
                  (CreateHabit.frequency data) (Some (CreateHabit.category_id data))
                  (Some me) db = Pg.Ok db'.
Proof.
  unfold CreateHabit.onSubmit.
  destruct (if CreateHabit.isEditing id then id else None) as [i|].
  - destruct (Pg.update_habit _ _ _ _ _ _ _ _ _); discriminate.
  - destruct (Pg.maybeSingle _) as [[r|]|e] eqn:Em; try discriminate.
    apply maybeSingle_none in Em.
    destruct (Pg.insert_habit _ _ _ _ _ _ _ _ _) as [d|e]; [|discriminate].
    intros [= <-]. split; [exact Em|reflexivity].
Qed.

Lemma not_editing id : CreateHabit.isEditing id = false ->
  (if CreateHabit.isEditing id then id else None) = None.
Proof. now intros ->. Qed.

Lemma editing id : CreateHabit.isEditing id = true ->
  exists i, id = Some i /\ (if CreateHabit.isEditing id then id else None) = Some i.
Proof.
  intros H. rewrite H. destruct id as [i|]; [|discriminate]. now exists i.
Qed.

Lemma update_target_true me i h :
  Pg.update_target (Some me) i me h = true <-> Habits.id h = i /\ Habits.user_id h = me.
Proof.
  unfold Pg.update_target. rewrite !andb_true_iff, is_uid_true, !String.eqb_eq.
  split; [intros [[_ H1] H2]; auto|intros [H1 H2]; rewrite H2; auto].
Qed.

End CreateHabitFacts.

(** X17.  A name used by a habit of the user that is switched off cannot
    be used for a new habit: the look-up of [onSubmit] reads active habits
    only and finds nothing, and the insert is refused by
    [UNIQUE(user_id, name)], so the page shows "Error" and the database
    stays as it was. *)
Theorem onSubmit_name_of_inactive_habit (db : Pg.Database) (me : string)
    (id : option string) (new_id : string) (now : Z) (data : CreateHabit.HabitFormData)
    (h : Habits.row) :
  habits_ok db ->
  CreateHabit.isEditing id = false ->
  In h (Pg.habits db) ->
  habit_key h = (me, CreateHabit.name data) ->
  Habits.is_active h = false ->
  CreateHabit.onSubmit (Some me) id new_id now data db
  = (CreateHabit.toast_error Pg.unique_violation, db).
Proof.
  intros [Hkeys _] Hid Hh Hk Hoff. unfold CreateHabit.onSubmit.
  rewrite (CreateHabitFacts.not_editing id Hid), PgFacts.filter_nil.
  - cbn [Pg.maybeSingle]. unfold Pg.insert_habit. rewrite PgFacts.is_uid_same. cbn [negb].
    assert (He : existsb (fun x => String.eqb (Habits.id x) new_id
                                   || Pg.same_habit_name me (CreateHabit.name data) x)
                         (Pg.habits db) = true).
    { apply existsb_exists. exists h. split; [exact Hh|].
      rewrite (proj2 (PgFacts.same_habit_name_true _ _ _) Hk). apply orb_true_r. }
    now rewrite He.
  - intros y Hy. apply not_true_is_false. intros Ht.
    apply andb_true_iff in Ht as [Ht Ha]. apply andb_true_iff in Ht as [_ Ht].
    apply PgFacts.same_habit_name_true in Ht.
    assert (y = h) by (apply (CreateHabitFacts.NoDup_map_inj habit_key (Pg.habits db));
                       auto; congruence).
    subst y. congruence.
Qed.

Lemma onSubmit_name_of_inactive_habit_witness :
  CreateHabit.onSubmit (Some "u2"%string) None "h2" 60
    (CreateHabit.mkHabitFormData "Run" (Some "again"%string) weekly "c1") Sample.retired
  = (CreateHabit.toast_error Pg.unique_violation, Sample.retired).
Proof.
  apply (onSubmit_name_of_inactive_habit Sample.retired "u2" None "h2" 60
           (CreateHabit.mkHabitFormData "Run" (Some "again"%string) weekly "c1")
           (Habits.mk "h1" "u2" "Run" None daily (Some "c1"%string) false 40 45)).
  - split; (constructor; [intros []|constructor]).
  - reflexivity.
  - left. reflexivity.
  - reflexivity.
  - reflexivity.
Defined.

(** X18.  Creating a habit and opening it again is a round trip: after
    [onSubmit] has answered "Habit created", [fetchHabit] of the new row
    gives back the submitted name, frequency and category and the
    description (a missing one as the empty string); and every further
    creation under that name by the same user answers "You already have a
    habit with this name" and leaves the database as it is. *)
Theorem onSubmit_create_round_trip (db db' : Pg.Database) (me : string)
    (id : option string) (new_id : string) (now : Z) (data : CreateHabit.HabitFormData) :
  CreateHabit.onSubmit (Some me) id new_id now data db = (CreateHabit.toast_created, db') ->
  CreateHabit.fetchHabit (Some me) new_id db'
  = Some (CreateHabit.mkHabitFormData
            (CreateHabit.name data)
            (Some (Friends.or_else (CreateHabit.description data) ""))
            (CreateHabit.frequency data)
            (CreateHabit.category_id data)) /\
  forall id2 new_id2 now2 data2,
    CreateHabit.isEditing id2 = false ->
    CreateHabit.name data2 = CreateHabit.name data ->
    CreateHabit.onSubmit (Some me) id2 new_id2 now2 data2 db'
    = (CreateHabit.toast_duplicate_name, db').
Proof.
  intros H. apply CreateHabitFacts.onSubmit_created in H as [Hnone H].
  apply PgFacts.insert_habit_ok in H as (m & [= <-] & _ & Hfresh & _ & _ & ->).
  split.
  - unfold CreateHabit.fetchHabit. cbn [Pg.with_habits Pg.habits].
    rewrite filter_app, PgFacts.filter_nil.
    + cbn [filter app Habits.user_id Habits.id].
      rewrite PgFacts.is_uid_same, !String.eqb_refl. cbn [andb Pg.single].
      cbn [Habits.name Habits.description Habits.frequency Habits.category_id].
      now rewrite CreateHabitFacts.or_else_or_null, CreateHabitFacts.or_else_category.
    + intros h Hh. apply not_true_is_false. intros Ht.
      apply andb_true_iff in Ht as [Ht _]. apply andb_true_iff in Ht as [_ Ht].
      apply String.eqb_eq in Ht. now apply (proj1 (Hfresh h Hh)).
  - intros id2 new_id2 now2 data2 Hid Hname. unfold CreateHabit.onSubmit.
    rewrite (CreateHabitFacts.not_editing id2 Hid), Hname.
    cbn [Pg.with_habits Pg.habits]. rewrite filter_app, Hnone.
    cbn [filter app Habits.user_id Habits.name Habits.is_active].
    unfold Pg.same_habit_name. cbn [Habits.user_id Habits.name].
    now rewrite PgFacts.is_uid_same, !String.eqb_refl.
Qed.

Lemma onSubmit_create_round_trip_witness :
  CreateHabit.fetchHabit (Some "u2"%string) "h1"
    (Pg.with_habits Sample.two_users [Sample.run])
  = Some (CreateHabit.mkHabitFormData "Run" (Some ""%string) daily "c1") /\
  forall id2 new_id2 now2 data2,
    CreateHabit.isEditing id2 = false ->
    CreateHabit.name data2 = "Run"%string ->
    CreateHabit.onSubmit (Some "u2"%string) id2 new_id2 now2 data2
      (Pg.with_habits Sample.two_users [Sample.run])
    = (CreateHabit.toast_duplicate_name, Pg.with_habits Sample.two_users [Sample.run]).
Proof.
  apply (onSubmit_create_round_trip Sample.two_users
           (Pg.with_habits Sample.two_users [Sample.run]) "u2" None "h1" 40
           (CreateHabit.mkHabitFormData "Run" None daily "c1")).
  reflexivity.
Defined.

(** X19.  Saving the editor opened on an id that is not a habit of the
    signed-in user (another user's habit, or no habit at all) answers
    "Habit updated" and changes nothing in the database. *)
Theorem onSubmit_edit_not_own (db : Pg.Database) (me i new_id : string) (now : Z)
    (data : CreateHabit.HabitFormData) :
  CreateHabit.isEditing (Some i) = true ->
  (forall h, In h (Pg.habits db) -> Habits.id h = i -> Habits.user_id h <> me) ->
  CreateHabit.onSubmit (Some me) (Some i) new_id now data db
  = (CreateHabit.toast_updated, db).
Proof.
  intros Hid Hnot. unfold CreateHabit.onSubmit. rewrite Hid.
  unfold Pg.update_habit. cbv zeta. rewrite PgFacts.filter_nil; [reflexivity|].
  intros h Hh. apply not_true_is_false. intros Ht.
  apply CreateHabitFacts.update_target_true in Ht as [H1 H2]. exact (Hnot h Hh H1 H2).
Qed.

Lemma onSubmit_edit_not_own_witness :
  CreateHabit.onSubmit (Some "u1"%string) (Some "h1"%string) "h2" 60
    (CreateHabit.mkHabitFormData "Walk" None weekly "c1") Sample.busy
  = (CreateHabit.toast_updated, Sample.busy).
Proof.
  apply (onSubmit_edit_not_own Sample.busy "u1" "h1" "h2" 60
           (CreateHabit.mkHabitFormData "Walk" None weekly "c1")).
  - reflexivity.
  - intros h [<-|[]] _. discriminate.
Defined.

(** X20.  Saving the editor touches one row at most: whatever the form
    holds and whether the update is accepted or refused, the habits keep
    their ids, owners, active flags and creation instants, every habit
    other than the signed-in user's habit with the edited id stays as it
    is, and no other table changes. *)
Theorem onSubmit_edit_frame (db : Pg.Database) (me : string) (id : option string)
    (new_id : string) (now : Z) (data : CreateHabit.HabitFormData) :
  CreateHabit.isEditing id = true ->
  let db' := snd (CreateHabit.onSubmit (Some me) id new_id now data db) in
  map (fun h => (Habits.id h, Habits.user_id h, Habits.is_active h, Habits.created_at h))
      (Pg.habits db')
  = map (fun h => (Habits.id h, Habits.user_id h, Habits.is_active h, Habits.created_at h))
        (Pg.habits db) /\
  (forall h, In h (Pg.habits db) ->
             Some (Habits.id h) <> id \/ Habits.user_id h <> me -> In h (Pg.habits db')) /\
  Pg.with_habits db' (Pg.habits db) = db.
Proof.
  intros Hid. destruct (CreateHabitFacts.editing id Hid) as (i & -> & Hi).
  unfold CreateHabit.onSubmit. rewrite Hi.
  destruct (Pg.update_habit _ _ _ _ _ _ _ _ _) as [d|e] eqn:Hu; cbn [snd].
  - apply PgFacts.update_habit_ok in Hu as [[_ ->]|(_ & _ & _ & ->)].
    + split; [reflexivity|]. split; [auto|now destruct db].
    + cbn [Pg.with_habits Pg.habits]. split; [|split].
      * rewrite map_map. apply map_ext. intros h.
        now destruct (Pg.update_target (Some me) i me h).
      * intros h Hh Hother. apply in_map_iff. exists h. split; [|exact Hh].
        destruct (Pg.update_target (Some me) i me h) eqn:Ht; [|reflexivity].
        apply CreateHabitFacts.update_target_true in Ht as [H1 H2].
        destruct Hother as [Ho|Ho]; [rewrite H1 in Ho|]; contradiction.
      * now destruct db.
  - split; [reflexivity|]. split; [auto|now destruct db].
Qed.

Lemma onSubmit_edit_frame_witness :
  let db' := snd (CreateHabit.onSubmit (Some "u2"%string) (Some "h1"%string) "h2" 60
                    (CreateHabit.mkHabitFormData "Walk" None weekly "c1") Sample.busy) in
  map (fun h => (Habits.id h, Habits.user_id h, Habits.is_active h, Habits.created_at h))
      (Pg.habits db')
  = map (fun h => (Habits.id h, Habits.user_id h, Habits.is_active h, Habits.created_at h))
        (Pg.habits Sample.busy) /\
  (forall h, In h (Pg.habits Sample.busy) ->
             Some (Habits.id h) <> Some "h1"%string \/ Habits.user_id h <> "u2"%string ->
             In h (Pg.habits db')) /\
  Pg.with_habits db' (Pg.habits Sample.busy) = Sample.busy.
Proof.
  apply (onSubmit_edit_frame Sample.busy "u2" (Some "h1"%string) "h2" 60
           (CreateHabit.mkHabitFormData "Walk" None weekly "c1")).
  reflexivity.
Defined.

(** X21.  Opening a habit in the editor and saving it unchanged alters
    nothing but [updated_at]: for a habit of the signed-in user with a
    category and a description that is not the empty string, [fetchHabit]
    succeeds and [onSubmit] of the form it filled answers "Habit updated",
    leaving every row as it was except for that habit's [updated_at]. *)
Theorem edit_unchanged_round_trip (db : Pg.Database) (me new_id c : string) (now : Z)
    (h : Habits.row) :
  habits_ok db ->
  In h (Pg.habits db) ->
  Habits.user_id h = me ->
  Habits.id h <> EmptyString ->
  Habits.description h <> Some EmptyString ->
  Habits.category_id h = Some c ->
  Pg.category_exists db (Some c) = true ->
  exists form,
    CreateHabit.fetchHabit (Some me) (Habits.id h) db = Some form /\
    CreateHabit.onSubmit (Some me) (Some (Habits.id h)) new_id now form db
    = (CreateHabit.toast_updated,
       Pg.with_habits db
         (map (fun x => if String.eqb (Habits.id x) (Habits.id h) then touched now x else x)
              (Pg.habits db))).
Proof.
  intros [Hkeys Hids] Hh Hme Hid Hdesc Hcat Hex.
  assert (Hsel : forall f,
             (forall y, In y (Pg.habits db) -> (f y = true <-> Habits.id y = Habits.id h)) ->
             filter f (Pg.habits db) = [h]).
  { intros f Hf. now apply (CreateHabitFacts.filter_unique Habits.id). }
  assert (Htarget : forall y, In y (Pg.habits db) ->
                      (Pg.update_target (Some me) (Habits.id h) me y = true
                       <-> Habits.id y = Habits.id h)).
  { intros y Hy. rewrite CreateHabitFacts.update_target_true. split; [tauto|].
    intros He. split; [exact He|].
    now rewrite (CreateHabitFacts.NoDup_map_inj Habits.id _ y h Hids Hy Hh He). }
  eexists. split.
  - unfold CreateHabit.fetchHabit. rewrite Hsel; [reflexivity|].
    intros y Hy. rewrite <- (Htarget y Hy). unfold Pg.update_target. reflexivity.
  - unfold CreateHabit.onSubmit.
    assert (He : CreateHabit.isEditing (Some (Habits.id h)) = true).
    { cbn. now destruct (String.eqb_spec (Habits.id h) ""). }
    rewrite He. cbn [CreateHabit.name CreateHabit.description CreateHabit.frequency
                     CreateHabit.category_id].
    rewrite (CreateHabitFacts.or_null_or_else _ Hdesc), Hcat,
      CreateHabitFacts.or_else_category.
    unfold Pg.update_habit. cbv zeta. rewrite (Hsel _ Htarget).
    assert (Hfree : existsb (fun x => negb (Pg.update_target (Some me) (Habits.id h) me x)
                                      && Pg.same_habit_name me (Habits.name h) x)
                            (Pg.habits db) = false).
    { apply not_true_is_false. intros Hx. apply existsb_exists in Hx as (x & Hx & Ht).
      apply andb_true_iff in Ht as [Hn Hs]. apply PgFacts.same_habit_name_true in Hs.
      assert (x = h).
      { apply (CreateHabitFacts.NoDup_map_inj habit_key (Pg.habits db)); auto.
        rewrite Hs. unfold habit_key. now rewrite Hme. }
      subst x. apply negb_true_iff in Hn.
      assert (Pg.update_target (Some me) (Habits.id h) me h = true)
        by (now apply Htarget). congruence. }
    rewrite Hfree, Hex. cbn [List.length Nat.eqb negb orb].
    do 2 f_equal. apply map_ext_in. intros x Hx.
    destruct (String.eqb_spec (Habits.id x) (Habits.id h)) as [Hi|Hi].
    + rewrite (proj2 (Htarget x Hx) Hi).
      assert (x = h) by (now apply (CreateHabitFacts.NoDup_map_inj Habits.id (Pg.habits db))).
      subst x. unfold touched. now rewrite Hcat.
    + destruct (Pg.update_target (Some me) (Habits.id h) me x) eqn:Ht; [|reflexivity].
      apply Htarget in Ht; [contradiction|exact Hx].
Qed.

Lemma edit_unchanged_round_trip_witness :
  exists form,
    CreateHabit.fetchHabit (Some "u2"%string) "h1" Sample.busy = Some form /\
    CreateHabit.onSubmit (Some "u2"%string) (Some "h1"%string) "h2" 60 form Sample.busy
    = (CreateHabit.toast_updated,
       Pg.with_habits Sample.busy
         (map (fun x => if String.eqb (Habits.id x) "h1" then touched 60 x else x)
              (Pg.habits Sample.busy))).
Proof.
  apply (edit_unchanged_round_trip Sample.busy "u2" "h2" "c1" 60 Sample.run).
  - split; (constructor; [intros []|constructor]).
  - left. reflexivity.
  - reflexivity.
  - discriminate.
  - discriminate.
  - reflexivity.
  - reflexivity.
Defined.



Module SignUpFacts.
Import PgInv PgFacts.

Lemma split_part_at_app local domain :
  Pg.split_part_at (local ++ String "@" domain) = Pg.split_part_at local.
Proof.
  induction local as [|c local IH]; cbn; [reflexivity|].
  destruct (Ascii.eqb c "@"); [reflexivity|now rewrite IH].
Qed.

(** Every profile belongs to a user. *)
Lemma reachable_profile_users db :
  Pg.reachable db ->
  forall p, In p (Pg.profiles db) -> Pg.user_exists db (Profiles.user_id p) = true.
Proof.
  induction 1 as [cats
                 |NEW pid now db db' _ IH Hs
                 |uid db _ IH
                 |a new_id now fo fg db db' _ IH Hs
                 |a fo fg db _ IH
                 |a new_id now n d fr c u db db' _ IH Hs
                 |a now i u n d fr c db db' _ IH Hs
                 |a hid db _ IH
                 |a new_id now hid u date db db' _ IH Hs].
  - intros p [].
  - apply sign_up_ok in Hs as (_ & u & _ & _ & ->). cbn [Pg.profiles].
    intros p Hp. rewrite user_exists_snoc. apply in_app_iff in Hp as [Hp|[<-|[]]].
    + now rewrite (IH p Hp).
    + cbn. rewrite String.eqb_refl. apply orb_true_r.
  - cbn [Pg.delete_user Pg.profiles]. intros p Hp. apply filter_In in Hp as [Hp Hg].
    apply user_exists_delete_user. split; [exact (IH p Hp)|].
    now apply negb_true_iff, String.eqb_neq in Hg.
  - apply insert_follow_ok in Hs as (me & _ & _ & _ & _ & _ & _ & ->). exact IH.
  - exact IH.
  - apply insert_habit_ok in Hs as (me & _ & _ & _ & _ & _ & ->). exact IH.
  - apply update_habit_ok in Hs as [[_ ->]|(_ & _ & _ & ->)]; exact IH.
  - exact IH.
  - apply insert_completion_ok in Hs as (me & _ & _ & _ & _ & _ & ->). exact IH.
Qed.

End SignUpFacts.

(** X23.  In every state of the database each user has exactly one
    profile, each profile belongs to a user (a deleted user's profile is
    gone with the user), and no two profiles share a username. *)
Theorem every_user_has_one_profile (db : Pg.Database) :
  Pg.reachable db ->
  (forall u, Pg.user_exists db u = true ->
             List.length (filter (fun p => String.eqb (Profiles.user_id p) u)
                                 (Pg.profiles db)) = 1%nat) /\
  (forall p, In p (Pg.profiles db) -> Pg.user_exists db (Profiles.user_id p) = true) /\
  NoDup (map Profiles.username (Pg.profiles db)).
Proof.
  intros Hr. destruct (PgFacts.reachable_profiles_ok db Hr) as (Hnames & Hids & Hhas).
  split; [|split; [exact (SignUpFacts.reachable_profile_users db Hr)|exact Hnames]].
  intros u Hu. destruct (Hhas u Hu) as (p & Hp & He).
  rewrite (CreateHabitFacts.filter_unique Profiles.user_id _ _ p Hids Hp); [reflexivity|].
  intros y _. rewrite String.eqb_eq. now rewrite He.
Qed.

Lemma every_user_has_one_profile_witness :
  (forall u, Pg.user_exists (Pg.delete_user "u1" Sample.busy) u = true ->
             List.length (filter (fun p => String.eqb (Profiles.user_id p) u)
                                 (Pg.profiles (Pg.delete_user "u1" Sample.busy))) = 1%nat) /\
  (forall p, In p (Pg.profiles (Pg.delete_user "u1" Sample.busy)) ->
             Pg.user_exists (Pg.delete_user "u1" Sample.busy) (Profiles.user_id p) = true) /\
  NoDup (map Profiles.username (Pg.profiles (Pg.delete_user "u1" Sample.busy))).
Proof.
  apply (every_user_has_one_profile (Pg.delete_user "u1" Sample.busy)).
  apply Pg.reach_delete_user. exact SampleFacts.busy_reachable.
Defined.

(** X24.  Two sign-ups without a username in their metadata whose e-mail
    addresses agree up to the ['@'] cannot both succeed: the first gets the
    text before the first ['@'] as its username, and the second is refused
    with a unique violation raised in the trigger [handle_new_user], which
    undoes the sign-up. *)
Theorem sign_up_same_local_part (N1 N2 : AuthUsers.row) (loc dom1 dom2 p1 p2 : string)
    (t1 t2 : Z) (db db1 : Pg.Database) :
  AuthUsers.username N1 = None ->
  AuthUsers.email N1 = Some (loc ++ String "@" dom1)%string ->
  AuthUsers.username N2 = None ->
  AuthUsers.email N2 = Some (loc ++ String "@" dom2)%string ->
  Pg.sign_up N1 p1 t1 db = Pg.Ok db1 ->
  In (Profiles.mk p1 (AuthUsers.id N1) (Pg.split_part_at loc)
                  (Pg.coalesce (AuthUsers.full_name N1) (AuthUsers.email N1)) None t1 t1)
     (Pg.profiles db1) /\
  Pg.sign_up N2 p2 t2 db1 = Pg.Failed Pg.unique_violation.
Proof.
  intros Hu1 He1 Hu2 He2 Hs.
  apply PgFacts.sign_up_ok in Hs as (_ & u & Hu & _ & ->).
  rewrite Hu1, He1 in Hu. cbn in Hu. rewrite SignUpFacts.split_part_at_app in Hu.
  injection Hu as <-. split.
  - cbn [Pg.profiles]. apply in_app_iff. right. left. now rewrite He1.
  - unfold Pg.sign_up. destruct (Pg.user_exists _ _); [reflexivity|].
    unfold Pg.handle_new_user. rewrite Hu2, He2. cbn [Pg.coalesce option_map].
    rewrite SignUpFacts.split_part_at_app. cbn [Pg.with_users Pg.profiles].
    rewrite existsb_app. cbn [existsb Profiles.username].
    rewrite String.eqb_refl. now rewrite !orb_true_r.
Qed.

Lemma sign_up_same_local_part_witness :
  In (Profiles.mk "p1" "u1" (Pg.split_part_at "alice")
                  (Pg.coalesce None (Some "alice@example.com"%string)) None 10 10)
     (Pg.profiles (Pg.mkDatabase [Sample.alice]
                     [Profiles.mk "p1" "u1" "alice" (Some "alice@example.com"%string)
                                  None 10 10]
                     [Sample.health] [] [] [])) /\
  Pg.sign_up (AuthUsers.mk "u3" (Some "alice@example.org"%string) None (Some "Alice"%string))
             "p3" 70
             (Pg.mkDatabase [Sample.alice]
                [Profiles.mk "p1" "u1" "alice" (Some "alice@example.com"%string) None 10 10]
                [Sample.health] [] [] [])
  = Pg.Failed Pg.unique_violation.
Proof.
  apply (sign_up_same_local_part Sample.alice
           (AuthUsers.mk "u3" (Some "alice@example.org"%string) None (Some "Alice"%string))
           "alice" "example.com" "example.org" "p1" "p3" 10 70
           (Pg.mkDatabase [] [] [Sample.health] [] [] [])
           (Pg.mkDatabase [Sample.alice]
              [Profiles.mk "p1" "u1" "alice" (Some "alice@example.com"%string) None 10 10]
              [Sample.health] [] [] [])); reflexivity.
Defined.

Module FormatFacts.
Import JsDate JsDateFacts.

Lemma setHours0_eq tz a b :
  setHours0 tz a = setHours0 tz b <-> localDay tz a = localDay tz b.
Proof. unfold setHours0, MS_PER_DAY. lia. Qed.

Lemma format_MMM_d_no_label tz date :
  Friends.format_MMM_d tz date <> "Today"%string /\
  Friends.format_MMM_d tz date <> "Yesterday"%string.
Proof.
  unfold Friends.format_MMM_d.
  destruct (Friends.civil_month_day (localDay tz date)) as [m d].
  generalize (Friends.day_of_month d) as s. generalize (Z.to_nat (m - 1)) as n.
  intros n s. unfold Friends.month_abbreviations.
  do 12 (destruct n as [|n]; [cbn; split; discriminate|]).
  destruct n; cbn; split; discriminate.
Qed.

End FormatFacts.

(** X25.  [formatActivityDate] by calendar days, for a runtime whose UTC
    offset is within a day: east of UTC (and in UTC) a completion is
    labelled "Today" exactly when its [completion_date] is the local today
    and "Yesterday" exactly when it is the day before; west of UTC every
    label is a day late: "Today" stands for tomorrow's date and
    "Yesterday" for today's. *)
Theorem formatActivityDate_labels (tz now d : Z) :
  - MS_PER_DAY <= tz < MS_PER_DAY ->
  let shift := if tz <? 0 then 1 else 0 in
  (Friends.formatActivityDate tz now d = "Today"%string <-> d = localDay tz now + shift) /\
  (Friends.formatActivityDate tz now d = "Yesterday"%string
   <-> d = localDay tz now + shift - 1).
Proof.
  intros Htz shift.
  assert (Hp : localDay tz (parseDate d) = d - shift).
  { subst shift. destruct (Z.ltb_spec tz 0).
    - apply JsDateFacts.localDay_parseDate_west. lia.
    - rewrite JsDateFacts.localDay_parseDate_east by lia. lia. }
  destruct (FormatFacts.format_MMM_d_no_label tz (parseDate d)) as [Hn1 Hn2].
  unfold Friends.formatActivityDate, Friends.isToday, Friends.isYesterday.
  destruct (Z.eqb_spec (setHours0 tz (parseDate d)) (setHours0 tz now)) as [E|E];
    rewrite FormatFacts.setHours0_eq, Hp in E.
  - split; split; intros H; try reflexivity; try discriminate; lia.
  - destruct (Z.eqb_spec (setHours0 tz (parseDate d)) (setHours0 tz (addDays now (-1))))
      as [E2|E2];
      rewrite FormatFacts.setHours0_eq, Hp, JsDateFacts.localDay_addDays in E2.
    + split; split; intros H; try reflexivity; try discriminate; lia.
    + split; split; intros H; try contradiction; lia.
Qed.

Lemma formatActivityDate_labels_witness :
  let shift := if -18000000 <? 0 then 1 else 0 in
  (Friends.formatActivityDate (-18000000) (20000 * MS_PER_DAY + 43200000) 20000
   = "Today"%string
   <-> 20000 = localDay (-18000000) (20000 * MS_PER_DAY + 43200000) + shift) /\
  (Friends.formatActivityDate (-18000000) (20000 * MS_PER_DAY + 43200000) 20000
   = "Yesterday"%string
   <-> 20000 = localDay (-18000000) (20000 * MS_PER_DAY + 43200000) + shift - 1).
Proof.
  apply (formatActivityDate_labels (-18000000) (20000 * MS_PER_DAY + 43200000) 20000).
  unfold MS_PER_DAY. lia.
Defined.

Module FetchFacts.
Import PgInv PgFacts.

Lemma In_insert_by {A : Type} (key : A -> Z) (x y : A) (l : list A) :
  In y (Pg.insert_by key x l) <-> y = x \/ In y l.
Proof.
  induction l as [|a l IH]; cbn [Pg.insert_by].
  - cbn. intuition.
  - destruct (key a <? key x); cbn [In]; [intuition|]. rewrite IH. intuition.
Qed.

Lemma In_order_desc {A : Type} (key : A -> Z) (y : A) (l : list A) :
  In y (Pg.order_desc key l) <-> In y l.
Proof.
  unfold Pg.order_desc. induction l as [|a l IH]; cbn [fold_right]; [reflexivity|].
  rewrite In_insert_by, IH. cbn. intuition.
Qed.

(** The rows behind the elements of [fetchHabits]. *)
Lemma In_fetchHabits me db prev h :
  In h (DashboardData.fetchHabits (Some me) db prev) ->
  exists r, In r (Pg.habits db) /\ Habits.user_id r = me /\ Habits.is_active r = true /\
            h = DashboardData.to_habit (Some me) db r.
Proof.
  unfold DashboardData.fetchHabits. intros Hin. apply in_map_iff in Hin as (r & <- & Hr).
  apply In_order_desc, filter_In in Hr as [Hr Hf].
  apply andb_true_iff in Hf as [Hf Ha]. apply andb_true_iff in Hf as [_ Hu].
  apply String.eqb_eq in Hu. now exists r.
Qed.

Lemma NoDup_dates (hid : string) (f : Completions.row -> bool) (l : list Completions.row) :
  NoDup (map completion_key l) ->
  (forall c, f c = true -> Completions.habit_id c = hid) ->
  NoDup (map Completions.completion_date (filter f l)).
Proof.
  intros Hnd Hf. induction l as [|a l IH]; cbn [filter map]; [constructor|].
  cbn [map] in Hnd. inversion Hnd as [|k ks Hnotin Hnd']; subst.
  destruct (f a) eqn:Ha; [|now apply IH]. cbn [map]. constructor; [|now apply IH].
  intros Hin. apply in_map_iff in Hin as (c & Hd & Hc). apply filter_In in Hc as [Hc Hfc].
  apply Hnotin. apply in_map_iff. exists c. split; [|exact Hc].
  unfold completion_key. now rewrite Hd, (Hf c Hfc), (Hf a Ha).
Qed.

End FetchFacts.

(** X26.  After a completion has been recorded, the refreshed dashboard
    knows it: every habit with that id that [fetchHabits] returns carries
    a completion dated today, so for the rest of the UTC day a daily habit
    counts as completed ([isHabitCompletedToday]) and a further
    [completeHabit] stops at "Already completed" without sending anything
    to the database. *)
Theorem completion_shows_after_refresh (tz : Z) (me new_id hid : string) (now now' : Z)
    (db db' : Pg.Database) (prev : list Habit) (h : Habit) :
  Pg.insert_completion (Some me) new_id now hid (Some me) (toISODate now) db = Pg.Ok db' ->
  In h (DashboardData.fetchHabits (Some me) db' prev) ->
  id h = hid ->
  toISODate now' = toISODate now ->
  (frequency h = daily -> isHabitCompletedToday tz h now' = true) /\
  forall ledger,
    completeHabit tz (Some me) (DashboardData.fetchHabits (Some me) db' prev)
                  hid daily now' ledger
    = (toast_already_completed, ledger).
Proof.
  intros Hins Hin Hid Hday.
  apply PgFacts.insert_completion_ok in Hins as (u & [= <-] & _ & _ & _ & _ & ->).
  assert (Hhas : forall x, In x (DashboardData.fetchHabits
                                   (Some me)
                                   (Pg.with_habit_completions db
                                      (Pg.habit_completions db
                                         ++ [Completions.mk new_id hid me now
                                                            (toISODate now) None])) prev) ->
                           id x = hid ->
                           existsb (fun c => completion_date c =? toISODate now')
                                   (habit_completions x) = true).
  { intros x Hx Hxid. apply FetchFacts.In_fetchHabits in Hx as (r & _ & _ & _ & ->).
    cbn [DashboardData.to_habit id] in Hxid. apply existsb_exists.
    exists (mkCompletion new_id (toISODate now) "").
    split; [|rewrite Hday; apply Z.eqb_refl].
    cbn [DashboardData.to_habit habit_completions Pg.with_habit_completions
         Pg.habit_completions].
    apply in_map_iff. exists (Completions.mk new_id hid me now (toISODate now) None).
    split; [reflexivity|]. apply filter_In. split; [apply in_app_iff; right; now left|].
    cbn [Completions.user_id Completions.habit_id].
    rewrite PgFacts.is_uid_same, Hxid. apply String.eqb_refl. }
  split.
  - intros Hf. unfold isHabitCompletedToday. rewrite Hf. exact (Hhas h Hin Hid).
  - intros ledger. unfold completeHabit. cbv zeta.
    destruct (find _ _) as [x|] eqn:Hfind.
    + apply find_some in Hfind as [Hx Hxid]. apply String.eqb_eq in Hxid.
      cbn [option_map]. now rewrite (Hhas x Hx Hxid).
    + exfalso. pose proof (find_none _ _ Hfind h Hin) as Hn. cbn beta in Hn.
      rewrite Hid, String.eqb_refl in Hn. discriminate.
Qed.

Lemma completion_shows_after_refresh_witness :
  (frequency (DashboardData.to_habit (Some "u2"%string) Sample.busy Sample.run) = daily ->
   isHabitCompletedToday 0 (DashboardData.to_habit (Some "u2"%string) Sample.busy Sample.run)
                         (20000 * MS_PER_DAY + 7200000) = true) /\
  forall ledger,
    completeHabit 0 (Some "u2"%string)
                  (DashboardData.fetchHabits (Some "u2"%string) Sample.busy [])
                  "h1" daily (20000 * MS_PER_DAY + 7200000) ledger
    = (toast_already_completed, ledger).
Proof.
  apply (completion_shows_after_refresh 0 "u2" "k1" "h1" (20000 * MS_PER_DAY + 50)
           (20000 * MS_PER_DAY + 7200000)
           (Pg.mkDatabase (Pg.users Sample.two_users) (Pg.profiles Sample.two_users)
              [Sample.health] [Sample.run] [] [Follows.mk "f1" "u1" "u2" 30])
           (Pg.with_habit_completions Sample.busy
              [Completions.mk "k1" "h1" "u2" (20000 * MS_PER_DAY + 50) 20000 None])
           []
           (DashboardData.to_habit
              (Some "u2"%string)
              (Pg.with_habit_completions Sample.busy
                 [Completions.mk "k1" "h1" "u2" (20000 * MS_PER_DAY + 50) 20000 None])
              Sample.run)).
  - reflexivity.
  - left. reflexivity.
  - reflexivity.
  - reflexivity.
Defined.

(** X27.  What the dashboard fetches: in every state of the database,
    each habit [fetchHabits] returns is an active habit of the signed-in
    user, and its completions fall on pairwise different days, so their
    number is the number of days the habit was completed on. *)
Theorem fetched_habits_distinct_dates (db : Pg.Database) (me : string)
    (prev : list Habit) (h : Habit) :
  Pg.reachable db ->
  In h (DashboardData.fetchHabits (Some me) db prev) ->
  NoDup (dates h) /\
  exists r, In r (Pg.habits db) /\ Habits.id r = id h /\
            Habits.user_id r = me /\ Habits.is_active r = true.
Proof.
  intros Hr Hin. apply FetchFacts.In_fetchHabits in Hin as (r & Hrin & Hu & Ha & ->).
  split; [|exists r; now repeat split].
  unfold dates. cbn [DashboardData.to_habit habit_completions]. rewrite map_map.
  cbn [completion_date].
  apply (FetchFacts.NoDup_dates (Habits.id r)); [exact (PgFacts.reachable_completions_ok db Hr)|].
  intros c Hc. apply andb_true_iff in Hc as [_ Hc]. now apply String.eqb_eq in Hc.
Qed.

Lemma fetched_habits_distinct_dates_witness :
  NoDup (dates (DashboardData.to_habit (Some "u2"%string) Sample.busy Sample.run)) /\
  exists r, In r (Pg.habits Sample.busy) /\
            Habits.id r = id (DashboardData.to_habit (Some "u2"%string) Sample.busy Sample.run) /\
            Habits.user_id r = "u2"%string /\ Habits.is_active r = true.
Proof.
  apply (fetched_habits_distinct_dates Sample.busy "u2" []
           (DashboardData.to_habit (Some "u2"%string) Sample.busy Sample.run)).
  - exact SampleFacts.busy_reachable.
  - left. reflexivity.
Defined.

Module CountFacts.
Import PgInv PgFacts.

(** Among rows with distinct pairs, those with one second component have
    distinct first components, and the other way round. *)
Lemma NoDup_pairs_fst {A K L : Type} (a : A -> K) (b : A -> L) (y : L)
    (f : A -> bool) (l : list A) :
  NoDup (map (fun x => (a x, b x)) l) ->
  (forall x, f x = true -> b x = y) ->
  NoDup (map a (filter f l)).
Proof.
  intros Hnd Hf. induction l as [|x l IH]; cbn [filter map]; [constructor|].
  cbn [map] in Hnd. inversion Hnd as [|k ks Hnotin Hnd']; subst.
  destruct (f x) eqn:Hx; [|now apply IH]. cbn [map]. constructor; [|now apply IH].
  intros Hin. apply in_map_iff in Hin as (c & Hd & Hc). apply filter_In in Hc as [Hc Hfc].
  apply Hnotin. apply in_map_iff. exists c. split; [|exact Hc].
  now rewrite Hd, (Hf c Hfc), (Hf x Hx).
Qed.

Lemma NoDup_pairs_snd {A K L : Type} (a : A -> K) (b : A -> L) (y : K)
    (f : A -> bool) (l : list A) :
  NoDup (map (fun x => (a x, b x)) l) ->
  (forall x, f x = true -> a x = y) ->
  NoDup (map b (filter f l)).
Proof.
  intros Hnd Hf. induction l as [|x l IH]; cbn [filter map]; [constructor|].
  cbn [map] in Hnd. inversion Hnd as [|k ks Hnotin Hnd']; subst.
  destruct (f x) eqn:Hx; [|now apply IH]. cbn [map]. constructor; [|now apply IH].
  intros Hin. apply in_map_iff in Hin as (c & Hd & Hc). apply filter_In in Hc as [Hc Hfc].
  apply Hnotin. apply in_map_iff. exists c. split; [|exact Hc].
  now rewrite Hd, (Hf c Hfc), (Hf x Hx).
Qed.

(** The profiles of a duplicate-free list of users, one each. *)
Lemma profiles_of_length db ids :
  profiles_ok db -> NoDup ids ->
  (forall u, In u ids -> Pg.user_exists db u = true) ->
  List.length (filter (fun p => Friends.member (Profiles.user_id p) ids) (Pg.profiles db))
  = List.length ids.
Proof.
  intros (_ & Hids & Hhas) Hnd Hex.
  rewrite <- (length_map Profiles.user_id). apply Permutation_length.
  apply NoDup_Permutation; [now apply NoDup_map_filter|exact Hnd|].
  intros u. rewrite in_map_iff. split.
  - intros (p & <- & Hp). apply filter_In in Hp as [_ Hm].
    now apply FriendsFacts.member_true.
  - intros Hu. destruct (Hhas u (Hex u Hu)) as (p & Hp & He). exists p.
    split; [exact He|]. apply filter_In. split; [exact Hp|].
    apply FriendsFacts.member_true. now rewrite He.
Qed.

Lemma fetchFollowers_followers me db st :
  Friends.followers (Friends.fetchFollowers (Some me) db st)
  = filter (fun p => Friends.member (Profiles.user_id p)
                       (map Follows.follower_id
                            (filter (fun f => String.eqb (Follows.following_id f) me)
                                    (Pg.follows db))))
           (Pg.profiles db).
Proof.
  unfold Friends.fetchFollowers. cbv zeta.
  destruct (map Follows.follower_id _) as [|i ids]; [|reflexivity].
  cbn [Friends.followers]. symmetry. now apply filter_nil.
Qed.

End CountFacts.

Module ReferenceFacts.
Import PgInv PgFacts.



End ReferenceFacts.

(** X28.  The two counts the Friends page shows are those of the table:
    in every state of the database, after [fetchFollowing] and
    [fetchFollowers] the list [following] has as many profiles as [follows]
    has rows from the signed-in user, and [followers] as many as it has
    rows to that user. *)
Theorem following_and_followers_counts (db : Pg.Database) (me : string)
    (st : Friends.State) :
  Pg.reachable db ->
  List.length (Friends.following (Friends.fetchFollowing (Some me) db st))
  = List.length (filter (fun f => String.eqb (Follows.follower_id f) me) (Pg.follows db)) /\
  List.length (Friends.followers (Friends.fetchFollowers (Some me) db st))
  = List.length (filter (fun f => String.eqb (Follows.following_id f) me) (Pg.follows db)).
Proof.
  intros Hr. pose proof (PgFacts.reachable_profiles_ok db Hr) as Hp.
  destruct (PgFacts.reachable_follows_ok db Hr) as (_ & Hnd & Hex).
  split.
  - rewrite FriendsFacts.fetchFollowing_following, CountFacts.profiles_of_length.
    + apply length_map.
    + exact Hp.
    + apply (CountFacts.NoDup_pairs_snd Follows.follower_id Follows.following_id me);
        [exact Hnd|]. intros f Hf. now apply String.eqb_eq.
    + intros u Hu. apply in_map_iff in Hu as (f & <- & Hf).
      apply filter_In in Hf as [Hf _]. exact (proj2 (Hex f Hf)).
  - rewrite CountFacts.fetchFollowers_followers, CountFacts.profiles_of_length.
    + apply length_map.
    + exact Hp.
    + apply (CountFacts.NoDup_pairs_fst Follows.follower_id Follows.following_id me);
        [exact Hnd|]. intros f Hf. now apply String.eqb_eq.
    + intros u Hu. apply in_map_iff in Hu as (f & <- & Hf).
      apply filter_In in Hf as [Hf _]. exact (proj1 (Hex f Hf)).
Qed.

Lemma following_and_followers_counts_witness :
  List.length (Friends.following
                 (Friends.fetchFollowing (Some "u2"%string) Sample.busy Sample.no_state))
  = List.length (filter (fun f => String.eqb (Follows.follower_id f) "u2")
                        (Pg.follows Sample.busy)) /\
  List.length (Friends.followers
                 (Friends.fetchFollowers (Some "u2"%string) Sample.busy Sample.no_state))
  = List.length (filter (fun f => String.eqb (Follows.following_id f) "u2")
                        (Pg.follows Sample.busy)).
Proof.
  apply (following_and_followers_counts Sample.busy "u2" Sample.no_state).
  exact SampleFacts.busy_reachable.
Defined.


